(** * Scientific-figure QA loop of the image MCP server

    A shallow embedding of the TypeScript sources

    - [types/qa.ts]: check definitions and [getChecksForStyle];
    - [business/scientificQaValidator.ts]: [parseQaResponse],
      [buildReportFromResults], [buildSkippedReport], [buildRetryPatch],
      [validate];
    - [server/mcpServer.ts]: [detectMimeTypeFromMagicBytes],
      [initializeClients], [getExtensionFromImageData] and the generation +
      QA retry loop of [handleGenerateImage];
    - [server/errorHandler.ts]: [wrapWithResultType];
    - [utils/security.ts], [business/fileManager.ts]: the parts the handler
      calls;
    - [utils/config.ts]: [validateConfig] and [getConfig].

    Conventions.  A JavaScript string is a [string] (a sequence of bytes; the
    non-ASCII characters of the sources are kept as their UTF-8 bytes).
    [undefined] is [None].  A [Buffer] is a list of byte values in [Z].
    A JavaScript number that holds a count is a [nat], a time is in [N] or
    [Z]; the score, the only fractional number, is computed on IEEE 754
    doubles (the primitive floats of Rocq) and kept as the rational that
    double is.
    Logging is left out: it does not change any result.  Calls to the outside
    world (the two Gemini back ends, the file system, the clock) are oracle
    functions indexed by the attempt number, and every call is recorded in a
    trace of events. *)

From Stdlib Require Import List String Ascii ZArith QArith Qround Bool Arith Lia.
From Stdlib Require Import DecimalString Qabs Lqa.
From Stdlib Require Floats Uint63.
Import ListNotations.

Set Warnings "-register-all".
Close Scope Q_scope.
Open Scope nat_scope.
Open Scope string_scope.

(** ** Strings *)

Definition dq : string := String "034"%char "".
Definition nl : string := String "010"%char "".

Definition contains (s sub : string) : Prop :=
  exists pre post, s = pre ++ sub ++ post.

Definition ends_with (s suffix : string) : Prop :=
  exists pre, s = pre ++ suffix.

(** [s.includes(sub)] *)
Fixpoint includes (s sub : string) : bool :=
  prefix sub s ||
  match s with
  | EmptyString => false
  | String _ r => includes r sub
  end.

(** [s.startsWith(p)] *)
Definition startsWith (s p : string) : bool := prefix p s.

(** Decimal rendering of a count, as a template literal does. *)
Definition showNat (n : nat) : string :=
  NilZero.string_of_uint (Nat.to_uint n).

Definition showN (n : N) : string :=
  NilZero.string_of_uint (N.to_uint n).

(** ** [types/result.ts] *)

Inductive Result (T E : Type) : Type :=
| Ok (data : T)
| Err (error : E).
Arguments Ok {T E} data.
Arguments Err {T E} error.

(** ** [utils/errors.ts]: the error classes, by their [code] *)

Inductive AppError : Type :=
| InputValidationError (message : string)
| FileOperationError (message : string)
| GeminiAPIError (message : string)
| NetworkError (message : string)
| ConfigError (message : string)
| SecurityError (message : string)
| PlainError (message : string).

(** ** [types/mcp.ts], [types/qa.ts] *)

Inductive FigureStyle : Type :=
| scientific_diagram
| scientific_map
| scientific_chart.

Definition figureStyleName (s : FigureStyle) : string :=
  match s with
  | scientific_diagram => "scientific_diagram"
  | scientific_map => "scientific_map"
  | scientific_chart => "scientific_chart"
  end.

Inductive QaCheckStatus : Type := pass | fail | warning | skipped.
Inductive QaCheckSeverity : Type := hard | soft.

Definition severityName (s : QaCheckSeverity) : string :=
  match s with hard => "hard" | soft => "soft" end.

Record QaCheck : Type := mkQaCheck {
  id : string;
  name : string;
  severity : QaCheckSeverity;
  status : QaCheckStatus;
  detail : option string
}.

Record QaReport : Type := mkQaReport {
  passed : bool;
  score : Q;
  hardFailCount : nat;
  checks : list QaCheck;
  attempts : nat;
  figureStyle : FigureStyle;
  evaluationTimeMs : Z
}.

(** The fields of a definition carry the prefix [def_]: the names [id],
    [name] and [severity] are those of [QaCheck]. *)
Record QaCheckDefinition : Type := mkDef {
  def_id : string;
  def_name : string;
  def_severity : QaCheckSeverity;
  def_instruction : string
}.

Definition COMMON_CHECKS : list QaCheckDefinition :=
  [ mkDef "spelling" "Spelling Accuracy" hard
      "Are there any spelling errors in ANY visible text, labels, or annotations? Check every single word carefully.";
    mkDef "french_accents" "French Accent Marks" hard
      "If the figure contains French text, are all accent marks correct? Check for é, è, ê, ë, à, â, ù, û, ô, î, ï, ç, and other diacritics. Missing or incorrect accents count as failures.";
    mkDef "text_readable" "Text Readability" hard
      "Is ALL text visible, legible, and at a sufficient font size for publication? No text should overlap other text or elements.";
    mkDef "clean_background" "Clean Background" hard
      "Is the background clean white or neutral? There should be no distracting gradients, artistic effects, or decorative elements.";
    mkDef "contrast" "Sufficient Contrast" hard
      "Is there sufficient contrast between text/lines and the background for clear readability? Dark text/lines on light background.";
    mkDef "scientific_terminology" "Scientific Terminology" soft
      "Is the scientific terminology used correctly and consistently throughout the figure?" ].

Definition MAP_CHECKS : list QaCheckDefinition :=
  [ mkDef "scale_bar" "Scale Bar Present" hard
      "Is there a clearly visible scale bar with metric units (m or km)?";
    mkDef "north_arrow" "North Arrow Present" hard
      "Is there a clearly visible north arrow or compass indicator?";
    mkDef "legend_if_needed" "Legend If Needed" soft
      "If there are color-coded regions, symbols, or multiple data layers, is there a legend explaining them?" ].

Definition CHART_CHECKS : list QaCheckDefinition :=
  [ mkDef "axis_labels" "Axis Labels" hard
      "Are BOTH x-axis and y-axis clearly labeled?";
    mkDef "units_present" "Units Present" hard
      "Do axis labels include appropriate SI units (e.g., °C, m, km, W/m², years)?";
    mkDef "legend_if_multiple" "Legend for Multiple Series" hard
      "If there are multiple data series, lines, or bars, is there a legend?";
    mkDef "gridlines" "Grid Lines" soft
      "Are grid lines present if they would help reading values from the chart?" ].

Definition DIAGRAM_CHECKS : list QaCheckDefinition :=
  [ mkDef "components_labeled" "Components Labeled" hard
      "Are all major components and elements in the diagram clearly labeled with text annotations?";
    mkDef "visual_style_consistency" "Visual Style Consistency" hard
      "Is the visual style homogeneous throughout the diagram? There should be no mixing of flat 2D and semi-realistic 3D elements, no mixing of icon styles, and no inconsistent rendering approaches within the same figure.";
    mkDef "subpanel_labels" "Sub-panel Labels" hard
      "If the figure contains multiple sub-panels or sections, are they clearly labeled with lowercase letters (a, b, c, d) or numbers following journal conventions? Single-panel figures pass this check automatically.";
    mkDef "color_palette_coherent" "Coherent Color Palette" hard
      "Is the color palette coherent and unified across the entire diagram? Colors should follow a consistent scheme (e.g., blues for water/ice, greens for vegetation, reds for heat/danger). Random or clashing colors are a failure.";
    mkDef "flow_arrows" "Flow Arrows" soft
      "If this is a process diagram, are arrows and flow direction clear and unambiguous?";
    mkDef "consistent_lineweight" "Consistent Line Weight" soft
      "Are line weights consistent and professional throughout the diagram?" ].

(** [styleChecks[figureStyle] ?? []]: the record has an entry for each of the
    three styles, so the fallback is never taken. *)
Definition styleChecks (figureStyle : FigureStyle) : list QaCheckDefinition :=
  match figureStyle with
  | scientific_map => MAP_CHECKS
  | scientific_chart => CHART_CHECKS
  | scientific_diagram => DIAGRAM_CHECKS
  end.

Definition getChecksForStyle (figureStyle : FigureStyle) : list QaCheckDefinition :=
  COMMON_CHECKS ++ styleChecks figureStyle.

(** ** JSON values, as [JSON.parse] returns them *)

Inductive json : Type :=
| JNull
| JBool (b : bool)
| JNumber (q : Q)
| JString (s : string)
| JArray (items : list json)
| JObject (fields : list (string * json)).

Fixpoint assoc (k : string) (fields : list (string * json)) : option json :=
  match fields with
  | [] => None
  | (k', v) :: rest => if k' =? k then Some v else assoc k rest
  end.

(** [v.k] for the property names the validator reads ([checks], [id],
    [status], [detail]): only an object can have one of them; reading it from
    a number, a string, a boolean or an array gives [undefined]. *)
Definition getProp (v : json) (k : string) : option json :=
  match v with
  | JObject fields => assoc k fields
  | _ => None
  end.

(** [v?.k] on a value that may be [undefined] *)
Definition optProp (v : option json) (k : string) : option json :=
  match v with
  | Some v => getProp v k
  | None => None
  end.

(** JavaScript truthiness of a parsed JSON value *)
Definition truthy (v : json) : bool :=
  match v with
  | JNull => false
  | JBool b => b
  | JNumber q => negb (Qeq_bool q 0%Q)
  | JString s => negb (s =? "")
  | JArray _ => true
  | JObject _ => true
  end.

(** ** Regular-expression replacement used by [parseQaResponse] *)

Fixpoint dropPrefix (p s : string) : option string :=
  match p with
  | EmptyString => Some s
  | String a p' =>
    match s with
    | EmptyString => None
    | String b s' => if Ascii.eqb a b then dropPrefix p' s' else None
    end
  end.

(** Length of the match of [/```json?\n?/] at the start of [s]. *)
Definition matchJsonFence (s : string) : option nat :=
  match dropPrefix "```jso" s with
  | None => None
  | Some r =>
    let '(n1, r1) :=
      match r with
      | String c r' => if Ascii.eqb c "n"%char then (1, r') else (0, r)
      | EmptyString => (0, r)
      end in
    let n2 :=
      match r1 with
      | String c _ => if Ascii.eqb c "010"%char then 1 else 0
      | EmptyString => 0
      end in
    Some (6 + n1 + n2)
  end.

(** Length of the match of [/```/] at the start of [s]. *)
Definition matchFence (s : string) : option nat :=
  match dropPrefix "```" s with
  | None => None
  | Some _ => Some 3
  end.

(** [s.replace(re, '')] for a global expression [re] given by its matcher
    [m]: the string is scanned from the left, a match is dropped and the scan
    resumes behind it ([skip] counts the characters of a match still to be
    dropped). *)
Fixpoint removeAll (m : string -> option nat) (skip : nat) (s : string) : string :=
  match s with
  | EmptyString => EmptyString
  | String c r =>
    match skip with
    | S k => removeAll m k r
    | O =>
      match m s with
      | Some (S k) => removeAll m k r
      | _ => String c (removeAll m 0 r)
      end
    end
  end.

Definition stripCodeFences (responseText : string) : string :=
  removeAll matchFence 0 (removeAll matchJsonFence 0 responseText).

(** ** [business/scientificQaValidator.ts] *)

Record QaValidationParams : Type := mkQaValidationParams {
  qv_imageData : list Z;
  qv_figureStyle : FigureStyle;
  qv_originalPrompt : string
}.

Record GenerationConfig : Type := mkGenerationConfig {
  temperature : Q;
  maxTokens : nat;
  systemInstruction : string;
  inputImage : string
}.

Definition QA_SYSTEM_INSTRUCTION : string :=
"You are a strict scientific figure quality assessor for academic publications (Nature, Science, The Cryosphere quality).

Your role is to evaluate generated scientific images against specific quality criteria.
Be STRICT - publication quality demands perfection.

Pay SPECIAL ATTENTION to:
- Spelling errors in ANY language
- French accent marks: é, è, ê, ë, à, â, ù, û, ô, î, ï, ç (missing or incorrect accents are FAILURES)
- Text readability and legibility
- Mandatory cartographic/chart elements

ALWAYS respond with valid JSON only. No markdown formatting, no code fences, no explanatory text outside the JSON.".

Fixpoint mapi_from {A B} (i : nat) (f : A -> nat -> B) (l : list A) : list B :=
  match l with
  | [] => []
  | x :: r => f x i :: mapi_from (S i) f r
  end.

Definition buildEvaluationPrompt (figureStyle : FigureStyle) (originalPrompt : string) : string :=
  let checks := getChecksForStyle figureStyle in
  let checkList :=
    concat nl
      (mapi_from 0
         (fun c i =>
            showNat (i + 1) ++ ". [" ++ def_id c ++ "] (" ++
            severityName (def_severity c) ++ "): " ++ def_instruction c)
         checks) in
  "Evaluate this scientific figure against the following quality criteria.

ORIGINAL REQUEST: " ++ dq ++ originalPrompt ++ dq ++ "
FIGURE TYPE: " ++ figureStyleName figureStyle ++ "

EVALUATION CRITERIA:
" ++ checkList ++ "

RESPOND IN THIS EXACT JSON FORMAT:
{" ++ dq ++ "checks" ++ dq ++ ":[{" ++ dq ++ "id" ++ dq ++ ":" ++ dq ++ "check_id" ++ dq ++
  "," ++ dq ++ "status" ++ dq ++ ":" ++ dq ++ "pass" ++ dq ++ "," ++ dq ++ "detail" ++ dq ++
  ":" ++ dq ++ "brief explanation" ++ dq ++ "}]}

Rules:
- Evaluate ONLY what is visible in the image
- " ++ dq ++ "pass" ++ dq ++ " = criterion is clearly met
- " ++ dq ++ "fail" ++ dq ++ " = criterion is clearly NOT met
- " ++ dq ++ "warning" ++ dq ++ " = partially met or unclear
- Be concise in detail (max 20 words per check)
- Return ALL " ++ showNat (List.length checks) ++ " checks listed above, in order
- Use the exact " ++ dq ++ "id" ++ dq ++ " values shown in brackets above".

Definition isSkipped (s : QaCheckStatus) : bool :=
  match s with skipped => true | _ => false end.
Definition isPass (s : QaCheckStatus) : bool :=
  match s with pass => true | _ => false end.
Definition isFail (s : QaCheckStatus) : bool :=
  match s with fail => true | _ => false end.
Definition isHard (s : QaCheckSeverity) : bool :=
  match s with hard => true | soft => false end.

(** [r.severity === 'hard' && r.status === 'fail'] *)
Definition isHardFail (r : QaCheck) : bool :=
  isHard (severity r) && isFail (status r).

(** *** JavaScript numbers

    A number is an IEEE 754 double, here a primitive float; its arithmetic
    is the one of the kernel. *)

(** The double of a count.  It is exact for a count below 2^53, and the
    length of an array is below 2^32. *)
Definition toDouble (n : nat) : PrimFloat.float :=
  PrimFloat.of_uint63 (Uint63.of_Z (Z.of_nat n)).

(** The rational a finite double is; 0 stands for [NaN] and the infinities,
    which no score is. *)
Definition doubleValue (x : PrimFloat.float) : Q :=
  match FloatOps.Prim2SF x with
  | SpecFloat.S754_finite s m e =>
    let z := if s then Zneg m else Zpos m in
    if (0 <=? e)%Z then inject_Z (z * 2 ^ e)
    else Qmake z (Z.to_pos (2 ^ (- e)))
  | _ => 0%Q
  end.

(** [Math.round]: the integer nearest to [x], a tie going up, as a double;
    [x] itself when it is an integer, a zero, [NaN] or an infinity, and a
    zero of the sign of [x] when the integer is 0.  For [x = z * 2^e] with
    [e < 0] the integer is [floor ((2 z + 2^-e) / 2^(1-e))], taken exactly. *)
Definition Math_round (x : PrimFloat.float) : PrimFloat.float :=
  match FloatOps.Prim2SF x with
  | SpecFloat.S754_finite s m e =>
    if (0 <=? e)%Z then x
    else
      let z := if s then Zneg m else Zpos m in
      let r := ((2 * z + 2 ^ (- e)) / 2 ^ (- e + 1))%Z in
      if (r =? 0)%Z then (if s then PrimFloat.opp (toDouble 0) else toDouble 0)
      else if (0 <? r)%Z then PrimFloat.of_uint63 (Uint63.of_Z r)
      else PrimFloat.opp (PrimFloat.of_uint63 (Uint63.of_Z (- r)))
  | _ => x
  end.

(** [Math.round((passedChecks.length / evaluatedChecks.length) * 100) / 100]
    on doubles; the [score] of a report is the rational this double is. *)
Definition buildReportFromResults (checks : list QaCheck) (figureStyle : FigureStyle)
  : QaReport :=
  let evaluatedChecks := filter (fun r => negb (isSkipped (status r))) checks in
  let passedChecks := filter (fun r => isPass (status r)) evaluatedChecks in
  let hardFailures := filter isHardFail checks in
  let score :=
    if (0 <? List.length evaluatedChecks)%nat
    then doubleValue
           (PrimFloat.div
              (Math_round
                 (PrimFloat.mul
                    (PrimFloat.div (toDouble (List.length passedChecks))
                       (toDouble (List.length evaluatedChecks)))
                    (toDouble 100)))
              (toDouble 100))
    else 0%Q in
  {| passed := (List.length hardFailures =? 0)%nat;
     score := score;
     hardFailCount := List.length hardFailures;
     checks := checks;
     attempts := 1;
     figureStyle := figureStyle;
     evaluationTimeMs := 0%Z |}.

Definition buildSkippedReport (figureStyle : FigureStyle)
  (checkDefinitions : list QaCheckDefinition) : QaReport :=
  let checks :=
    map (fun def =>
           {| id := def_id def;
              name := def_name def;
              severity := def_severity def;
              status := skipped;
              detail := Some "QA evaluation could not be completed" |})
        checkDefinitions in
  {| passed := true;
     score := 0%Q;
     hardFailCount := 0;
     checks := checks;
     attempts := 1;
     figureStyle := figureStyle;
     evaluationTimeMs := 0%Z |}.

(** [parsed.checks?.find((c) => c?.id === checkDef.id)] *)
Definition findEntry (entries : list json) (checkId : string) : option json :=
  find (fun c =>
          match getProp c "id" with
          | Some (JString s) => s =? checkId
          | _ => false
          end) entries.

(** The status a reply entry gives, when it is one of the three accepted
    strings. *)
Definition validStatus (st : option json) : option QaCheckStatus :=
  match st with
  | Some (JString s) =>
    if s =? "pass" then Some pass
    else if s =? "fail" then Some fail
    else if s =? "warning" then Some warning
    else None
  | _ => None
  end.

(** The body of the [checkDefinitions.map] callback of [parseQaResponse]. *)
Definition checkResult (entries : list json) (checkDef : QaCheckDefinition) : QaCheck :=
  let found := findEntry entries (def_id checkDef) in
  {| id := def_id checkDef;
     name := def_name checkDef;
     severity := def_severity checkDef;
     status := match validStatus (optProp found "status") with
               | Some st => st
               | None => skipped
               end;
     detail := match optProp found "detail" with
               | Some (JString d) => Some d
               | _ => None
               end |}.

(** [Array.isArray(parsed.checks)], with the array when it is one. *)
Definition checksArray (parsed : json) : option (list json) :=
  match getProp parsed "checks" with
  | Some (JArray entries) => Some entries
  | _ => None
  end.

(** [parseQaResponse] behind its [try { JSON.parse }]. *)
Definition reportOfParsed (parsed : json) (figureStyle : FigureStyle)
  (checkDefinitions : list QaCheckDefinition) : QaReport :=
  if negb (truthy parsed) then buildSkippedReport figureStyle checkDefinitions
  else
    match checksArray parsed with
    | None => buildSkippedReport figureStyle checkDefinitions
    | Some entries =>
      buildReportFromResults (map (checkResult entries) checkDefinitions) figureStyle
    end.

(** *** The retry patch *)

(** The own properties of [REMEDIATION_INSTRUCTIONS], in source order. *)
Definition REMEDIATION_INSTRUCTIONS : list (string * string) :=
  [ ("spelling",
     "CRITICAL FIX: There are spelling errors in the figure. Double-check and correct ALL text, labels, and annotations.");
    ("french_accents",
     "CRITICAL FIX: French accent marks are missing or incorrect. Ensure all French text has correct accents: é, è, ê, ë, à, â, ù, û, ô, î, ï, ç.");
    ("text_readable",
     "CRITICAL FIX: Some text is not readable. All text must be clearly visible, at a sufficient font size, with no overlapping.");
    ("clean_background",
     "CRITICAL FIX: The background must be clean white or neutral. Remove any gradients, artistic effects, or decorative elements.");
    ("contrast",
     "CRITICAL FIX: Insufficient contrast. Use dark text/lines on a light background for clear readability.");
    ("scale_bar",
     "MANDATORY ELEMENT MISSING: You MUST include a clearly visible scale bar with metric units (m or km) in the bottom-left or bottom-right corner.");
    ("north_arrow",
     "MANDATORY ELEMENT MISSING: You MUST include a clearly visible north arrow (standard cartographic symbol) in the top-right corner.");
    ("axis_labels",
     "MANDATORY ELEMENT MISSING: BOTH x-axis and y-axis MUST have clearly visible labels.");
    ("units_present",
     "MANDATORY ELEMENT MISSING: All axis labels MUST include appropriate SI units in parentheses (e.g., Temperature (°C), Distance (km)).");
    ("legend_if_multiple",
     "MANDATORY ELEMENT MISSING: You MUST include a legend that explains all data series, colors, and symbols.");
    ("components_labeled",
     "MANDATORY ELEMENT MISSING: ALL major components and elements in the diagram MUST be clearly labeled with text annotations.") ].

Fixpoint ownProperty (k : string) (table : list (string * string)) : option string :=
  match table with
  | [] => None
  | (k', v) :: rest => if k' =? k then Some v else ownProperty k rest
  end.

(** [f.detail] where the source tests it for truthiness: the text, unless it
    is absent or empty. *)
Definition truthyDetail (f : QaCheck) : option string :=
  match detail f with
  | Some d => if d =? "" then None else Some d
  | None => None
  end.

(** ** [server/mcpServer.ts]: data *)

Record Config : Type := mkConfig {
  geminiApiKey : string;
  imageOutputDir : string;
  apiTimeout : Z;
  skipPromptEnhancement : bool;
  enableScientificQa : bool;
  scientificQaMaxRetries : nat;
  scientificQaModel : string
}.

(** [GenerateImageParams]; the fields carry the prefix [p_]. *)
Record GenerateImageParams : Type := mkParams {
  p_prompt : string;
  p_fileName : option string;
  p_inputImagePath : option string;
  p_blendImages : option bool;
  p_maintainCharacterConsistency : option bool;
  p_useWorldKnowledge : option bool;
  p_useGoogleSearch : option bool;
  p_aspectRatio : option string;
  p_imageSize : option string;
  p_figureStyle : option FigureStyle;
  p_editMode : option string;
  p_validateQa : option bool
}.

(** The argument of [generateImage]; the fields carry the prefix [g_]. *)
Record GeminiApiParams : Type := mkApiParams {
  g_prompt : string;
  g_inputImage : option string;
  g_inputImageMimeType : option string;
  g_aspectRatio : option string;
  g_imageSize : option string;
  g_useGoogleSearch : option bool;
  g_editMode : option string;
  g_figureStyle : option FigureStyle
}.

Record GeminiGenerationMetadata : Type := mkMetadata {
  model : string;
  md_prompt : string;
  mimeType : string;
  timestamp : Z;
  inputImageProvided : bool;
  modelVersion : option string;
  responseId : option string
}.

Record GeneratedImageResult : Type := mkGenerated {
  imageData : list Z;
  metadata : GeminiGenerationMetadata
}.

(** What a call of [qaValidator.validate] does: it returns a [Result] or it
    throws. *)
Inductive QaCall : Type :=
| Returned (r : Result QaReport AppError)
| Thrown (e : AppError).

(** The lazily created collaborators of [MCPServerImpl]; a handle is
    stateless, so only its presence is recorded ([false] is [null]). *)
Record ServerState : Type := mkServer {
  structuredPromptGenerator : bool;
  geminiTextClient : bool;
  geminiClient : bool;
  qaValidator : bool
}.

(** The calls that leave the process. *)
Inductive Event : Type :=
| GenerateImageCall (attempt : nat) (request : GeminiApiParams)
| QaValidateCall (attempt : nat) (params : QaValidationParams)
| SaveImageCall (data : list Z) (outputPath : string).

Record World : Type := mkWorld {
  server : ServerState;
  trace : list Event
}.

(** The arguments [handleGenerateImage] gives to [buildSuccessResponse]. *)
Record SuccessResponse : Type := mkResponse {
  resp_generation : GeneratedImageResult;
  resp_filePath : string;
  resp_qa : option QaReport
}.

(** The variables of the retry loop. *)
Record LoopVars : Type := mkLoopVars {
  currentPrompt : string;
  qaReport : option QaReport;
  lastGenerationResult : option GeneratedImageResult
}.

(** *** A monad for the handler: server state, trace and thrown errors *)

Definition M (A : Type) : Type := World -> World * Result A AppError.

Definition ret {A} (a : A) : M A := fun w => (w, Ok a).
Definition throw {A} (e : AppError) : M A := fun w => (w, Err e).
Definition bind {A B} (c : M A) (k : A -> M B) : M B :=
  fun w =>
    match c w with
    | (w', Ok a) => k a w'
    | (w', Err e) => (w', Err e)
    end.
Definition emit (e : Event) : M unit :=
  fun w => ({| server := server w; trace := trace w ++ [e] |}, Ok tt).
Definition getServer : M ServerState := fun w => (w, Ok (server w)).
Definition setServer (s : ServerState) : M unit :=
  fun w => ({| server := s; trace := trace w |}, Ok tt).
(** [if (!r.success) throw r.error] *)
Definition orThrow {A} (r : Result A AppError) : M A :=
  match r with
  | Ok a => ret a
  | Err e => throw e
  end.

Notation "x <- c ;; k" := (bind c (fun x => k))
  (at level 61, c at next level, right associativity).
Notation "c ;;; k" := (bind c (fun _ => k))
  (at level 61, right associativity).

(** *** Magic bytes and file names *)

(** [buffer[i] === v] *)
Definition byteIs (buffer : list Z) (i : nat) (v : Z) : bool :=
  match nth_error buffer i with
  | Some b => (b =? v)%Z
  | None => false
  end.

Definition getExtensionFromImageData (imageData : list Z) : string :=
  if (List.length imageData <? 12)%nat then ".png"
  else if byteIs imageData 0 0x89 && byteIs imageData 1 0x50 &&
          byteIs imageData 2 0x4e && byteIs imageData 3 0x47
  then ".png"
  else if byteIs imageData 0 0xff && byteIs imageData 1 0xd8 && byteIs imageData 2 0xff
  then ".jpg"
  else if byteIs imageData 0 0x47 && byteIs imageData 1 0x49 &&
          byteIs imageData 2 0x46 && byteIs imageData 3 0x38
  then ".gif"
  else if byteIs imageData 0 0x52 && byteIs imageData 1 0x49 &&
          byteIs imageData 2 0x46 && byteIs imageData 3 0x46 &&
          byteIs imageData 8 0x57 && byteIs imageData 9 0x45 &&
          byteIs imageData 10 0x42 && byteIs imageData 11 0x50
  then ".webp"
  else ".png".

(** [fileManager.ts]: the same table with one more row for BMP. *)
Definition getExtensionFromMagicBytes (buffer : list Z) : string :=
  if (List.length buffer <? 12)%nat then ".png"
  else if byteIs buffer 0 0x89 && byteIs buffer 1 0x50 &&
          byteIs buffer 2 0x4e && byteIs buffer 3 0x47
  then ".png"
  else if byteIs buffer 0 0xff && byteIs buffer 1 0xd8 && byteIs buffer 2 0xff
  then ".jpg"
  else if byteIs buffer 0 0x47 && byteIs buffer 1 0x49 &&
          byteIs buffer 2 0x46 && byteIs buffer 3 0x38
  then ".gif"
  else if byteIs buffer 0 0x42 && byteIs buffer 1 0x4d
  then ".bmp"
  else if byteIs buffer 0 0x52 && byteIs buffer 1 0x49 &&
          byteIs buffer 2 0x46 && byteIs buffer 3 0x46 &&
          byteIs buffer 8 0x57 && byteIs buffer 9 0x45 &&
          byteIs buffer 10 0x42 && byteIs buffer 11 0x50
  then ".webp"
  else ".png".

(** A character of the class [[^/.]]. *)
Definition extensionChar (c : ascii) : bool :=
  negb (Ascii.eqb c "/"%char) && negb (Ascii.eqb c "."%char).

Fixpoint allChars (p : ascii -> bool) (s : string) : bool :=
  match s with
  | EmptyString => true
  | String c r => p c && allChars p r
  end.

(** [/\.[^/.]+$/] matches at the start of [s]: a dot, then one or more
    characters other than [/] and [.], up to the end of the string. *)
Definition matchesExtension (s : string) : bool :=
  match s with
  | String c (String d r) =>
    Ascii.eqb c "."%char && allChars extensionChar (String d r)
  | _ => false
  end.

(** [fileName.replace(/\.[^/.]+$/, '')]: the leftmost match is removed; it
    reaches the end of the string, so nothing follows it. *)
Fixpoint removeExtension (fileName : string) : string :=
  match fileName with
  | EmptyString => EmptyString
  | String c r =>
    if matchesExtension fileName then EmptyString
    else String c (removeExtension r)
  end.

Definition truthyString (s : option string) : option string :=
  match s with
  | Some t => if t =? "" then None else Some t
  | None => None
  end.

Definition isSome {A} (o : option A) : bool :=
  match o with Some _ => true | None => false end.

Section Server.

(** *** The JavaScript runtime

    [JSON_parse] is [None] where [JSON.parse] throws.  [inheritedProperty k]
    is the text, inside a template literal, of the member named [k] that the
    object literal [REMEDIATION_INSTRUCTIONS] inherits from
    [Object.prototype] ([constructor], [toString], ...), and [None] for every
    other [k]. *)
Variable JSON_parse : string -> option json.
Variable trim : string -> string.
Variable toBase64 : list Z -> string.
Variable inheritedProperty : string -> option string.
Variable path_join : string -> string -> string.
Variable path_resolve : string -> string.
Variable dateNow : N.
Variable randomBelow1000 : nat.

(** *** Collaborators outside the core

    [validateGenerateImageParams], both client factories, the prompt
    generator, the two back ends and the file system.  [readInputImage]
    stands for the block of [handleGenerateImage] that reads
    [params.inputImagePath] and detects its MIME type; it gives
    [inputImageData] and [inputImageMimeType], or the error [fs.readFile]
    throws.  The back ends are asked once per attempt, so their answers are
    indexed by the attempt number. *)
Variable validateGenerateImageParams :
  GenerateImageParams -> Result GenerateImageParams AppError.
Variable getConfig : Result Config AppError.
Variable createGeminiTextClient : Config -> option string -> Result unit AppError.
Variable createGeminiClient : Config -> Result unit AppError.
Variable readInputImage :
  GenerateImageParams -> Result (option string * option string) AppError.
Variable generateStructuredPrompt :
  GenerateImageParams -> option string -> Result string AppError.
Variable generateImage : nat -> GeminiApiParams -> Result GeneratedImageResult AppError.
Variable qaValidate : nat -> QaValidationParams -> QaCall.
Variable elapsedMs : nat -> Z.
Variable saveImage : list Z -> string -> Result string AppError.
Variable allowedBasePaths : list string.

(** *** [buildRetryPatch] *)

(** [REMEDIATION_INSTRUCTIONS[f.id]] *)
Definition remediationInstruction (checkId : string) : option string :=
  match ownProperty checkId REMEDIATION_INSTRUCTIONS with
  | Some instruction => Some instruction
  | None => inheritedProperty checkId
  end.

(** The body of the [hardFailures.map] callback. *)
Definition remediationLine (f : QaCheck) : string :=
  let instruction := remediationInstruction (id f) in
  let detailText :=
    match truthyDetail f with
    | Some d => " (Issue found: " ++ d ++ ")"
    | None => ""
    end in
  match instruction with
  | Some instruction => "- " ++ instruction ++ detailText
  | None =>
    "- FIX REQUIRED for " ++ dq ++ name f ++ dq ++ ": " ++
    match truthyDetail f with
    | Some d => d
    | None => "This element is mandatory."
    end
  end.

Definition buildRetryPatch (failedChecks : list QaCheck) : string :=
  let hardFailures := filter isHardFail failedChecks in
  if (List.length hardFailures =? 0)%nat then ""
  else
    let remediations := concat nl (map remediationLine hardFailures) in
    nl ++ nl ++ "[CORRECTIONS OBLIGATOIRES - QA REMEDIATION]
The previous generation FAILED quality checks. You MUST address ALL of the following issues:
" ++ remediations ++ "

These fixes are MANDATORY for publication-quality scientific figures. Do not omit any of them.".

(** *** [parseQaResponse] and [validate] *)

Definition parseQaResponse (responseText : string) (figureStyle : FigureStyle)
  (checkDefinitions : list QaCheckDefinition) : QaReport :=
  let cleaned := trim (stripCodeFences responseText) in
  match JSON_parse cleaned with
  | None => buildSkippedReport figureStyle checkDefinitions
  | Some parsed => reportOfParsed parsed figureStyle checkDefinitions
  end.

(** The call [this.textClient.generateText(evaluationPrompt, {...})] of
    [validate], over the [generateText] of its text client. *)
Definition evaluatorReply
  (generateText : string -> GenerationConfig -> Result string AppError)
  (params : QaValidationParams) : Result string AppError :=
  let imageBase64 := toBase64 (qv_imageData params) in
  let evaluationPrompt :=
    buildEvaluationPrompt (qv_figureStyle params) (qv_originalPrompt params) in
  generateText evaluationPrompt
    {| temperature := (2 # 10)%Q;
       maxTokens := 4096;
       systemInstruction := QA_SYSTEM_INSTRUCTION;
       inputImage := imageBase64 |}.

(** [ScientificQaValidatorImpl.validate] *)
Definition validate
  (generateText : string -> GenerationConfig -> Result string AppError)
  (params : QaValidationParams) : Result QaReport AppError :=
  let checkDefinitions := getChecksForStyle (qv_figureStyle params) in
  let result := evaluatorReply generateText params in
  match result with
  | Err _ => Ok (buildSkippedReport (qv_figureStyle params) checkDefinitions)
  | Ok data => Ok (parseQaResponse data (qv_figureStyle params) checkDefinitions)
  end.

(** [createScientificQaValidator]: the validator as the handler calls it,
    over a text client whose answers are indexed by the attempt. *)
Definition createScientificQaValidator
  (textClient : nat -> string -> GenerationConfig -> Result string AppError)
  : nat -> QaValidationParams -> QaCall :=
  fun attempt params => Returned (validate (textClient attempt) params).

(** *** [security.ts], [fileManager.ts] *)

Definition sanitizeFilePath (inputPath : string) : Result string AppError :=
  if includes inputPath (String "000"%char "")
  then Err (SecurityError "Null byte detected in file path")
  else if includes inputPath ".."
  then Err (SecurityError "Path traversal attempt detected")
  else
    let resolvedPath := path_resolve inputPath in
    if existsb (fun basePath => startsWith resolvedPath (path_resolve basePath))
         allowedBasePaths
    then Ok resolvedPath
    else Err (SecurityError "File path outside allowed directories").

Definition generateFileName (data : list Z) : string :=
  "image-" ++ showN dateNow ++ "-" ++ showNat randomBelow1000 ++
  getExtensionFromMagicBytes data.

(** *** [MCPServerImpl.initializeClients] *)

Definition initializeClients : M unit :=
  s <- getServer ;;
  if structuredPromptGenerator s && geminiClient s then ret tt
  else
    config <- orThrow getConfig ;;
    (if negb (geminiTextClient s)
     then
       _ <- orThrow (createGeminiTextClient config None) ;;
       s' <- getServer ;;
       setServer {| structuredPromptGenerator := structuredPromptGenerator s';
                    geminiTextClient := true;
                    geminiClient := geminiClient s';
                    qaValidator := qaValidator s' |}
     else ret tt) ;;;
    (if negb (structuredPromptGenerator s)
     then
       s' <- getServer ;;
       setServer {| structuredPromptGenerator := true;
                    geminiTextClient := geminiTextClient s';
                    geminiClient := geminiClient s';
                    qaValidator := qaValidator s' |}
     else ret tt) ;;;
    (if negb (geminiClient s)
     then
       _ <- orThrow (createGeminiClient config) ;;
       s' <- getServer ;;
       setServer {| structuredPromptGenerator := structuredPromptGenerator s';
                    geminiTextClient := geminiTextClient s';
                    geminiClient := true;
                    qaValidator := qaValidator s' |}
     else ret tt) ;;;
    (if negb (qaValidator s) && enableScientificQa config
     then
       match createGeminiTextClient config (Some (scientificQaModel config)) with
       | Ok _ =>
         s' <- getServer ;;
         setServer {| structuredPromptGenerator := structuredPromptGenerator s';
                      geminiTextClient := geminiTextClient s';
                      geminiClient := geminiClient s';
                      qaValidator := true |}
       | Err _ => ret tt
       end
     else ret tt).

(** The on-demand creation of the validator, inside [handleGenerateImage]. *)
Definition initializeQaOnDemand (params : GenerateImageParams) (config : Config)
  : M unit :=
  s <- getServer ;;
  if match p_validateQa params with Some true => true | _ => false end &&
     negb (qaValidator s) && isSome (p_figureStyle params)
  then
    match createGeminiTextClient config (Some (scientificQaModel config)) with
    | Ok _ =>
      setServer {| structuredPromptGenerator := structuredPromptGenerator s;
                   geminiTextClient := geminiTextClient s;
                   geminiClient := geminiClient s;
                   qaValidator := true |}
    | Err _ => ret tt
    end
  else ret tt.

(** [qaEnabled], over the value [this.qaValidator] has at that point. *)
Definition qaEnabled (params : GenerateImageParams) (config : Config)
  (s : ServerState) : bool :=
  isSome (p_figureStyle params) &&
  (enableScientificQa config ||
   match p_validateQa params with Some true => true | _ => false end) &&
  qaValidator s.

Definition maxAttempts (params : GenerateImageParams) (config : Config)
  (s : ServerState) : nat :=
  if qaEnabled params config s then scientificQaMaxRetries config + 1 else 1.

(** The argument of [geminiClient.generateImage] for a given prompt. *)
Definition generationRequest (params : GenerateImageParams)
  (inputImageData inputImageMimeType : option string) (prompt : string)
  : GeminiApiParams :=
  {| g_prompt := prompt;
     g_inputImage := truthyString inputImageData;
     g_inputImageMimeType := truthyString inputImageMimeType;
     g_aspectRatio := truthyString (p_aspectRatio params);
     g_imageSize := truthyString (p_imageSize params);
     g_useGoogleSearch := p_useGoogleSearch params;
     g_editMode := truthyString (p_editMode params);
     g_figureStyle := p_figureStyle params |}.

(** *** The generation + QA retry loop

    [for (let attempt = 1; attempt <= maxAttempts; attempt++)]: [remaining]
    is the number of values [attempt] can still take, [maxAttempts + 1 -
    attempt]; the loop is entered with [remaining = maxAttempts] and
    [attempt = 1].  A [break] returns the loop variables. *)
Fixpoint retryLoop (params : GenerateImageParams)
  (request : string -> GeminiApiParams) (structuredPrompt : string)
  (qaOn : bool) (maxAtt : nat)
  (remaining attempt : nat) (v : LoopVars) {struct remaining} : M LoopVars :=
  match remaining with
  | O => ret v
  | S remaining' =>
    emit (GenerateImageCall attempt (request (currentPrompt v))) ;;;
    generationResult <- orThrow (generateImage attempt (request (currentPrompt v))) ;;
    let v1 := {| currentPrompt := currentPrompt v;
                 qaReport := qaReport v;
                 lastGenerationResult := Some generationResult |} in
    s <- getServer ;;
    match (if qaOn && qaValidator s then p_figureStyle params else None) with
    | Some style =>
      let qaParams := {| qv_imageData := imageData generationResult;
                         qv_figureStyle := style;
                         qv_originalPrompt := p_prompt params |} in
      emit (QaValidateCall attempt qaParams) ;;;
      match qaValidate attempt qaParams with
      | Returned (Ok data) =>
        let report := {| passed := passed data;
                         score := score data;
                         hardFailCount := hardFailCount data;
                         checks := checks data;
                         attempts := attempt;
                         figureStyle := figureStyle data;
                         evaluationTimeMs := elapsedMs attempt |} in
        let v2 := {| currentPrompt := currentPrompt v;
                     qaReport := Some report;
                     lastGenerationResult := Some generationResult |} in
        if passed report || (attempt =? maxAtt)%nat then ret v2
        else
          let patch := buildRetryPatch (checks report) in
          if patch =? "" then ret v2
          else
            retryLoop params request structuredPrompt qaOn maxAtt
              remaining' (S attempt)
              {| currentPrompt := structuredPrompt ++ patch;
                 qaReport := Some report;
                 lastGenerationResult := Some generationResult |}
      | Returned (Err _) => ret v1
      | Thrown _ => ret v1
      end
    | None => ret v1
    end
  end.

(** The file name the artifact is saved under. *)
Definition outputFileName (params : GenerateImageParams) (data : list Z) : string :=
  match truthyString (p_fileName params) with
  | Some fileName =>
    let actualExtension := getExtensionFromImageData data in
    let baseName := removeExtension fileName in
    baseName ++ actualExtension
  | None => generateFileName data
  end.

(** [handleGenerateImage] from [const qaEnabled] to its [return]: the retry
    loop, then the file name, the path check, the save and the response. *)
Definition orchestrate (params : GenerateImageParams) (config : Config)
  (inputImageData inputImageMimeType : option string) (structuredPrompt : string)
  : M SuccessResponse :=
  s <- getServer ;;
  v <- retryLoop params (generationRequest params inputImageData inputImageMimeType)
         structuredPrompt (qaEnabled params config s) (maxAttempts params config s)
         (maxAttempts params config s) 1
         {| currentPrompt := structuredPrompt;
            qaReport := None;
            lastGenerationResult := None |} ;;
  match lastGenerationResult v with
  | None => throw (PlainError "Image generation failed")
  | Some last =>
    let fileName := outputFileName params (imageData last) in
    let outputPath := path_join (imageOutputDir config) fileName in
    sanitizedPath <- orThrow (sanitizeFilePath outputPath) ;;
    emit (SaveImageCall (imageData last) sanitizedPath) ;;;
    saved <- orThrow (saveImage (imageData last) sanitizedPath) ;;
    ret {| resp_generation := last;
           resp_filePath := saved;
           resp_qa := qaReport v |}
  end.

(** The structured prompt: the enriched one when enrichment runs and
    succeeds, the caller's otherwise. *)
Definition structuredPromptFor (params : GenerateImageParams) (config : Config)
  (inputImageData : option string) (s : ServerState) : string :=
  if negb (skipPromptEnhancement config) && structuredPromptGenerator s
  then match generateStructuredPrompt params inputImageData with
       | Ok structured => structured
       | Err _ => p_prompt params
       end
  else p_prompt params.

(** *** [server/errorHandler.ts]: [ErrorHandler.wrapWithResultType] *)

(** [error instanceof Error]: every class of [utils/errors.ts] extends
    [Error] through [BaseError], and [PlainError] is [Error] itself. *)
Definition instanceofError (error : AppError) : bool :=
  match error with
  | InputValidationError _ | FileOperationError _ | GeminiAPIError _
  | NetworkError _ | ConfigError _ | SecurityError _ | PlainError _ => true
  end.

(** [try { result = await operation(); return { ok: true, value: result } }
     catch (error) { ... return { ok: false, error: finalError } }]: the
    value the operation throws becomes the error of the result, replaced by
    [new Error('Unknown error')] when it is not an [Error]. *)
Definition wrapWithResultType {A : Type} (operation : M A) : M A :=
  fun w =>
    match operation w with
    | (w', Ok result) => (w', Ok result)
    | (w', Err error) =>
      let finalError :=
        if instanceofError error then error else PlainError "Unknown error" in
      (w', Err finalError)
    end.

Definition handleGenerateImage (params : GenerateImageParams) : M SuccessResponse :=
  wrapWithResultType (
  _ <- orThrow (validateGenerateImageParams params) ;;
  config <- orThrow getConfig ;;
  initializeClients ;;;
  img <- orThrow (readInputImage params) ;;
  s <- getServer ;;
  let structuredPrompt := structuredPromptFor params config (fst img) s in
  (if geminiClient s then ret tt
   else throw (PlainError "Gemini client not initialized")) ;;;
  initializeQaOnDemand params config ;;;
  orchestrate params config (fst img) (snd img) structuredPrompt).

(** The world a request starts in. *)
Definition startWorld (s : ServerState) : World :=
  {| server := s; trace := [] |}.

(** Counting the calls of a trace. *)
Definition isGenerateCall (e : Event) : bool :=
  match e with GenerateImageCall _ _ => true | _ => false end.
Definition isValidateCall (e : Event) : bool :=
  match e with QaValidateCall _ _ => true | _ => false end.
Definition isSaveCall (e : Event) : bool :=
  match e with SaveImageCall _ _ => true | _ => false end.

(** The attempt a back-end call belongs to. *)
Definition eventAttempt (e : Event) : option nat :=
  match e with
  | GenerateImageCall k _ => Some k
  | QaValidateCall k _ => Some k
  | SaveImageCall _ _ => None
  end.

(** *** The specification's wording of the score, to compare with *)

Definition countIf {A} (p : A -> bool) (l : list A) : nat :=
  List.length (filter p l).

Definition isEvaluated (s : QaCheckStatus) : bool :=
  match s with
  | pass | fail | warning => true
  | skipped => false
  end.

(** Passes over evaluated checks, and 0 when no check was evaluated. *)
Definition specScore (cs : list QaCheck) : Q :=
  let p := countIf (fun c => isPass (status c)) cs in
  let e := countIf (fun c => isEvaluated (status c)) cs in
  if (e =? 0)%nat then 0%Q
  else (inject_Z (Z.of_nat p) / inject_Z (Z.of_nat e))%Q.

(** File signatures, as prefixes of the buffer. *)
Definition startsWithBytes (signature data : list Z) : Prop :=
  firstn (List.length signature) data = signature.

Definition pngSignature : list Z := [0x89; 0x50; 0x4e; 0x47]%Z.
Definition jpegSignature : list Z := [0xff; 0xd8; 0xff]%Z.
Definition gifSignature : list Z := [0x47; 0x49; 0x46; 0x38]%Z.
Definition riffSignature : list Z := [0x52; 0x49; 0x46; 0x46]%Z.
Definition webpTag : list Z := [0x57; 0x45; 0x42; 0x50]%Z.

Definition isWebp (data : list Z) : Prop :=
  startsWithBytes riffSignature data /\ startsWithBytes webpTag (skipn 8 data).

(** *** Statements about reports and about runs of the loop *)

(** What every report of the evaluator satisfies, whichever of the two
    builders made it. *)
Definition CountsAgree (report : QaReport) : Prop :=
  hardFailCount report = countIf isHardFail (checks report) /\
  passed report = (hardFailCount report =? 0)%nat.

(** The double [k / 100], as a rational: the double nearest to [k]
    hundredths. *)
Definition hundredths (k : Z) : Q :=
  doubleValue (PrimFloat.div (PrimFloat.of_uint63 (Uint63.of_Z k)) (toDouble 100)).

(** The integer nearest to a rational, a tie going up. *)
Definition nearestInteger (x : Q) : Z := Qfloor (x + (1 # 2))%Q.

(** The score the code gives for [p] passes among [e] evaluated checks. *)
Definition roundedRatio (p e : nat) : Q :=
  doubleValue
    (PrimFloat.div
       (Math_round
          (PrimFloat.mul (PrimFloat.div (toDouble p) (toDouble e)) (toDouble 100)))
       (toDouble 100)).

(** The code's score is the double of a whole number of hundredths: the
    number nearest to the specification's ratio, a tie going up. *)
Definition RoundedScore (report : QaReport) : Prop :=
  exists k : Z,
    score report = hundredths k /\
    (100 * specScore (checks report) - (1 # 2) < inject_Z k)%Q /\
    (inject_Z k <= 100 * specScore (checks report) + (1 # 2))%Q.

(** A check made for a definition carries its identity. *)
Definition Materializes (def : QaCheckDefinition) (c : QaCheck) : Prop :=
  id c = def_id def /\ name c = def_name def /\ severity c = def_severity def.

Section LoopShape.

Variable params : GenerateImageParams.
Variable request : string -> GeminiApiParams.
Variable structuredPrompt : string.
Variable qaOn : bool.

(** What a run of the loop that starts at [attempt] with [remaining] turns
    left, loop variables [v] and server [s], leaves: the calls [t] it made
    and its result [r]. *)
Definition LoopPost (s : ServerState) (remaining attempt : nat) (v : LoopVars)
  (t : list Event) (r : Result LoopVars AppError) : Prop :=
  Forall (fun e => exists k, eventAttempt e = Some k /\
                             attempt <= k < attempt + remaining) t /\
  countIf isGenerateCall t <= remaining /\
  (forall k req,
     In (GenerateImageCall k req) t ->
     (k = attempt /\ req = request (currentPrompt v)) \/
     (attempt < k /\
      exists qp data,
        In (QaValidateCall (k - 1) qp) t /\
        qaValidate (k - 1) qp = Returned (Ok data) /\
        passed data = false /\
        req = request (structuredPrompt ++ buildRetryPatch (checks data)))) /\
  (forall k req e,
     In (GenerateImageCall k req) t -> generateImage k req = Err e ->
     r = Err e /\
     (forall qp, ~ In (QaValidateCall k qp) t) /\
     (forall k' req', In (GenerateImageCall k' req') t -> k' <= k)) /\
  (forall k qp data,
     In (QaValidateCall k qp) t ->
     qaValidate k qp = Returned (Ok data) -> passed data = true ->
     forall k' req, In (GenerateImageCall k' req) t -> k' <= k) /\
  (qaOn = false -> 1 <= remaining ->
   t = [GenerateImageCall attempt (request (currentPrompt v))]) /\
  (qaOn = false -> forall v', r = Ok v' -> qaReport v' = qaReport v) /\
  (1 <= remaining -> In (GenerateImageCall attempt (request (currentPrompt v))) t) /\
  (lastGenerationResult v <> None \/ 1 <= remaining ->
   forall v', r = Ok v' -> lastGenerationResult v' <> None) /\
  ((exists k qp, In (QaValidateCall k qp) t) <->
   (1 <= remaining /\ qaOn = true /\ qaValidator s = true /\
    p_figureStyle params <> None /\
    exists g, generateImage attempt (request (currentPrompt v)) = Ok g)).

End LoopShape.

(** ** Properties *)


(** *** Reports *)

Lemma filter_pass_of_evaluated (cs : list QaCheck) :
  filter (fun r => isPass (status r))
    (filter (fun r => negb (isSkipped (status r))) cs)
  = filter (fun r => isPass (status r)) cs.
Proof.
  induction cs as [|c cs IH]; simpl; [reflexivity|].
  destruct (status c) eqn:E; simpl; rewrite ?E; simpl; rewrite IH; reflexivity.
Qed.

Lemma filter_not_skipped (cs : list QaCheck) :
  filter (fun r => negb (isSkipped (status r))) cs
  = filter (fun c => isEvaluated (status c)) cs.
Proof.
  apply filter_ext. intros c. destruct (status c); reflexivity.
Qed.

Lemma skipped_not_hard_fail (c : QaCheck) :
  status c = skipped -> isHardFail c = false.
Proof.
  unfold isHardFail. intros ->. apply andb_false_r.
Qed.

Lemma filter_none {A} (p : A -> bool) (l : list A) :
  Forall (fun x => p x = false) l -> filter p l = [].
Proof.
  induction 1 as [|x l Hx _ IH]; simpl; [reflexivity|].
  rewrite Hx. exact IH.
Qed.

Lemma skipped_checks_status (fs : FigureStyle) (defs : list QaCheckDefinition) :
  Forall (fun c => status c = skipped) (checks (buildSkippedReport fs defs)).
Proof.
  simpl. induction defs as [|d defs IH]; simpl; constructor; auto.
Qed.

Lemma skipped_report_no_hard_fail (fs : FigureStyle) (defs : list QaCheckDefinition) :
  filter isHardFail (checks (buildSkippedReport fs defs)) = [].
Proof.
  apply filter_none.
  eapply Forall_impl; [|apply skipped_checks_status].
  intros c. apply skipped_not_hard_fail.
Qed.

Lemma buildReportFromResults_counts (cs : list QaCheck) (fs : FigureStyle) :
  CountsAgree (buildReportFromResults cs fs).
Proof. split; reflexivity. Qed.

Lemma buildSkippedReport_counts (fs : FigureStyle) (defs : list QaCheckDefinition) :
  CountsAgree (buildSkippedReport fs defs).
Proof.
  unfold CountsAgree, countIf. rewrite skipped_report_no_hard_fail.
  split; reflexivity.
Qed.

Lemma reportOfParsed_counts parsed fs defs :
  CountsAgree (reportOfParsed parsed fs defs).
Proof.
  unfold reportOfParsed.
  destruct (negb (truthy parsed)); [apply buildSkippedReport_counts|].
  destruct (checksArray parsed);
    [apply buildReportFromResults_counts | apply buildSkippedReport_counts].
Qed.

Lemma parseQaResponse_counts text fs defs :
  CountsAgree (parseQaResponse text fs defs).
Proof.
  unfold parseQaResponse.
  destruct (JSON_parse _);
    [apply reportOfParsed_counts | apply buildSkippedReport_counts].
Qed.

(** [validate] never fails: it returns one of two reports. *)
Lemma validate_returns generateText params :
  validate generateText params =
  Ok (match evaluatorReply generateText params with
      | Err _ =>
        buildSkippedReport (qv_figureStyle params)
          (getChecksForStyle (qv_figureStyle params))
      | Ok data =>
        parseQaResponse data (qv_figureStyle params)
          (getChecksForStyle (qv_figureStyle params))
      end).
Proof.
  unfold validate. destruct (evaluatorReply generateText params); reflexivity.
Qed.

Lemma no_hard_fail_iff (cs : list QaCheck) :
  (countIf isHardFail cs =? 0)%nat = true <->
  forall c, In c cs -> severity c = hard -> status c <> fail.
Proof.
  unfold countIf. rewrite Nat.eqb_eq, length_zero_iff_nil. split.
  - intros Hnil c Hin Hsev Hst.
    assert (Hf : In c (filter isHardFail cs)).
    { apply filter_In. split; [exact Hin|].
      unfold isHardFail. rewrite Hsev, Hst. reflexivity. }
    rewrite Hnil in Hf. exact Hf.
  - intros H. apply filter_none. apply Forall_forall. intros c Hin.
    unfold isHardFail.
    destruct (severity c) eqn:Hsev; [|reflexivity].
    destruct (status c) eqn:Hst; try reflexivity.
    exfalso. exact (H c Hin Hsev Hst).
Qed.

(** C1.  Every report [validate] returns, the all-skipped fallback included,
    has [hardFailCount] equal to the number of its checks that are hard and
    failed, and [passed] true exactly when that count is 0; so a report
    passes exactly when none of its hard checks failed, whatever its score
    and whatever its soft checks say. *)
Theorem C1_hard_fail_count_and_passed generateText params :
  exists report,
    validate generateText params = Ok report /\
    hardFailCount report = countIf isHardFail (checks report) /\
    passed report = (hardFailCount report =? 0)%nat /\
    (passed report = true <->
     forall c, In c (checks report) -> severity c = hard -> status c <> fail).
Proof.
  rewrite validate_returns. eexists. split; [reflexivity|].
  assert (H : CountsAgree
                (match evaluatorReply generateText params with
                 | Err _ =>
                   buildSkippedReport (qv_figureStyle params)
                     (getChecksForStyle (qv_figureStyle params))
                 | Ok data =>
                   parseQaResponse data (qv_figureStyle params)
                     (getChecksForStyle (qv_figureStyle params))
                 end)).
  { destruct (evaluatorReply generateText params);
      [apply parseQaResponse_counts | apply buildSkippedReport_counts]. }
  destruct H as [Hc Hp]. repeat split; try assumption.
  - rewrite Hp, Hc. apply no_hard_fail_iff.
  - rewrite Hp, Hc. apply no_hard_fail_iff.
Qed.

(** *** The score *)

Lemma nearestInteger_bounds (x : Q) :
  (x - (1 # 2) < inject_Z (nearestInteger x))%Q /\
  (inject_Z (nearestInteger x) <= x + (1 # 2))%Q.
Proof.
  unfold nearestInteger. split.
  - pose proof (Qlt_floor (x + (1 # 2))) as H.
    rewrite inject_Z_plus in H. change (inject_Z 1) with 1%Q in H. lra.
  - apply Qfloor_le.
Qed.

Lemma count_le_length {A} (p : A -> bool) (l : list A) :
  countIf p l <= List.length l.
Proof. unfold countIf. apply filter_length_le. Qed.

Lemma count_pass_le_evaluated (cs : list QaCheck) :
  countIf (fun c => isPass (status c)) cs <=
  countIf (fun c => isEvaluated (status c)) cs.
Proof.
  unfold countIf. induction cs as [|c cs IH]; simpl; [lia|].
  destruct (status c); simpl; lia.
Qed.

Lemma effective_set_size (fs : FigureStyle) :
  List.length (getChecksForStyle fs) <= 12.
Proof. destruct fs; simpl; lia. Qed.

(** Two rationals that are the same fraction, numerator and denominator. *)
Definition sameFraction (a b : Q) : bool :=
  (Qnum a =? Qnum b)%Z && (Qden a =? Qden b)%positive.

Lemma sameFraction_eq (a b : Q) : sameFraction a b = true -> a = b.
Proof.
  destruct a as [n d], b as [n' d']. unfold sameFraction. cbn [Qnum Qden].
  intros H. apply andb_true_iff in H. destruct H as [Hn Hd].
  apply Z.eqb_eq in Hn. apply Pos.eqb_eq in Hd. subst. reflexivity.
Qed.

(** The doubles of the score, for the counts a report of at most twelve
    checks can have: the division, the product and [Math.round] on doubles
    give the integer nearest to the exact ratio times 100. *)
Definition ratioAgrees (e p : nat) : bool :=
  sameFraction (roundedRatio p e)
    (hundredths
       (nearestInteger
          (inject_Z (Z.of_nat p) / inject_Z (Z.of_nat e) * 100)%Q)).

Lemma ratio_table :
  forallb (fun e => forallb (ratioAgrees e) (seq 0 (S e))) (seq 1 12) = true.
Proof. vm_compute. reflexivity. Qed.

Lemma roundedRatio_nearest (p e : nat) :
  1 <= e <= 12 -> p <= e ->
  roundedRatio p e =
  hundredths
    (nearestInteger (inject_Z (Z.of_nat p) / inject_Z (Z.of_nat e) * 100)%Q).
Proof.
  intros He Hp. apply sameFraction_eq.
  pose proof ratio_table as Htable. rewrite forallb_forall in Htable.
  assert (Hin : In e (seq 1 12)) by (apply in_seq; lia).
  specialize (Htable e Hin). rewrite forallb_forall in Htable.
  apply (Htable p). apply in_seq. lia.
Qed.

(** The double of [k] hundredths, for [k] from 0 to 100: it lies between 0
    and 1, is 1 for 100 only and 0 for 0 only, and is within 2^-54 of [k]
    hundredths. *)
Definition hundredthsChecked (n : nat) : bool :=
  let k := Z.of_nat n in
  Qle_bool 0 (hundredths k) && Qle_bool (hundredths k) 1 &&
  Bool.eqb (Qeq_bool (hundredths k) 1) (k =? 100)%Z &&
  Bool.eqb (Qeq_bool (hundredths k) 0) (k =? 0)%Z &&
  Qle_bool (Qabs (hundredths k - inject_Z k * (1 # 100))) (1 # 18014398509481984).

Lemma hundredths_table : forallb hundredthsChecked (seq 0 101) = true.
Proof. vm_compute. reflexivity. Qed.

Lemma hundredths_facts (k : Z) :
  (0 <= k <= 100)%Z ->
  (0 <= hundredths k)%Q /\ (hundredths k <= 1)%Q /\
  ((hundredths k == 1)%Q <-> k = 100%Z) /\
  ((hundredths k == 0)%Q <-> k = 0%Z) /\
  (Qabs (hundredths k - inject_Z k * (1 # 100)) <= 1 # 18014398509481984)%Q.
Proof.
  intros Hk. pose proof hundredths_table as Htable.
  rewrite forallb_forall in Htable.
  assert (Hin : In (Z.to_nat k) (seq 0 101)) by (apply in_seq; lia).
  specialize (Htable _ Hin). unfold hundredthsChecked in Htable.
  rewrite Z2Nat.id in Htable by lia. cbv zeta in Htable.
  repeat (apply andb_true_iff in Htable; destruct Htable as [Htable ?]).
  repeat match goal with
         | H : Qle_bool _ _ = true |- _ => apply Qle_bool_iff in H
         | H : Bool.eqb _ _ = true |- _ => apply Bool.eqb_prop in H
         end.
  repeat split; try assumption.
  - intros H'. apply Qeq_bool_iff in H'. apply Z.eqb_eq. congruence.
  - intros H'. apply Z.eqb_eq in H'. apply Qeq_bool_iff. congruence.
  - intros H'. apply Qeq_bool_iff in H'. apply Z.eqb_eq. congruence.
  - intros H'. apply Z.eqb_eq in H'. apply Qeq_bool_iff. congruence.
Qed.

Lemma buildReportFromResults_rounded (cs : list QaCheck) (fs : FigureStyle) :
  List.length cs <= 12 -> RoundedScore (buildReportFromResults cs fs).
Proof.
  intros Hlen.
  pose proof (count_pass_le_evaluated cs) as Hpe.
  pose proof (count_le_length (fun c => isEvaluated (status c)) cs) as Hel.
  unfold RoundedScore, buildReportFromResults, specScore, countIf in *.
  cbn [score checks].
  rewrite filter_pass_of_evaluated, filter_not_skipped.
  destruct (List.length (filter (fun c => isEvaluated (status c)) cs)) as [|e] eqn:He.
  - cbn [Nat.ltb Nat.leb Nat.eqb]. exists 0%Z. change (inject_Z 0) with 0%Q.
    split; [vm_compute; reflexivity|]. split; lra.
  - change (0 <? S e)%nat with true. change (S e =? 0)%nat with false. cbv iota.
    set (p := List.length (filter (fun r => isPass (status r)) cs)) in *.
    change (doubleValue _) with (roundedRatio p (S e)).
    rewrite (roundedRatio_nearest p (S e)) by lia.
    set (x := (inject_Z (Z.of_nat p) / inject_Z (Z.of_nat (S e)))%Q).
    exists (nearestInteger (x * 100)). split; [reflexivity|].
    destruct (nearestInteger_bounds (x * 100)) as [Hlo Hhi]. split; lra.
Qed.

Lemma filter_all_skipped (p : QaCheck -> bool) (cs : list QaCheck) :
  Forall (fun c => status c = skipped) cs ->
  (forall c, status c = skipped -> p c = false) ->
  filter p cs = [].
Proof.
  intros Hall Hp. apply filter_none.
  eapply Forall_impl; [|exact Hall]. exact Hp.
Qed.

Lemma specScore_all_skipped (cs : list QaCheck) :
  Forall (fun c => status c = skipped) cs -> specScore cs = 0%Q.
Proof.
  intros Hall. unfold specScore, countIf.
  rewrite (filter_all_skipped (fun c => isEvaluated (status c)) cs Hall).
  - reflexivity.
  - intros c ->. reflexivity.
Qed.

Lemma buildSkippedReport_rounded (fs : FigureStyle) (defs : list QaCheckDefinition) :
  RoundedScore (buildSkippedReport fs defs).
Proof.
  unfold RoundedScore.
  rewrite (specScore_all_skipped _ (skipped_checks_status fs defs)).
  exists 0%Z. simpl score. change (inject_Z 0) with 0%Q.
  split; [vm_compute; reflexivity|]. split; lra.
Qed.

Lemma parseQaResponse_rounded text fs defs :
  List.length defs <= 12 -> RoundedScore (parseQaResponse text fs defs).
Proof.
  intros Hlen. unfold parseQaResponse, reportOfParsed.
  destruct (JSON_parse _) as [parsed|]; [|apply buildSkippedReport_rounded].
  destruct (negb (truthy parsed)); [apply buildSkippedReport_rounded|].
  destruct (checksArray parsed); [|apply buildSkippedReport_rounded].
  apply buildReportFromResults_rounded. rewrite length_map. exact Hlen.
Qed.

Lemma specScore_zero_denominator (cs : list QaCheck) :
  countIf (fun c => isEvaluated (status c)) cs = 0 -> specScore cs = 0%Q.
Proof. unfold specScore. intros ->. reflexivity. Qed.

Lemma specScore_range (cs : list QaCheck) :
  (0 <= specScore cs)%Q /\ (specScore cs <= 1)%Q.
Proof.
  pose proof (count_pass_le_evaluated cs) as Hle. unfold specScore.
  destruct (countIf (fun c => isEvaluated (status c)) cs) as [|e];
    cbn [Nat.eqb]; [split; lra|].
  set (p := countIf (fun c => isPass (status c)) cs) in *.
  assert (He : (0 < inject_Z (Z.of_nat (S e)))%Q).
  { change 0%Q with (inject_Z 0). rewrite <- Zlt_Qlt. lia. }
  split.
  - apply Qle_shift_div_l; [exact He|]. rewrite Qmult_0_l.
    change 0%Q with (inject_Z 0). rewrite <- Zle_Qle. lia.
  - apply Qle_shift_div_r; [exact He|]. rewrite Qmult_1_l.
    rewrite <- Zle_Qle. lia.
Qed.

(** The number of hundredths of a rounded score is between 0 and 100. *)
Lemma rounded_score_number (report : QaReport) (k : Z) :
  (100 * specScore (checks report) - (1 # 2) < inject_Z k)%Q ->
  (inject_Z k <= 100 * specScore (checks report) + (1 # 2))%Q ->
  (0 <= k <= 100)%Z.
Proof.
  intros Hlo Hhi. destruct (specScore_range (checks report)) as [H0 H1].
  assert (Ha : (-1 < k)%Z).
  { rewrite Zlt_Qlt. change (inject_Z (-1)) with (-1 # 1)%Q. lra. }
  assert (Hb : (k < 101)%Z).
  { rewrite Zlt_Qlt. change (inject_Z 101) with 101%Q. lra. }
  lia.
Qed.

(** C4, as the code has it.  Every report [validate] returns has as score
    the double [k / 100], where the whole number [k] is the ratio (passed
    checks over checks with status pass, fail or warning, skipped checks
    left out of both) times 100, rounded to the nearest integer with a tie
    going up; hence the score is within 1/200 + 2^-54 of that ratio, and it
    is 0 when no check was evaluated. *)
Theorem C4_score_is_ratio_rounded_to_hundredths generateText params :
  exists report,
    validate generateText params = Ok report /\
    (exists k : Z,
       score report = hundredths k /\
       (100 * specScore (checks report) - (1 # 2) < inject_Z k)%Q /\
       (inject_Z k <= 100 * specScore (checks report) + (1 # 2))%Q) /\
    (Qabs (score report - specScore (checks report)) <=
     (1 # 200) + (1 # 18014398509481984))%Q /\
    (countIf (fun c => isEvaluated (status c)) (checks report) = 0 ->
     (score report == 0)%Q).
Proof.
  rewrite validate_returns. eexists. split; [reflexivity|].
  match goal with |- context [checks ?r] => set (report := r) end.
  assert (HR : RoundedScore report).
  { subst report. destruct (evaluatorReply generateText params);
      [apply parseQaResponse_rounded, effective_set_size
      | apply buildSkippedReport_rounded]. }
  split; [exact HR|].
  destruct HR as (k & Hk & Hlo & Hhi).
  pose proof (rounded_score_number report k Hlo Hhi) as Hrange.
  destruct (hundredths_facts k Hrange) as (_ & _ & _ & Hzero & Hnear).
  rewrite Hk. apply Qabs_Qle_condition in Hnear. split.
  - apply Qabs_Qle_condition. split; lra.
  - intros Hz. rewrite (specScore_zero_denominator _ Hz) in Hlo, Hhi.
    apply Hzero.
    assert (H1 : (-1 < k)%Z).
    { rewrite Zlt_Qlt. change (inject_Z (-1)) with (-1 # 1)%Q. lra. }
    assert (H2 : (k < 1)%Z).
    { rewrite Zlt_Qlt. change (inject_Z 1) with 1%Q. lra. }
    lia.
Qed.

(** *** One check per definition *)

Lemma skipped_report_materializes (fs : FigureStyle) (defs : list QaCheckDefinition) :
  Forall2 (fun def c => Materializes def c /\ status c = skipped)
    defs (checks (buildSkippedReport fs defs)).
Proof.
  simpl. induction defs as [|d defs IH]; simpl; constructor; auto.
  repeat split.
Qed.

Lemma validStatus_none_skips (entries : list json) (def : QaCheckDefinition) :
  (forall st,
     optProp (findEntry entries (def_id def)) "status" = Some (JString st) ->
     st <> "pass" /\ st <> "fail" /\ st <> "warning") ->
  status (checkResult entries def) = skipped.
Proof.
  intros H. unfold checkResult. simpl.
  destruct (optProp (findEntry entries (def_id def)) "status") as [[| | |s| |]|];
    simpl; try reflexivity.
  destruct (H s eq_refl) as (Hp & Hf & Hw).
  apply String.eqb_neq in Hp, Hf, Hw. rewrite Hp, Hf, Hw. reflexivity.
Qed.

Lemma parsed_results_materialize (entries : list json) (defs : list QaCheckDefinition) :
  Forall2
    (fun def c =>
       Materializes def c /\
       ((findEntry entries (def_id def) = None \/
         forall st,
           optProp (findEntry entries (def_id def)) "status" = Some (JString st) ->
           st <> "pass" /\ st <> "fail" /\ st <> "warning") ->
        status c = skipped))
    defs (map (checkResult entries) defs).
Proof.
  induction defs as [|d defs IH]; simpl; constructor; auto.
  split; [repeat split|].
  intros [Hnone|Hbad]; apply validStatus_none_skips.
  - rewrite Hnone. simpl. discriminate.
  - exact Hbad.
Qed.

Lemma checksArray_truthy (parsed : json) (entries : list json) :
  checksArray parsed = Some entries -> truthy parsed = true.
Proof.
  unfold checksArray. destruct parsed; simpl; try discriminate. reflexivity.
Qed.

Lemma reportOfParsed_no_array parsed fs defs :
  checksArray parsed = None ->
  reportOfParsed parsed fs defs = buildSkippedReport fs defs.
Proof.
  unfold reportOfParsed. intros ->. destruct (negb (truthy parsed)); reflexivity.
Qed.

Lemma reportOfParsed_array parsed entries fs defs :
  checksArray parsed = Some entries ->
  reportOfParsed parsed fs defs =
  buildReportFromResults (map (checkResult entries) defs) fs.
Proof.
  unfold reportOfParsed. intros H.
  rewrite (checksArray_truthy _ _ H), H. reflexivity.
Qed.

Lemma reportOfParsed_materializes parsed fs defs :
  Forall2 Materializes defs (checks (reportOfParsed parsed fs defs)).
Proof.
  destruct (checksArray parsed) as [entries|] eqn:H.
  - rewrite (reportOfParsed_array _ _ _ _ H). simpl.
    eapply Forall2_impl; [|apply parsed_results_materialize].
    intros def c [Hm _]. exact Hm.
  - rewrite (reportOfParsed_no_array _ _ _ H).
    eapply Forall2_impl; [|apply skipped_report_materializes].
    intros def c [Hm _]. exact Hm.
Qed.

Lemma hard_fail_of_evaluated (cs : list QaCheck) :
  filter isHardFail (filter (fun c => negb (isSkipped (status c))) cs)
  = filter isHardFail cs.
Proof.
  induction cs as [|c cs IH]; [reflexivity|].
  cbn [filter].
  destruct (status c) eqn:E; cbn [filter negb isSkipped]; rewrite IH;
    try reflexivity.
  rewrite (skipped_not_hard_fail c E). reflexivity.
Qed.

(** C5.  Whatever the evaluator replies, the report [validate] returns has
    exactly one check per definition of the effective check set of the
    style, in the order of the definitions, each with the id, name and
    severity of its definition.  When the reply parses to an object with a
    [checks] array, a definition with no entry of its id in the array, or
    whose entry has a status other than the strings pass, fail and warning,
    gets a skipped check.  Skipped checks do not count in [hardFailCount]:
    it is the number of hard failed checks among the checks that are not
    skipped. *)
Theorem C5_one_check_per_definition generateText params :
  exists report,
    validate generateText params = Ok report /\
    Forall2 Materializes
      (getChecksForStyle (qv_figureStyle params)) (checks report) /\
    List.length (checks report) =
      List.length (getChecksForStyle (qv_figureStyle params)) /\
    (forall text parsed entries,
       evaluatorReply generateText params = Ok text ->
       JSON_parse (trim (stripCodeFences text)) = Some parsed ->
       checksArray parsed = Some entries ->
       Forall2
         (fun def c =>
            (findEntry entries (def_id def) = None \/
             forall st,
               optProp (findEntry entries (def_id def)) "status"
                 = Some (JString st) ->
               st <> "pass" /\ st <> "fail" /\ st <> "warning") ->
            status c = skipped)
         (getChecksForStyle (qv_figureStyle params)) (checks report)) /\
    hardFailCount report =
      countIf isHardFail
        (filter (fun c => negb (isSkipped (status c))) (checks report)).
Proof.
  rewrite validate_returns. eexists. split; [reflexivity|].
  set (fs := qv_figureStyle params). set (defs := getChecksForStyle fs).
  assert (HM : Forall2 Materializes defs
                 (checks (match evaluatorReply generateText params with
                          | Ok data => parseQaResponse data fs defs
                          | Err _ => buildSkippedReport fs defs
                          end))).
  { destruct (evaluatorReply generateText params) as [text|e].
    - unfold parseQaResponse. destruct (JSON_parse _) as [parsed|].
      + apply reportOfParsed_materializes.
      + eapply Forall2_impl; [|apply skipped_report_materializes].
        intros def c [Hm _]. exact Hm.
    - eapply Forall2_impl; [|apply skipped_report_materializes].
      intros def c [Hm _]. exact Hm. }
  split; [exact HM|]. split; [symmetry; eapply Forall2_length; exact HM|]. split.
  - intros text parsed entries Hreply Hparse Harr.
    rewrite Hreply. unfold parseQaResponse. rewrite Hparse.
    rewrite (reportOfParsed_array _ _ _ _ Harr).
    unfold buildReportFromResults. cbn [checks].
    eapply Forall2_impl; [|apply parsed_results_materialize].
    intros def c [_ Hs]. exact Hs.
  - unfold countIf. rewrite hard_fail_of_evaluated.
    destruct (evaluatorReply generateText params) as [text|e].
    + apply parseQaResponse_counts.
    + apply buildSkippedReport_counts.
Qed.

(** C2.  If the evaluator back end fails, or its reply does not parse as
    JSON, or the parsed value has no [checks] array, then [validate] returns
    a success value whose report has one skipped check for every definition
    of the effective check set, [passed] true and [score] 0. *)
Theorem C2_unusable_reply_gives_skipped_report generateText params :
  ((exists e, evaluatorReply generateText params = Err e) \/
   (exists text,
      evaluatorReply generateText params = Ok text /\
      (JSON_parse (trim (stripCodeFences text)) = None \/
       exists parsed,
         JSON_parse (trim (stripCodeFences text)) = Some parsed /\
         checksArray parsed = None))) ->
  exists report,
    validate generateText params = Ok report /\
    Forall2 (fun def c => Materializes def c /\ status c = skipped)
      (getChecksForStyle (qv_figureStyle params)) (checks report) /\
    passed report = true /\
    score report = 0%Q.
Proof.
  intros H. rewrite validate_returns. eexists. split; [reflexivity|].
  assert (E : match evaluatorReply generateText params with
              | Ok data =>
                parseQaResponse data (qv_figureStyle params)
                  (getChecksForStyle (qv_figureStyle params))
              | Err _ =>
                buildSkippedReport (qv_figureStyle params)
                  (getChecksForStyle (qv_figureStyle params))
              end
              = buildSkippedReport (qv_figureStyle params)
                  (getChecksForStyle (qv_figureStyle params))).
  { destruct H as [[e He]|(text & Ht & [Hnone|(parsed & Hp & Harr)])].
    - rewrite He. reflexivity.
    - rewrite Ht. unfold parseQaResponse. rewrite Hnone. reflexivity.
    - rewrite Ht. unfold parseQaResponse. rewrite Hp.
      apply reportOfParsed_no_array. exact Harr. }
  rewrite E. split; [apply skipped_report_materializes|]. split; reflexivity.
Qed.

(** *** Text inside text *)

Lemma append_assoc (a b c : string) : (a ++ b) ++ c = a ++ b ++ c.
Proof. induction a as [|x a IH]; simpl; [reflexivity | rewrite IH; reflexivity]. Qed.

Lemma append_nil_r (a : string) : a ++ "" = a.
Proof. induction a as [|x a IH]; simpl; [reflexivity | rewrite IH; reflexivity]. Qed.

Lemma contains_refl (s : string) : contains s s.
Proof. exists "", "". simpl. rewrite append_nil_r. reflexivity. Qed.


Lemma contains_app_r (s t x : string) : contains t x -> contains (s ++ t) x.
Proof.
  intros (pre & post & ->). exists (s ++ pre), post.
  rewrite append_assoc. reflexivity.
Qed.

Lemma contains_app_l (s t x : string) : contains s x -> contains (s ++ t) x.
Proof.
  intros (pre & post & ->). exists pre, (post ++ t).
  rewrite !append_assoc. reflexivity.
Qed.

Lemma contains_concat (sep : string) (l : list string) (x : string) :
  In x l -> contains (concat sep l) x.
Proof.
  induction l as [|y l IH]; intros Hin; [destruct Hin|].
  destruct Hin as [->|Hin].
  - destruct l as [|z l]; simpl; [apply contains_refl|].
    apply contains_app_l, contains_refl.
  - destruct l as [|z l]; [destruct Hin|].
    change (concat sep (y :: z :: l)) with (y ++ sep ++ concat sep (z :: l)).
    apply contains_app_r, contains_app_r, IH. exact Hin.
Qed.


Lemma buildRetryPatch_some (cs : list QaCheck) :
  filter isHardFail cs <> [] ->
  buildRetryPatch cs =
  nl ++ nl ++ "[CORRECTIONS OBLIGATOIRES - QA REMEDIATION]
The previous generation FAILED quality checks. You MUST address ALL of the following issues:
" ++ concat nl (map remediationLine (filter isHardFail cs)) ++ "

These fixes are MANDATORY for publication-quality scientific figures. Do not omit any of them.".
Proof.
  intros H. unfold buildRetryPatch.
  destruct (filter isHardFail cs); [contradiction|reflexivity].
Qed.

Lemma buildRetryPatch_none (cs : list QaCheck) :
  filter isHardFail cs = [] -> buildRetryPatch cs = "".
Proof. intros H. unfold buildRetryPatch. rewrite H. reflexivity. Qed.



(** *** File names *)

Lemma matchesExtension_eq (c : ascii) (r : string) :
  matchesExtension (String c r) =
  Ascii.eqb c "."%char && negb (r =? "") && allChars extensionChar r.
Proof.
  destruct r as [|d r]; simpl.
  - rewrite andb_false_r. reflexivity.
  - rewrite andb_true_r. reflexivity.
Qed.

Lemma allChars_with_dot (b e : string) :
  allChars extensionChar (b ++ String "."%char e) = false.
Proof.
  induction b as [|c b IH]; simpl.
  - reflexivity.
  - rewrite IH. apply andb_false_r.
Qed.

Lemma removeExtension_of_extension (base ext : string) :
  ext <> "" -> allChars extensionChar ext = true ->
  removeExtension (base ++ "." ++ ext) = base.
Proof.
  intros Hne Hext. change ("." ++ ext) with (String "."%char ext).
  induction base as [|c base IH].
  - change ("" ++ String "."%char ext) with (String "."%char ext).
    cbn [removeExtension]. rewrite matchesExtension_eq, Hext.
    apply String.eqb_neq in Hne. rewrite Hne. reflexivity.
  - change (String c base ++ String "."%char ext)
      with (String c (base ++ String "."%char ext)).
    cbn [removeExtension]. rewrite matchesExtension_eq, allChars_with_dot.
    rewrite andb_false_r, IH. reflexivity.
Qed.

Lemma removeExtension_without_dot (fileName : string) :
  allChars (fun c => negb (Ascii.eqb c "."%char)) fileName = true ->
  removeExtension fileName = fileName.
Proof.
  induction fileName as [|c r IH]; [reflexivity|].
  intros H. cbn [allChars] in H. apply andb_true_iff in H. destruct H as [Hc Hr].
  cbn [removeExtension]. rewrite matchesExtension_eq.
  apply negb_true_iff in Hc. rewrite Hc. simpl. rewrite (IH Hr). reflexivity.
Qed.

Ltac twelve_bytes data H :=
  do 12 (destruct data as [|? data]; [simpl in H; lia|]).

Lemma extension_of_short_buffer (data : list Z) :
  List.length data < 12 -> getExtensionFromImageData data = ".png".
Proof.
  intros H. unfold getExtensionFromImageData.
  apply Nat.ltb_lt in H. rewrite H. reflexivity.
Qed.

Lemma extension_of_png (data : list Z) :
  12 <= List.length data -> startsWithBytes pngSignature data ->
  getExtensionFromImageData data = ".png".
Proof.
  intros H Hsig. twelve_bytes data H.
  unfold startsWithBytes in Hsig. simpl in Hsig.
  injection Hsig as -> -> -> ->. reflexivity.
Qed.

Lemma extension_of_jpeg (data : list Z) :
  12 <= List.length data -> startsWithBytes jpegSignature data ->
  getExtensionFromImageData data = ".jpg".
Proof.
  intros H Hsig. twelve_bytes data H.
  unfold startsWithBytes in Hsig. simpl in Hsig.
  injection Hsig as -> -> ->. reflexivity.
Qed.

Lemma extension_of_gif (data : list Z) :
  12 <= List.length data -> startsWithBytes gifSignature data ->
  getExtensionFromImageData data = ".gif".
Proof.
  intros H Hsig. twelve_bytes data H.
  unfold startsWithBytes in Hsig. simpl in Hsig.
  injection Hsig as -> -> -> ->. reflexivity.
Qed.

Lemma extension_of_webp (data : list Z) :
  12 <= List.length data -> isWebp data ->
  getExtensionFromImageData data = ".webp".
Proof.
  intros H [Hriff Htag]. twelve_bytes data H.
  unfold startsWithBytes in Hriff, Htag. simpl in Hriff, Htag.
  injection Hriff as -> -> -> ->. injection Htag as -> -> -> ->. reflexivity.
Qed.

Ltac bytes_equal H :=
  repeat (apply andb_true_iff in H; let H' := fresh "Hb" in destruct H as [H H']);
  repeat match goal with
         | Hb : (_ =? _)%Z = true |- _ => apply Z.eqb_eq in Hb; subst
         end.

Lemma extension_of_unknown (data : list Z) :
  12 <= List.length data ->
  ~ startsWithBytes jpegSignature data ->
  ~ startsWithBytes gifSignature data ->
  ~ isWebp data ->
  getExtensionFromImageData data = ".png".
Proof.
  intros H Hjpeg Hgif Hwebp. twelve_bytes data H.
  unfold getExtensionFromImageData, byteIs. cbn [nth_error].
  match goal with |- (if ?c then _ else _) = _ => destruct c end; [reflexivity|].
  match goal with |- (if ?c then _ else _) = _ => destruct c end; [reflexivity|].
  match goal with |- (if ?c then _ else _) = _ => destruct c eqn:E end.
  { exfalso. apply Hjpeg. bytes_equal E. reflexivity. }
  clear E.
  match goal with |- (if ?c then _ else _) = _ => destruct c eqn:E end.
  { exfalso. apply Hgif. bytes_equal E. reflexivity. }
  clear E.
  match goal with |- (if ?c then _ else _) = _ => destruct c eqn:E end.
  { exfalso. apply Hwebp. bytes_equal E. split; reflexivity. }
  reflexivity.
Qed.

(** *** The retry loop *)

Section LoopFacts.

Variable params : GenerateImageParams.
Variable request : string -> GeminiApiParams.
Variable structuredPrompt : string.
Variable qaOn : bool.
Variable maxAtt : nat.

Let loop := retryLoop params request structuredPrompt qaOn maxAtt.

Local Abbreviation Post := (LoopPost params request structuredPrompt qaOn).

(** One turn of the loop, with the monad unfolded. *)
Lemma retryLoop_step (remaining attempt : nat) (v : LoopVars) (w : World) :
  loop (S remaining) attempt v w =
  let req := request (currentPrompt v) in
  let w1 := {| server := server w;
               trace := trace w ++ [GenerateImageCall attempt req] |} in
  match generateImage attempt req with
  | Err e => (w1, Err e)
  | Ok g =>
    let v1 := {| currentPrompt := currentPrompt v;
                 qaReport := qaReport v;
                 lastGenerationResult := Some g |} in
    match (if qaOn && qaValidator (server w) then p_figureStyle params else None) with
    | None => (w1, Ok v1)
    | Some style =>
      let qp := {| qv_imageData := imageData g;
                   qv_figureStyle := style;
                   qv_originalPrompt := p_prompt params |} in
      let w2 := {| server := server w;
                   trace := (trace w ++ [GenerateImageCall attempt req]) ++
                            [QaValidateCall attempt qp] |} in
      match qaValidate attempt qp with
      | Returned (Ok data) =>
        let report := {| passed := passed data;
                         score := score data;
                         hardFailCount := hardFailCount data;
                         checks := checks data;
                         attempts := attempt;
                         figureStyle := figureStyle data;
                         evaluationTimeMs := elapsedMs attempt |} in
        let v2 := {| currentPrompt := currentPrompt v;
                     qaReport := Some report;
                     lastGenerationResult := Some g |} in
        if passed data || (attempt =? maxAtt)%nat then (w2, Ok v2)
        else if buildRetryPatch (checks data) =? "" then (w2, Ok v2)
        else loop remaining (S attempt)
               {| currentPrompt := structuredPrompt ++ buildRetryPatch (checks data);
                  qaReport := Some report;
                  lastGenerationResult := Some g |} w2
      | Returned (Err _) => (w2, Ok v1)
      | Thrown _ => (w2, Ok v1)
      end
    end
  end.
Proof.
  unfold loop. cbn [retryLoop].
  unfold bind, emit, orThrow, getServer, ret, throw. cbn [server trace].
  destruct (generateImage attempt (request (currentPrompt v))) as [g|e];
    [|reflexivity].
  cbn [server trace].
  destruct (if qaOn && qaValidator (server w) then p_figureStyle params else None)
    as [style|]; [|reflexivity].
  cbn [server trace].
  destruct (qaValidate attempt _) as [[data|e]|e]; try reflexivity.
  cbn [passed checks].
  destruct (passed data || (attempt =? maxAtt)%nat); [reflexivity|].
  destruct (buildRetryPatch (checks data) =? ""); reflexivity.
Qed.

Ltac in_small :=
  repeat match goal with
         | H : In _ (_ :: _) |- _ => destruct H as [H|H]
         | H : In _ [] |- _ => destruct H
         | H : GenerateImageCall _ _ = GenerateImageCall _ _ |- _ =>
           injection H as ? ?; subst
         | H : QaValidateCall _ _ = QaValidateCall _ _ |- _ =>
           injection H as ? ?; subst
         | H : GenerateImageCall _ _ = QaValidateCall _ _ |- _ => discriminate H
         | H : QaValidateCall _ _ = GenerateImageCall _ _ |- _ => discriminate H
         end.

Lemma attempt_in_range (attempt remaining k : nat) (e : Event) (t : list Event) :
  Forall (fun e => exists k, eventAttempt e = Some k /\
                             attempt <= k < attempt + remaining) t ->
  In e t -> eventAttempt e = Some k -> attempt <= k < attempt + remaining.
Proof.
  intros Hall Hin He. rewrite Forall_forall in Hall.
  destruct (Hall e Hin) as (k' & Hk' & Hr). congruence.
Qed.

Lemma post_generation_failed s remaining attempt v e :
  generateImage attempt (request (currentPrompt v)) = Err e ->
  Post s (S remaining) attempt v
    [GenerateImageCall attempt (request (currentPrompt v))] (Err e).
Proof.
  intros Hgen. unfold LoopPost, countIf. cbn [filter List.length isGenerateCall].
  repeat apply conj.
  - repeat constructor. eexists. split; [reflexivity|lia].
  - lia.
  - intros k req Hin. in_small. left. split; reflexivity.
  - intros k req e' Hin He. in_small. rewrite Hgen in He. injection He as <-.
    split; [reflexivity|]. split.
    + intros qp Hin. in_small.
    + intros k' req' Hin. in_small. lia.
  - intros k qp data Hin. in_small.
  - reflexivity.
  - discriminate.
  - intros _. left. reflexivity.
  - discriminate.
  - intros (k & qp & Hin). in_small.
  - intros (_ & _ & _ & _ & g & Hg). congruence.
Qed.

Lemma post_without_qa s remaining attempt v g v' :
  generateImage attempt (request (currentPrompt v)) = Ok g ->
  (if qaOn && qaValidator s then p_figureStyle params else None) = None ->
  qaReport v' = qaReport v -> lastGenerationResult v' = Some g ->
  Post s (S remaining) attempt v
    [GenerateImageCall attempt (request (currentPrompt v))] (Ok v').
Proof.
  intros Hgen Hq Hrep Hlast. unfold LoopPost, countIf.
  cbn [filter List.length isGenerateCall].
  repeat apply conj.
  - repeat constructor. eexists. split; [reflexivity|lia].
  - lia.
  - intros k req Hin. in_small. left. split; reflexivity.
  - intros k req e' Hin He. in_small. congruence.
  - intros k qp data Hin. in_small.
  - reflexivity.
  - intros _ v'' E. injection E as <-. exact Hrep.
  - intros _. left. reflexivity.
  - intros _ v'' E. injection E as <-. congruence.
  - intros (k & qp & Hin). in_small.
  - intros (_ & Hon & Hval & Hst & _). rewrite Hon, Hval in Hq. simpl in Hq.
    contradiction.
Qed.

Lemma post_qa_stop s remaining attempt v g qp v' :
  generateImage attempt (request (currentPrompt v)) = Ok g ->
  qaOn = true -> qaValidator s = true -> p_figureStyle params <> None ->
  lastGenerationResult v' = Some g ->
  Post s (S remaining) attempt v
    [GenerateImageCall attempt (request (currentPrompt v));
     QaValidateCall attempt qp] (Ok v').
Proof.
  intros Hgen Hon Hval Hst Hlast. unfold LoopPost, countIf.
  cbn [filter List.length isGenerateCall].
  repeat apply conj.
  - repeat constructor; eexists; (split; [reflexivity|lia]).
  - lia.
  - intros k req Hin. in_small. left. split; reflexivity.
  - intros k req e' Hin He. in_small. congruence.
  - intros k qp' data Hin _ _ k' req Hin'. in_small. lia.
  - congruence.
  - congruence.
  - intros _. left. reflexivity.
  - intros _ v'' E. injection E as <-. congruence.
  - intros _. repeat split; try assumption; try lia. exists g. exact Hgen.
  - intros _. exists attempt, qp. right. left. reflexivity.
Qed.

Lemma post_qa_retry s remaining attempt v g qp data v3 t r :
  generateImage attempt (request (currentPrompt v)) = Ok g ->
  qaOn = true -> qaValidator s = true -> p_figureStyle params <> None ->
  qaValidate attempt qp = Returned (Ok data) -> passed data = false ->
  currentPrompt v3 = structuredPrompt ++ buildRetryPatch (checks data) ->
  lastGenerationResult v3 <> None ->
  Post s remaining (S attempt) v3 t r ->
  Post s (S remaining) attempt v
    (GenerateImageCall attempt (request (currentPrompt v)) ::
     QaValidateCall attempt qp :: t) r.
Proof.
  intros Hgen Hon Hval Hst Hqa Hfail Hprompt Hlast3
    (P1 & P2 & P3 & P4 & P5 & P6 & P7 & P8 & P9 & P10).
  unfold LoopPost, countIf in *. cbn [filter List.length isGenerateCall].
  repeat apply conj.
  - constructor; [eexists; split; [reflexivity|lia]|].
    constructor; [eexists; split; [reflexivity|lia]|].
    eapply Forall_impl; [|exact P1].
    intros e (k & Hk & Hr). exists k. split; [exact Hk|lia].
  - lia.
  - intros k req [Hin|[Hin|Hin]]; in_small.
    + left. split; reflexivity.
    + pose proof (attempt_in_range _ _ k _ _ P1 Hin eq_refl) as Hr.
      right. split; [lia|].
      destruct (P3 k req Hin) as [[-> ->]|(Hlt & qp' & data' & Hin' & Hq' & Hp' & ->)].
      * exists qp, data. replace (S attempt - 1) with attempt by lia.
        split; [right; left; reflexivity|]. rewrite Hprompt. auto.
      * exists qp', data'. split; [right; right; exact Hin'|]. auto.
  - intros k req e [Hin|[Hin|Hin]]; in_small; intros He.
    + congruence.
    + pose proof (attempt_in_range _ _ k _ _ P1 Hin eq_refl) as Hr.
      destruct (P4 k req e Hin He) as (-> & Hno & Hlast).
      split; [reflexivity|]. split.
      * intros qp' [Hq|[Hq|Hq]]; in_small; [lia|]. exact (Hno qp' Hq).
      * intros k' req' [Hq|[Hq|Hq]]; in_small; [lia|]. exact (Hlast k' req' Hq).
  - intros k qp' data' [Hin|[Hin|Hin]]; in_small; intros Hq Hp k' req Hin'.
    + congruence.
    + pose proof (attempt_in_range _ _ k _ _ P1 Hin eq_refl) as Hr.
      destruct Hin' as [Hin'|[Hin'|Hin']]; in_small; [lia|].
      exact (P5 k qp' data' Hin Hq Hp k' req Hin').
  - congruence.
  - congruence.
  - intros _. left. reflexivity.
  - intros _ v' E. apply (P9 (or_introl Hlast3) v' E).
  - intros _. repeat split; try assumption; try lia. exists g. exact Hgen.
  - intros _. exists attempt, qp. right. left. reflexivity.
Qed.

Lemma retryLoop_spec (remaining : nat) :
  forall attempt v w,
  exists t r,
    loop remaining attempt v w =
      ({| server := server w; trace := trace w ++ t |}, r) /\
    Post (server w) remaining attempt v t r.
Proof.
  induction remaining as [|remaining IH]; intros attempt v w.
  - exists [], (Ok v). split.
    + unfold loop. cbn [retryLoop]. unfold ret. rewrite app_nil_r.
      destruct w; reflexivity.
    + unfold LoopPost, countIf. cbn [filter List.length].
      repeat apply conj.
      * constructor.
      * lia.
      * intros k req [].
      * intros k req e [].
      * intros k qp data [].
      * intros _ H. lia.
      * intros _ v' E. congruence.
      * intros H. lia.
      * intros [H|H] v' E; [congruence|lia].
      * intros (k & qp & []).
      * intros [H _]. lia.
  - rewrite retryLoop_step. cbv zeta.
    destruct (generateImage attempt (request (currentPrompt v))) as [g|e] eqn:Hgen.
    2: { eexists _, _. split; [reflexivity|].
         apply post_generation_failed. exact Hgen. }
    destruct (if qaOn && qaValidator (server w) then p_figureStyle params else None)
      as [style|] eqn:Hq.
    2: { eexists _, _. split; [reflexivity|].
         eapply post_without_qa; eauto. }
    assert (Hon : qaOn = true /\ qaValidator (server w) = true /\
                  p_figureStyle params <> None).
    { destruct (qaOn && qaValidator (server w)) eqn:Hand; [|discriminate Hq].
      apply andb_true_iff in Hand. destruct Hand as [H1 H2].
      split; [exact H1|]. split; [exact H2|]. rewrite Hq. discriminate. }
    destruct Hon as (Hon & Hval & Hst).
    match goal with
    | |- context [qaValidate attempt ?q] => set (qp := q)
    end.
    destruct (qaValidate attempt qp) as [[data|e]|e] eqn:Hqa.
    2, 3: (eexists _, _; split; [rewrite <- app_assoc; reflexivity|];
           eapply post_qa_stop; eauto).
    destruct (passed data || (attempt =? maxAtt)%nat) eqn:Hstop.
    { eexists _, _. split; [rewrite <- app_assoc; reflexivity|].
      eapply post_qa_stop; eauto. }
    destruct (buildRetryPatch (checks data) =? "") eqn:Hpatch.
    { eexists _, _. split; [rewrite <- app_assoc; reflexivity|].
      eapply post_qa_stop; eauto. }
    match goal with
    | |- context [loop remaining (S attempt) ?v3 ?w2] =>
      destruct (IH (S attempt) v3 w2) as (t & r & Hrun & Hpost)
    end.
    exists (GenerateImageCall attempt (request (currentPrompt v)) ::
            QaValidateCall attempt qp :: t), r.
    split.
    + rewrite Hrun. cbn [server trace]. rewrite <- !app_assoc. reflexivity.
    + apply orb_false_iff in Hstop. destruct Hstop as [Hfail _].
      eapply post_qa_retry; eauto; [reflexivity | discriminate].
Qed.

End LoopFacts.

(** *** From the loop to the response *)

Lemma maxAttempts_positive params config s : 1 <= maxAttempts params config s.
Proof. unfold maxAttempts. destruct (qaEnabled params config s); lia. Qed.

(** A run of [orchestrate] on a server [s]: the calls [t] of the loop, then
    at most one save. *)
Lemma orchestrate_run params config img mime sp s :
  exists t r tail,
    LoopPost params (generationRequest params img mime) sp
      (qaEnabled params config s) s (maxAttempts params config s) 1
      {| currentPrompt := sp; qaReport := None; lastGenerationResult := None |}
      t r /\
    trace (fst (orchestrate params config img mime sp (startWorld s)))
      = (t ++ tail)%list /\
    Forall (fun e => isSaveCall e = true) tail /\
    (forall e, r = Err e ->
       tail = [] /\
       snd (orchestrate params config img mime sp (startWorld s)) = Err e) /\
    (forall v resp,
       r = Ok v ->
       snd (orchestrate params config img mime sp (startWorld s)) = Ok resp ->
       resp_qa resp = qaReport v /\
       lastGenerationResult v = Some (resp_generation resp)) /\
    (forall d path,
       In (SaveImageCall d path) tail ->
       exists v last,
         r = Ok v /\ lastGenerationResult v = Some last /\ d = imageData last /\
         sanitizeFilePath
           (path_join (imageOutputDir config) (outputFileName params d)) = Ok path).
Proof.
  destruct (retryLoop_spec params (generationRequest params img mime) sp
              (qaEnabled params config s) (maxAttempts params config s)
              (maxAttempts params config s) 1
              {| currentPrompt := sp; qaReport := None;
                 lastGenerationResult := None |} (startWorld s))
    as (t & r & Hrun & Hpost).
  cbn [startWorld server trace app] in Hrun, Hpost.
  unfold orchestrate, bind, getServer. cbn [startWorld server trace].
  rewrite Hrun. exists t, r.
  destruct r as [v|e].
  2: { exists []. rewrite app_nil_r.
       split; [exact Hpost|]. split; [reflexivity|]. split; [constructor|].
       split; [|split].
       - intros e' E. injection E as <-. split; reflexivity.
       - discriminate.
       - intros d path []. }
  destruct (lastGenerationResult v) as [last|] eqn:Hlast.
  2: { exfalso.
       destruct Hpost as (_ & _ & _ & _ & _ & _ & _ & _ & P9 & _).
       apply (P9 (or_intror (maxAttempts_positive params config s)) v eq_refl).
       exact Hlast. }
  unfold orThrow, emit, throw, ret. cbn [server trace].
  destruct (sanitizeFilePath _) as [path|e] eqn:Hpath.
  2: { exists []. rewrite app_nil_r.
       split; [exact Hpost|]. split; [reflexivity|]. split; [constructor|].
       split; [|split].
       - discriminate.
       - intros v' resp _ E. discriminate E.
       - intros d path []. }
  cbn [server trace].
  exists [SaveImageCall (imageData last) path].
  split; [exact Hpost|].
  assert (Hsaved : forall d p,
            In (SaveImageCall d p) [SaveImageCall (imageData last) path] ->
            exists v0 last0,
              @Ok LoopVars AppError v = Ok v0 /\
              lastGenerationResult v0 = Some last0 /\
              d = imageData last0 /\
              sanitizeFilePath
                (path_join (imageOutputDir config) (outputFileName params d))
              = Ok p).
  { intros d p [Hin|[]]. injection Hin as <- <-. exists v, last. auto. }
  destruct (saveImage (imageData last) path) as [saved|e] eqn:Hsave;
    cbn [fst snd server trace].
  - split; [reflexivity|]. split; [repeat constructor|].
    split; [discriminate|]. split; [|exact Hsaved].
    intros v' resp E E'. injection E as <-. injection E' as <-.
    split; [reflexivity|exact Hlast].
  - split; [reflexivity|]. split; [repeat constructor|].
    split; [discriminate|]. split; [|exact Hsaved].
    intros v' resp _ E. discriminate E.
Qed.

(** *** Before the loop: no call leaves the process *)

Ltac split_cases :=
  repeat match goal with
         | |- context [if ?c then _ else _] => destruct c
         | |- context [match ?r with Ok _ => _ | Err _ => _ end] => destruct r
         end.

Lemma initializeClients_trace (w : World) :
  trace (fst (initializeClients w)) = trace w.
Proof.
  unfold initializeClients, bind, getServer, setServer, orThrow, ret, throw.
  cbn [server trace fst snd].
  destruct (structuredPromptGenerator (server w) && geminiClient (server w));
    [reflexivity|].
  destruct getConfig as [config|e]; [|reflexivity].
  destruct (negb (geminiTextClient (server w)));
    [destruct (createGeminiTextClient config None); [|reflexivity]|];
    cbn [server trace fst snd];
    destruct (negb (structuredPromptGenerator (server w)));
    cbn [server trace fst snd];
    (destruct (negb (geminiClient (server w)));
     [destruct (createGeminiClient config); [|reflexivity]|]);
    cbn [server trace fst snd];
    destruct (negb (qaValidator (server w)) && enableScientificQa config);
    try reflexivity;
    destruct (createGeminiTextClient config (Some (scientificQaModel config)));
    reflexivity.
Qed.

Lemma initializeQaOnDemand_run params config (w : World) :
  exists s', initializeQaOnDemand params config w
             = ({| server := s'; trace := trace w |}, Ok tt).
Proof.
  destruct w as [s t].
  unfold initializeQaOnDemand, bind, getServer, setServer, ret.
  cbn [server trace].
  destruct (_ && _ && _).
  - destruct (createGeminiTextClient config (Some (scientificQaModel config)));
      eexists; reflexivity.
  - eexists. reflexivity.
Qed.

(** Every error of the handler is an [Error], so the wrapper hands the
    outcome of the operation over as it is. *)
Lemma wrapWithResultType_run {A : Type} (operation : M A) (w : World) :
  wrapWithResultType operation w = operation w.
Proof.
  unfold wrapWithResultType. destruct (operation w) as [w' [result|error]];
    [reflexivity|].
  destruct error; reflexivity.
Qed.

(** A request either stops before the loop, with no call made, or goes
    through [orchestrate]. *)
Lemma handleGenerateImage_run params s :
  (exists e,
     snd (handleGenerateImage params (startWorld s)) = Err e /\
     trace (fst (handleGenerateImage params (startWorld s))) = []) \/
  (exists config img mime s0 s1,
     handleGenerateImage params (startWorld s) =
     orchestrate params config img mime
       (structuredPromptFor params config img s0) (startWorld s1)).
Proof.
  pose proof (initializeClients_trace (startWorld s)) as Hinit.
  unfold handleGenerateImage. rewrite wrapWithResultType_run.
  unfold bind, orThrow, ret, throw, getServer.
  destruct (validateGenerateImageParams params) as [ok|e]; cbv beta iota;
    [|left; exists e; split; reflexivity].
  destruct getConfig as [config|e]; cbv beta iota;
    [|left; exists e; split; reflexivity].
  destruct (initializeClients (startWorld s)) as [w1 [u|e]];
    cbn [fst trace startWorld] in Hinit; cbv beta iota;
    [|left; exists e; split; [reflexivity|exact Hinit]].
  destruct (readInputImage params) as [[img mime]|e]; cbv beta iota;
    [|left; exists e; split; [reflexivity|exact Hinit]].
  destruct (geminiClient (server w1)); cbv beta iota;
    [|left; eexists; split; [reflexivity|exact Hinit]].
  destruct (initializeQaOnDemand_run params config w1) as [s1 Hs1].
  rewrite Hs1. cbv beta iota. rewrite Hinit.
  right. exists config, img, mime, (server w1), s1. reflexivity.
Qed.

(** *** Calls of a trace *)

Lemma generate_call_of_loop (t tail : list Event) k req :
  Forall (fun e => isSaveCall e = true) tail ->
  In (GenerateImageCall k req) (t ++ tail) -> In (GenerateImageCall k req) t.
Proof.
  intros Htail Hin. apply in_app_or in Hin. destruct Hin as [Hin|Hin]; [exact Hin|].
  rewrite Forall_forall in Htail. apply Htail in Hin. discriminate Hin.
Qed.

Lemma validate_call_of_loop (t tail : list Event) k qp :
  Forall (fun e => isSaveCall e = true) tail ->
  In (QaValidateCall k qp) (t ++ tail) -> In (QaValidateCall k qp) t.
Proof.
  intros Htail Hin. apply in_app_or in Hin. destruct Hin as [Hin|Hin]; [exact Hin|].
  rewrite Forall_forall in Htail. apply Htail in Hin. discriminate Hin.
Qed.

Lemma count_app {A} (p : A -> bool) (l1 l2 : list A) :
  countIf p (l1 ++ l2) = countIf p l1 + countIf p l2.
Proof. unfold countIf. rewrite filter_app, length_app. reflexivity. Qed.

Lemma count_saves_only (p : Event -> bool) (tail : list Event) :
  (forall e, isSaveCall e = true -> p e = false) ->
  Forall (fun e => isSaveCall e = true) tail -> countIf p tail = 0.
Proof.
  intros Hp Htail. unfold countIf. rewrite filter_none; [reflexivity|].
  eapply Forall_impl; [|exact Htail]. exact Hp.
Qed.

Lemma save_is_not_generate e : isSaveCall e = true -> isGenerateCall e = false.
Proof. destruct e; simpl; congruence. Qed.

Lemma save_is_not_validate e : isSaveCall e = true -> isValidateCall e = false.
Proof. destruct e; simpl; congruence. Qed.

Lemma g_prompt_of_request params img mime prompt :
  g_prompt (generationRequest params img mime prompt) = prompt.
Proof. reflexivity. Qed.

Lemma maxAttempts_bound params config s :
  maxAttempts params config s <= scientificQaMaxRetries config + 1.
Proof. unfold maxAttempts. destruct (qaEnabled params config s); lia. Qed.

(** C3.  On a server [s], [orchestrate] with QA not active makes exactly
    one image-generation call and no QA evaluation, and a successful
    response carries no QA report.  With [N] configured retries it makes, in
    every case and so with QA active, at most [N + 1] generation calls,
    numbered from 1 to at most [N + 1], and none after an attempt whose
    report has passed. *)
Theorem C3_generation_call_budget params config img mime sp s :
  let out := orchestrate params config img mime sp (startWorld s) in
  (qaEnabled params config s = false ->
   countIf isGenerateCall (trace (fst out)) = 1 /\
   countIf isValidateCall (trace (fst out)) = 0 /\
   forall resp, snd out = Ok resp -> resp_qa resp = None) /\
  countIf isGenerateCall (trace (fst out)) <= scientificQaMaxRetries config + 1 /\
  (forall k req,
     In (GenerateImageCall k req) (trace (fst out)) ->
     1 <= k <= scientificQaMaxRetries config + 1) /\
  (forall k qp report,
     In (QaValidateCall k qp) (trace (fst out)) ->
     qaValidate k qp = Returned (Ok report) -> passed report = true ->
     forall k' req, In (GenerateImageCall k' req) (trace (fst out)) -> k' <= k).
Proof.
  cbv zeta.
  destruct (orchestrate_run params config img mime sp s)
    as (t & r & tail & Hpost & Htrace & Htail & Herr & Hok & _).
  destruct Hpost as (P1 & P2 & P3 & P4 & P5 & P6 & P7 & P8 & P9 & P10 & P11).
  pose proof (maxAttempts_bound params config s) as Hmax.
  rewrite Htrace. split; [|split; [|split]].
  - intros Hoff.
    rewrite !count_app.
    rewrite (count_saves_only _ _ save_is_not_generate Htail).
    rewrite (count_saves_only _ _ save_is_not_validate Htail).
    rewrite (P6 Hoff (maxAttempts_positive params config s)).
    split; [reflexivity|]. split; [reflexivity|].
    intros resp Hresp. destruct r as [v|e].
    + destruct (Hok v resp eq_refl Hresp) as [-> _]. apply (P7 Hoff v eq_refl).
    + destruct (Herr e eq_refl) as [_ He]. congruence.
  - rewrite count_app, (count_saves_only _ _ save_is_not_generate Htail). lia.
  - intros k req Hin. apply generate_call_of_loop in Hin; [|exact Htail].
    pose proof (attempt_in_range _ _ k _ _ P1 Hin eq_refl). lia.
  - intros k qp report Hin Hqa Hpass k' req Hin'.
    apply validate_call_of_loop in Hin; [|exact Htail].
    apply generate_call_of_loop in Hin'; [|exact Htail].
    exact (P5 k qp report Hin Hqa Hpass k' req Hin').
Qed.

(** C7.  Every generation call of [orchestrate] after the first carries, as
    its prompt, the structured prompt followed by the retry patch built from
    the checks of the report of the attempt just before it, and nothing
    else; the first call carries the structured prompt. *)
Theorem C7_retry_prompt_from_original params config img mime sp s k req :
  In (GenerateImageCall k req)
     (trace (fst (orchestrate params config img mime sp (startWorld s)))) ->
  (k = 1 /\ g_prompt req = sp) \/
  (1 < k /\
   exists qp report,
     In (QaValidateCall (k - 1) qp)
        (trace (fst (orchestrate params config img mime sp (startWorld s)))) /\
     qaValidate (k - 1) qp = Returned (Ok report) /\
     g_prompt req = sp ++ buildRetryPatch (checks report)).
Proof.
  destruct (orchestrate_run params config img mime sp s)
    as (t & r & tail & Hpost & Htrace & Htail & _).
  destruct Hpost as (_ & _ & P3 & _).
  rewrite Htrace. intros Hin.
  apply generate_call_of_loop in Hin; [|exact Htail].
  destruct (P3 k req Hin) as [[-> ->]|(Hlt & qp & data & Hin' & Hqa & _ & ->)].
  - left. split; reflexivity.
  - right. split; [exact Hlt|]. exists qp, data.
    split; [apply in_or_app; left; exact Hin'|]. split; [exact Hqa|reflexivity].
Qed.

(** C8.  If a generation call of a request returns a failure, the request
    ends with that very error; the QA evaluator is not called on that
    attempt, no later generation call is made, and nothing is saved, not even
    the image of an earlier attempt. *)
Theorem C8_generation_failure_aborts params s k req e :
  In (GenerateImageCall k req)
     (trace (fst (handleGenerateImage params (startWorld s)))) ->
  generateImage k req = Err e ->
  snd (handleGenerateImage params (startWorld s)) = Err e /\
  (forall qp,
     ~ In (QaValidateCall k qp)
          (trace (fst (handleGenerateImage params (startWorld s))))) /\
  (forall k' req',
     In (GenerateImageCall k' req')
        (trace (fst (handleGenerateImage params (startWorld s)))) -> k' <= k) /\
  (forall d path,
     ~ In (SaveImageCall d path)
          (trace (fst (handleGenerateImage params (startWorld s))))).
Proof.
  destruct (handleGenerateImage_run params s)
    as [(e0 & _ & Hnil)|(config & img & mime & s0 & s1 & ->)].
  { rewrite Hnil. intros []. }
  destruct (orchestrate_run params config img mime
              (structuredPromptFor params config img s0) s1)
    as (t & r & tail & Hpost & Htrace & Htail & Herr & _ & _).
  destruct Hpost as (P1 & _ & _ & P4 & _).
  rewrite Htrace. intros Hin Hfail.
  apply generate_call_of_loop in Hin; [|exact Htail].
  destruct (P4 k req e Hin Hfail) as (-> & Hno & Hlast).
  destruct (Herr e eq_refl) as [-> Hout]. rewrite app_nil_r.
  split; [exact Hout|]. split; [exact Hno|]. split; [exact Hlast|].
  intros d path Hsave.
  pose proof (attempt_in_range _ _ 0 _ _ P1 Hsave) as Hr.
  rewrite Forall_forall in P1. destruct (P1 _ Hsave) as (k0 & Hk0 & _).
  discriminate Hk0.
Qed.


Lemma saved_under_output_name params config img mime sp s d path :
  In (SaveImageCall d path)
     (trace (fst (orchestrate params config img mime sp (startWorld s)))) ->
  sanitizeFilePath (path_join (imageOutputDir config) (outputFileName params d))
  = Ok path.
Proof.
  destruct (orchestrate_run params config img mime sp s)
    as (t & r & tail & Hpost & Htrace & _ & _ & _ & Hsave).
  destruct Hpost as (P1 & _).
  rewrite Htrace. intros Hin. apply in_app_or in Hin. destruct Hin as [Hin|Hin].
  - rewrite Forall_forall in P1. destruct (P1 _ Hin) as (k & Hk & _).
    discriminate Hk.
  - destruct (Hsave d path Hin) as (v & last & _ & _ & _ & Hpath). exact Hpath.
Qed.

(** C10.  When the caller supplies a file name, the name the artifact is
    saved under is that name without its extension (a final dot followed by
    one or more characters other than a dot and a slash) followed by the
    extension read from the image bytes; so it ends with the detected
    extension, and a caller's extension is replaced by it.  Every save of
    [orchestrate] goes to the checked path of that name in the output
    directory.  The detected extension depends on the bytes only: .png for a
    buffer shorter than 12 bytes; for a longer one .png, .jpg, .gif or .webp
    for the PNG, JPEG, GIF or RIFF/WEBP signature, and .png when it has none
    of them. *)
Theorem C10_saved_extension_from_magic_bytes
  (params : GenerateImageParams) (fileName : string) (data : list Z) :
  p_fileName params = Some fileName -> fileName <> "" ->
  outputFileName params data =
    removeExtension fileName ++ getExtensionFromImageData data /\
  (forall config img mime sp s d path,
     In (SaveImageCall d path)
        (trace (fst (orchestrate params config img mime sp (startWorld s)))) ->
     sanitizeFilePath
       (path_join (imageOutputDir config)
          (removeExtension fileName ++ getExtensionFromImageData d))
     = Ok path) /\
  ends_with (outputFileName params data) (getExtensionFromImageData data) /\
  (forall base ext,
     fileName = base ++ "." ++ ext ->
     ext <> "" -> allChars extensionChar ext = true ->
     outputFileName params data = base ++ getExtensionFromImageData data) /\
  (List.length data < 12 -> getExtensionFromImageData data = ".png") /\
  (12 <= List.length data ->
   (startsWithBytes pngSignature data ->
    getExtensionFromImageData data = ".png") /\
   (startsWithBytes jpegSignature data ->
    getExtensionFromImageData data = ".jpg") /\
   (startsWithBytes gifSignature data ->
    getExtensionFromImageData data = ".gif") /\
   (isWebp data -> getExtensionFromImageData data = ".webp") /\
   (~ startsWithBytes pngSignature data ->
    ~ startsWithBytes jpegSignature data ->
    ~ startsWithBytes gifSignature data ->
    ~ isWebp data ->
    getExtensionFromImageData data = ".png")).
Proof.
  intros Hname Hne.
  assert (Hout : outputFileName params data =
                 removeExtension fileName ++ getExtensionFromImageData data).
  { unfold outputFileName, truthyString. rewrite Hname.
    apply String.eqb_neq in Hne. rewrite Hne. reflexivity. }
  split; [exact Hout|]. split; [|split; [|split; [|split]]].
  - intros config img mime sp s d path Hin.
    rewrite <- (saved_under_output_name _ _ _ _ _ _ _ _ Hin).
    unfold outputFileName, truthyString. rewrite Hname.
    apply String.eqb_neq in Hne. rewrite Hne. reflexivity.
  - rewrite Hout. exists (removeExtension fileName). reflexivity.
  - intros base ext -> Hext Hchars. rewrite Hout.
    rewrite (removeExtension_of_extension base ext Hext Hchars). reflexivity.
  - apply extension_of_short_buffer.
  - intros Hlen. repeat split.
    + apply extension_of_png; assumption.
    + apply extension_of_jpeg; assumption.
    + apply extension_of_gif; assumption.
    + apply extension_of_webp; assumption.
    + intros _. apply extension_of_unknown; assumption.
Qed.



(** ** More on the reports of the evaluator *)

(** The report [validate] returns, with what both builders guarantee. *)
Lemma validate_report_facts generateText params :
  exists report,
    validate generateText params = Ok report /\
    CountsAgree report /\ RoundedScore report /\
    Forall2 Materializes (getChecksForStyle (qv_figureStyle params)) (checks report).
Proof.
  rewrite validate_returns. eexists. split; [reflexivity|].
  destruct (evaluatorReply generateText params) as [text|e].
  - split; [apply parseQaResponse_counts|].
    split; [apply parseQaResponse_rounded, effective_set_size|].
    unfold parseQaResponse. destruct (JSON_parse _) as [parsed|].
    + apply reportOfParsed_materializes.
    + eapply Forall2_impl; [|apply skipped_report_materializes].
      intros def c [Hm _]. exact Hm.
  - split; [apply buildSkippedReport_counts|].
    split; [apply buildSkippedReport_rounded|].
    eapply Forall2_impl; [|apply skipped_report_materializes].
    intros def c [Hm _]. exact Hm.
Qed.

(** The integer [k] of a rounded score, between whole numbers: with [p]
    passes among [e > 0] evaluated checks, [200 p - e < 2 e k <= 200 p + e]. *)
Lemma rounded_score_integer (cs : list QaCheck) (k : Z) :
  let p := Z.of_nat (countIf (fun c => isPass (status c)) cs) in
  let e := Z.of_nat (countIf (fun c => isEvaluated (status c)) cs) in
  (0 < e)%Z ->
  (100 * specScore cs - (1 # 2) < inject_Z k)%Q ->
  (inject_Z k <= 100 * specScore cs + (1 # 2))%Q ->
  (200 * p - e < 2 * e * k <= 200 * p + e)%Z.
Proof.
  intros p e He0 Hlo Hhi. unfold specScore in Hlo, Hhi. fold p e in Hlo, Hhi.
  destruct (countIf (fun c => isEvaluated (status c)) cs) as [|n] eqn:He;
    [subst e; simpl in He0; lia|].
  simpl (S n =? 0)%nat in Hlo, Hhi. cbv iota in Hlo, Hhi.
  assert (Hepos : (0 < inject_Z e)%Q).
  { change 0%Q with (inject_Z 0). rewrite <- Zlt_Qlt. exact He0. }
  set (x := (inject_Z p / inject_Z e)%Q) in *.
  assert (Hx : (x * inject_Z e == inject_Z p)%Q).
  { subst x. rewrite Qmult_comm. apply Qmult_div_r. intros H0.
    apply (Qlt_not_eq _ _ Hepos). symmetry. exact H0. }
  assert (H1 : (200 * p < 2 * e * k + e)%Z).
  { rewrite Zlt_Qlt. rewrite inject_Z_plus, !inject_Z_mult.
    change (inject_Z 200) with 200%Q. change (inject_Z 2) with 2%Q.
    nra. }
  assert (H2 : (2 * e * k <= 200 * p + e)%Z).
  { rewrite Zle_Qle. rewrite inject_Z_plus, !inject_Z_mult.
    change (inject_Z 200) with 200%Q. change (inject_Z 2) with 2%Q.
    nra. }
  lia.
Qed.

(** The number of hundredths of a score, in integers: 0 when nothing was
    evaluated. *)
Lemma rounded_score_cases (report : QaReport) :
  RoundedScore report ->
  let p := Z.of_nat (countIf (fun c => isPass (status c)) (checks report)) in
  let e := Z.of_nat (countIf (fun c => isEvaluated (status c)) (checks report)) in
  exists k : Z,
    score report = hundredths k /\ (0 <= k <= 100)%Z /\
    ((e = 0 /\ k = 0) \/ (0 < e /\ 200 * p - e < 2 * e * k <= 200 * p + e))%Z.
Proof.
  intros (k & Hk & Hlo & Hhi) p e. exists k. split; [exact Hk|].
  split; [exact (rounded_score_number report k Hlo Hhi)|].
  destruct (Z.eq_dec e 0) as [He|He].
  - left. split; [exact He|].
    assert (Hz : specScore (checks report) = 0%Q).
    { apply specScore_zero_denominator. subst e. lia. }
    rewrite Hz in Hlo, Hhi.
    assert (H1 : (-1 < k)%Z).
    { rewrite Zlt_Qlt. change (inject_Z (-1)) with (-1 # 1)%Q. lra. }
    assert (H2 : (k < 1)%Z).
    { rewrite Zlt_Qlt. change (inject_Z 1) with 1%Q. lra. }
    lia.
  - right. assert (He0 : (0 < e)%Z) by (subst e; lia).
    split; [exact He0|].
    exact (rounded_score_integer (checks report) k He0 Hlo Hhi).
Qed.

(** X1.  The score of every report [validate] returns lies between 0 and
    1. *)
Theorem validate_score_between_0_and_1 generateText params :
  exists report,
    validate generateText params = Ok report /\
    (0 <= score report)%Q /\ (score report <= 1)%Q.
Proof.
  destruct (validate_report_facts generateText params)
    as (report & Hv & _ & HR & _).
  exists report. split; [exact Hv|].
  destruct (rounded_score_cases report HR) as (k & Hk & Hrange & _).
  destruct (hundredths_facts k Hrange) as (H0 & H1 & _).
  rewrite Hk. split; assumption.
Qed.

(** X2.  Rounding hides nothing at the ends of the scale: the score of a
    report [validate] returns is 1 exactly when at least one check was
    evaluated and every evaluated check passed, and it is 0 exactly when no
    check passed. *)
Theorem validate_score_extremes generateText params :
  exists report,
    validate generateText params = Ok report /\
    ((score report == 1)%Q <->
     0 < countIf (fun c => isEvaluated (status c)) (checks report) /\
     countIf (fun c => isPass (status c)) (checks report) =
     countIf (fun c => isEvaluated (status c)) (checks report)) /\
    ((score report == 0)%Q <->
     countIf (fun c => isPass (status c)) (checks report) = 0).
Proof.
  destruct (validate_report_facts generateText params)
    as (report & Hv & _ & HR & HM).
  exists report. split; [exact Hv|].
  pose proof (count_pass_le_evaluated (checks report)) as Hle.
  assert (Hsmall : countIf (fun c => isEvaluated (status c)) (checks report) < 200).
  { pose proof (count_le_length (fun c => isEvaluated (status c)) (checks report)).
    pose proof (Forall2_length HM) as Hlen.
    pose proof (effective_set_size (qv_figureStyle params)). lia. }
  destruct (rounded_score_cases report HR) as (k & Hk & Hrange & Hcases).
  destruct (hundredths_facts k Hrange) as (_ & _ & Hone & Hzero & _).
  rewrite Hk, Hone, Hzero. split.
  - destruct Hcases as [[He ->]|[He Hb]]; split; intros H; try lia; nia.
  - destruct Hcases as [[He ->]|[He Hb]]; split; intros H; try lia; nia.
Qed.

Lemma buildRetryPatch_empty_iff (cs : list QaCheck) :
  buildRetryPatch cs = "" <-> countIf isHardFail cs = 0.
Proof.
  unfold countIf. rewrite length_zero_iff_nil. split.
  - intros Hempty. destruct (filter isHardFail cs) as [|c l] eqn:Hf; [reflexivity|].
    rewrite buildRetryPatch_some in Hempty; [discriminate Hempty|].
    rewrite Hf. discriminate.
  - apply buildRetryPatch_none.
Qed.

(** X3.  For every report [validate] returns, the retry patch built from its
    checks is empty exactly when the report has passed: a report that has
    not passed always yields a patch. *)
Theorem retry_patch_empty_iff_passed generateText params :
  exists report,
    validate generateText params = Ok report /\
    (buildRetryPatch (checks report) = "" <-> passed report = true).
Proof.
  destruct (validate_report_facts generateText params)
    as (report & Hv & [Hc Hp] & _).
  exists report. split; [exact Hv|].
  rewrite Hp, Hc, buildRetryPatch_empty_iff, Nat.eqb_eq. reflexivity.
Qed.

Lemma findEntry_first (before after : list json) (entry : json) (checkId : string) :
  (forall b, In b before -> getProp b "id" <> Some (JString checkId)) ->
  getProp entry "id" = Some (JString checkId) ->
  findEntry (before ++ entry :: after)%list checkId = Some entry.
Proof.
  intros Hbefore Hentry. unfold findEntry.
  induction before as [|b before IH]; simpl.
  - rewrite Hentry, String.eqb_refl. reflexivity.
  - assert (Hb : getProp b "id" <> Some (JString checkId))
      by (apply Hbefore; left; reflexivity).
    destruct (getProp b "id") as [[| | |s| |]|] eqn:E;
      try (apply IH; intros b' Hin; apply Hbefore; right; exact Hin).
    destruct (s =? checkId) eqn:Es.
    + apply String.eqb_eq in Es. subst s. contradiction.
    + apply IH. intros b' Hin. apply Hbefore. right. exact Hin.
Qed.

(** X4.  When the reply parses to an object whose [checks] array holds, as
    the first entry with a definition's id, an entry whose status is pass,
    fail or warning, the report has for that definition a check with this
    status, and with the entry's detail when that is a string (no detail
    otherwise); later entries with the same id are not looked at. *)
Theorem first_valid_entry_decides generateText params text parsed
  (before after : list json) (entry : json) (def : QaCheckDefinition)
  (st : QaCheckStatus) :
  evaluatorReply generateText params = Ok text ->
  JSON_parse (trim (stripCodeFences text)) = Some parsed ->
  checksArray parsed = Some (before ++ entry :: after)%list ->
  (forall b, In b before -> getProp b "id" <> Some (JString (def_id def))) ->
  getProp entry "id" = Some (JString (def_id def)) ->
  validStatus (getProp entry "status") = Some st ->
  In def (getChecksForStyle (qv_figureStyle params)) ->
  exists report c,
    validate generateText params = Ok report /\
    In c (checks report) /\
    id c = def_id def /\ name c = def_name def /\ severity c = def_severity def /\
    status c = st /\
    detail c = match getProp entry "detail" with
               | Some (JString d) => Some d
               | _ => None
               end.
Proof.
  intros Hreply Hparse Harr Hbefore Hid Hst Hdef.
  rewrite validate_returns, Hreply. unfold parseQaResponse. rewrite Hparse.
  rewrite (reportOfParsed_array _ _ _ _ Harr).
  eexists. exists (checkResult (before ++ entry :: after)%list def).
  split; [reflexivity|]. split.
  - unfold buildReportFromResults. cbn [checks]. apply in_map. exact Hdef.
  - unfold checkResult. cbn [id name severity status detail].
    rewrite (findEntry_first before after entry (def_id def) Hbefore Hid).
    cbn [optProp]. rewrite Hst. repeat split.
Qed.

Lemma findEntry_skips (before after : list json) (entry : json) (checkId : string) :
  getProp entry "id" <> Some (JString checkId) ->
  findEntry (before ++ entry :: after)%list checkId =
  findEntry (before ++ after)%list checkId.
Proof.
  intros Hentry. unfold findEntry.
  induction before as [|b before IH]; cbn [app find].
  - destruct (getProp entry "id") as [[| | |s| |]|] eqn:E; try reflexivity.
    destruct (s =? checkId) eqn:Es; [|reflexivity].
    apply String.eqb_eq in Es. subst s. contradiction.
  - rewrite IH. reflexivity.
Qed.

(** X22.  An entry of the reply whose id is not the id of a check of the
    effective set changes nothing: the report is the same as without it. *)
Theorem unknown_entry_is_ignored (parsed parsed' : json)
  (before after : list json) (entry : json)
  (figureStyle : FigureStyle) (checkDefinitions : list QaCheckDefinition) :
  truthy parsed = true -> truthy parsed' = true ->
  checksArray parsed = Some (before ++ entry :: after)%list ->
  checksArray parsed' = Some (before ++ after)%list ->
  (forall def, In def checkDefinitions ->
     getProp entry "id" <> Some (JString (def_id def))) ->
  reportOfParsed parsed figureStyle checkDefinitions =
  reportOfParsed parsed' figureStyle checkDefinitions.
Proof.
  intros Ht Ht' Harr Harr' Hid. unfold reportOfParsed.
  rewrite Ht, Ht', Harr, Harr'. cbn [negb]. f_equal.
  apply map_ext_in. intros def Hdef. unfold checkResult.
  rewrite (findEntry_skips before after entry (def_id def) (Hid def Hdef)).
  reflexivity.
Qed.

Lemma all_evaluated_pass (cs : list QaCheck) :
  countIf (fun c => isPass (status c)) cs =
  countIf (fun c => isEvaluated (status c)) cs ->
  Forall (fun c => status c = pass \/ status c = skipped) cs.
Proof.
  induction cs as [|c cs IH]; intros H; [constructor|].
  pose proof (count_pass_le_evaluated cs) as Hle.
  unfold countIf in *. cbn [filter] in H.
  destruct (status c) eqn:Hs; cbn [isPass isEvaluated List.length] in H.
  - constructor; [left; exact Hs | apply IH; lia].
  - lia.
  - lia.
  - constructor; [right; exact Hs | apply IH; lia].
Qed.

(** X23.  A report of [validate] with score 1 has passed, and none of its
    checks has failed or is a warning. *)
Theorem full_score_report_passed generateText params :
  exists report,
    validate generateText params = Ok report /\
    ((score report == 1)%Q ->
     passed report = true /\
     Forall (fun c => status c = pass \/ status c = skipped) (checks report)).
Proof.
  destruct (validate_report_facts generateText params)
    as (report & Hv & [Hc Hp] & HR & HM).
  exists report. split; [exact Hv|]. intros Hone.
  pose proof (count_pass_le_evaluated (checks report)) as Hle.
  assert (Hsmall : countIf (fun c => isEvaluated (status c)) (checks report) < 200).
  { pose proof (count_le_length (fun c => isEvaluated (status c)) (checks report)).
    pose proof (Forall2_length HM) as Hlen.
    pose proof (effective_set_size (qv_figureStyle params)). lia. }
  destruct (rounded_score_cases report HR) as (k & Hk & Hrange & Hcases).
  destruct (hundredths_facts k Hrange) as (_ & _ & Hone' & _).
  assert (Hk100 : k = 100%Z) by (apply Hone'; rewrite <- Hk; exact Hone).
  assert (Hall : Forall (fun c => status c = pass \/ status c = skipped)
                   (checks report)).
  { apply all_evaluated_pass.
    destruct Hcases as [[He ->]|[He Hb]]; [discriminate Hk100|]. nia. }
  split; [|exact Hall].
  rewrite Hp, Hc. apply Nat.eqb_eq. unfold countIf.
  rewrite filter_none; [reflexivity|].
  eapply Forall_impl; [|exact Hall].
  intros c [Hs|Hs]; unfold isHardFail; rewrite Hs; apply andb_false_r.
Qed.

(** *** [stripCodeFences] *)

Lemma dropPrefix_prefix (p s : string) :
  prefix p s = isSome (dropPrefix p s).
Proof.
  revert s. induction p as [|a p IH]; intros [|b s]; simpl; try reflexivity.
  destruct (ascii_dec a b) as [->|Hne].
  - rewrite Ascii.eqb_refl. apply IH.
  - destruct (Ascii.eqb a b) eqn:E; [|reflexivity].
    apply Ascii.eqb_eq in E. contradiction.
Qed.

Lemma dropPrefix_app (p q s : string) :
  dropPrefix (p ++ q) s =
  match dropPrefix p s with
  | Some r => dropPrefix q r
  | None => None
  end.
Proof.
  revert s. induction p as [|a p IH]; intros s; simpl; [reflexivity|].
  destruct s as [|b s]; [reflexivity|].
  destruct (Ascii.eqb a b); [apply IH | reflexivity].
Qed.

Lemma matchFence_none (s : string) :
  prefix "```" s = false -> matchFence s = None.
Proof.
  intros H. unfold matchFence. rewrite dropPrefix_prefix in H.
  destruct (dropPrefix "```" s); [discriminate H | reflexivity].
Qed.

Lemma matchFence_none_iff (s : string) :
  matchFence s = None <-> prefix "```" s = false.
Proof.
  unfold matchFence. rewrite dropPrefix_prefix.
  destruct (dropPrefix "```" s); simpl; split; intros H;
    try reflexivity; discriminate H.
Qed.

Lemma matchJsonFence_none (s : string) :
  prefix "```" s = false -> matchJsonFence s = None.
Proof.
  intros H. unfold matchJsonFence. rewrite dropPrefix_prefix in H.
  change "```jso" with ("```" ++ "jso"). rewrite dropPrefix_app.
  destruct (dropPrefix "```" s); [discriminate H | reflexivity].
Qed.

Lemma removeAll_without_match (m : string -> option nat) (s : string) :
  (forall t, prefix "```" t = false -> m t = None) ->
  includes s "```" = false -> removeAll m 0 s = s.
Proof.
  intros Hm. induction s as [|c r IH]; intros Hs; [reflexivity|].
  cbn [includes] in Hs. apply orb_false_iff in Hs. destruct Hs as [Hp Hr].
  cbn [removeAll]. rewrite (Hm _ Hp), (IH Hr). reflexivity.
Qed.

Lemma stripCodeFences_unfenced (s : string) :
  includes s "```" = false -> stripCodeFences s = s.
Proof.
  intros H. unfold stripCodeFences.
  rewrite (removeAll_without_match matchJsonFence s matchJsonFence_none H).
  apply (removeAll_without_match matchFence s matchFence_none H).
Qed.

(** X7.  A text without three consecutive backquotes is left as it is. *)
Theorem stripCodeFences_without_fence (s : string) :
  includes s "```" = false -> stripCodeFences s = s.
Proof. apply stripCodeFences_unfenced. Qed.

Lemma prefix_nil (s : string) : prefix "" s = true.
Proof. destruct s; reflexivity. Qed.

Lemma prefix_cons (a b : ascii) (p s : string) :
  prefix (String a p) (String b s) = if ascii_dec a b then prefix p s else false.
Proof. reflexivity. Qed.

Lemma matchFence_some (s : string) (k : nat) :
  matchFence s = Some k -> prefix "```" s = true /\ k = 3.
Proof.
  unfold matchFence. rewrite dropPrefix_prefix.
  destruct (dropPrefix "```" s); intros E; [|discriminate E].
  injection E as <-. split; reflexivity.
Qed.

Lemma removeFence_starts_backquote (r : string) :
  prefix "`" (removeAll matchFence 0 r) = true -> prefix "`" r = true.
Proof.
  destruct r as [|c r]; [intros H; exact H|].
  cbn [removeAll]. destruct (matchFence (String c r)) as [[|k]|] eqn:E.
  - apply matchFence_some in E. destruct E as [_ E]. discriminate E.
  - intros _. apply matchFence_some in E. destruct E as [E _].
    rewrite prefix_cons in E |- *.
    destruct (ascii_dec "`" c); [apply prefix_nil | discriminate E].
  - rewrite !prefix_cons. destruct (ascii_dec "`" c); intros H;
      [apply prefix_nil | discriminate H].
Qed.

Lemma removeFence_starts_two (r : string) :
  prefix "``" (removeAll matchFence 0 r) = true -> prefix "``" r = true.
Proof.
  destruct r as [|c r]; [intros H; exact H|].
  cbn [removeAll]. destruct (matchFence (String c r)) as [[|k]|] eqn:E.
  - apply matchFence_some in E. destruct E as [_ E]. discriminate E.
  - intros _. apply matchFence_some in E. destruct E as [E _].
    rewrite prefix_cons in E |- *.
    destruct (ascii_dec "`" c); [|discriminate E].
    destruct r as [|c2 r]; [discriminate E|].
    rewrite prefix_cons in E |- *.
    destruct (ascii_dec "`" c2); [apply prefix_nil | discriminate E].
  - rewrite !prefix_cons. destruct (ascii_dec "`" c); intros H; [|discriminate H].
    apply removeFence_starts_backquote in H. exact H.
Qed.

Lemma removeFence_no_fence (skip : nat) (s : string) :
  includes (removeAll matchFence skip s) "```" = false.
Proof.
  revert skip. induction s as [|c r IH]; intros skip; [reflexivity|].
  cbn [removeAll]. destruct skip as [|k]; [|apply IH].
  destruct (matchFence (String c r)) as [[|k]|] eqn:E.
  - apply matchFence_some in E. destruct E as [_ E]. discriminate E.
  - apply IH.
  - cbn [includes]. rewrite (IH 0), orb_false_r.
    destruct (prefix "```" (String c (removeAll matchFence 0 r))) eqn:Hp;
      [|reflexivity].
    exfalso. rewrite prefix_cons in Hp.
    destruct (ascii_dec "`" c) as [Hc|]; [|discriminate Hp].
    apply removeFence_starts_two in Hp.
    assert (Hs : prefix "```" (String c r) = true).
    { rewrite prefix_cons. destruct (ascii_dec "`" c); [exact Hp | contradiction]. }
    rewrite (matchFence_none_iff (String c r)) in E. congruence.
Qed.

(** X6.  Whatever the reply, the text handed to [trim] and [JSON.parse]
    has no three consecutive backquotes left. *)
Theorem stripCodeFences_leaves_no_fence (s : string) :
  includes (stripCodeFences s) "```" = false.
Proof. unfold stripCodeFences. apply removeFence_no_fence. Qed.

Lemma prefix_fence_before_newline (a rest : string) :
  prefix "```" (a ++ nl ++ rest) = prefix "```" a.
Proof.
  destruct a as [|c1 [|c2 [|c3 a]]]; cbn [append nl]; rewrite ?prefix_cons;
    repeat match goal with
           | |- context [ascii_dec ?x ?y] => destruct (ascii_dec x y)
           end;
    try reflexivity; try discriminate; rewrite ?prefix_nil; reflexivity.
Qed.

Lemma removeAll_keeps_body (m : string -> option nat) (body rest : string) :
  (forall t, prefix "```" t = false -> m t = None) ->
  includes body "```" = false ->
  removeAll m 0 (body ++ nl ++ rest) = body ++ removeAll m 0 (nl ++ rest).
Proof.
  intros Hm. induction body as [|c b IH]; intros Hs; [reflexivity|].
  cbn [includes] in Hs. apply orb_false_iff in Hs. destruct Hs as [Hp Hb].
  change (String c b ++ nl ++ rest) with (String c (b ++ nl ++ rest)).
  cbn [removeAll]. rewrite Hm.
  - rewrite (IH Hb). reflexivity.
  - change (String c (b ++ nl ++ rest)) with (String c b ++ nl ++ rest).
    rewrite prefix_fence_before_newline. exact Hp.
Qed.

Lemma stripCodeFences_json_fence (body : string) :
  includes body "```" = false ->
  stripCodeFences ("```json" ++ nl ++ body ++ nl ++ "```") = body ++ nl.
Proof.
  intros H. unfold stripCodeFences.
  change (removeAll matchJsonFence 0 ("```json" ++ nl ++ body ++ nl ++ "```"))
    with (removeAll matchJsonFence 0 (body ++ nl ++ "```")).
  rewrite (removeAll_keeps_body matchJsonFence body "```" matchJsonFence_none H).
  change (removeAll matchJsonFence 0 (nl ++ "```")) with (nl ++ "```").
  rewrite (removeAll_keeps_body matchFence body "```" matchFence_none H).
  reflexivity.
Qed.

Lemma stripCodeFences_plain_fence (body : string) :
  includes body "```" = false ->
  stripCodeFences ("```" ++ nl ++ body ++ nl ++ "```") = nl ++ body ++ nl.
Proof.
  intros H. unfold stripCodeFences.
  assert (E : removeAll matchJsonFence 0 ("```" ++ nl ++ body ++ nl ++ "```") =
              "```" ++ nl ++ body ++ nl ++ "```").
  { change ("```" ++ nl ++ body ++ nl ++ "```")
      with (String "`" (String "`" (String "`" (nl ++ body ++ nl ++ "```")))).
    cbn [removeAll matchJsonFence dropPrefix Ascii.eqb Bool.eqb nl append].
    do 4 f_equal.
    exact (removeAll_keeps_body matchJsonFence body "```" matchJsonFence_none H). }
  rewrite E.
  change (removeAll matchFence 0 ("```" ++ nl ++ body ++ nl ++ "```"))
    with (String "010" (removeAll matchFence 0 (body ++ nl ++ "```"))).
  rewrite (removeAll_keeps_body matchFence body "```" matchFence_none H).
  reflexivity.
Qed.

(** X8.  A reply wrapped in a Markdown fence, with or without the [json]
    tag, is read as the text between the fences: when [trim] removes the
    line breaks around that text, the report is the one of the bare text. *)
Theorem fenced_reply_same_report (body : string) (figureStyle : FigureStyle)
  (checkDefinitions : list QaCheckDefinition) :
  includes body "```" = false ->
  trim (body ++ nl) = trim body ->
  trim (nl ++ body ++ nl) = trim body ->
  parseQaResponse ("```json" ++ nl ++ body ++ nl ++ "```") figureStyle checkDefinitions =
    parseQaResponse body figureStyle checkDefinitions /\
  parseQaResponse ("```" ++ nl ++ body ++ nl ++ "```") figureStyle checkDefinitions =
    parseQaResponse body figureStyle checkDefinitions.
Proof.
  intros H Ht1 Ht2. unfold parseQaResponse.
  rewrite (stripCodeFences_json_fence body H), (stripCodeFences_plain_fence body H),
    (stripCodeFences_unfenced body H), Ht1, Ht2.
  split; reflexivity.
Qed.

(** *** [buildEvaluationPrompt] *)

Lemma mapi_from_nth {A B} (f : A -> nat -> B) (l : list A) (i k : nat) (x : A) :
  nth_error l k = Some x -> In (f x (i + k)) (mapi_from i f l).
Proof.
  revert i k. induction l as [|y l IH]; intros i [|k] H; try discriminate H.
  - injection H as ->. rewrite Nat.add_0_r. left. reflexivity.
  - right. replace (i + S k) with (S i + k) by lia. apply IH. exact H.
Qed.

(** X5.  The evaluation prompt quotes the original request, names the
    figure type, lists every check of the effective set on a line of its
    own numbered from 1 with its id, severity and instruction, and asks for
    as many checks as the set has. *)
Theorem evaluation_prompt_lists_every_check (figureStyle : FigureStyle)
  (originalPrompt : string) :
  let prompt := buildEvaluationPrompt figureStyle originalPrompt in
  contains prompt ("ORIGINAL REQUEST: " ++ dq ++ originalPrompt ++ dq ++ nl) /\
  contains prompt ("FIGURE TYPE: " ++ figureStyleName figureStyle ++ nl) /\
  (forall k c, nth_error (getChecksForStyle figureStyle) k = Some c ->
     contains prompt
       (showNat (k + 1) ++ ". [" ++ def_id c ++ "] (" ++
        severityName (def_severity c) ++ "): " ++ def_instruction c)) /\
  contains prompt
    ("Return ALL " ++ showNat (List.length (getChecksForStyle figureStyle)) ++
     " checks listed above, in order").
Proof.
  cbv zeta. unfold buildEvaluationPrompt. cbv zeta.
  set (checkList := concat nl _).
  set (count := showNat (List.length _)).
  repeat apply conj.
  - match goal with
    | |- contains (_ ++ _ ++ _ ++ _ ++ _ ++ ?rest) _ =>
      exists "Evaluate this scientific figure against the following quality criteria.

", ("FIGURE TYPE: " ++ rest)
    end.
    rewrite !append_assoc. reflexivity.
  - do 4 apply contains_app_r.
    match goal with
    | |- contains (_ ++ _ ++ ?l ++ ?rest) _ =>
      exists nl, ("
EVALUATION CRITERIA:
" ++ rest)
    end.
    rewrite !append_assoc. reflexivity.
  - intros k c Hk. do 7 apply contains_app_r. apply contains_app_l.
    apply contains_concat.
    exact (mapi_from_nth
             (fun c i =>
                showNat (i + 1) ++ ". [" ++ def_id c ++ "] (" ++
                severityName (def_severity c) ++ "): " ++ def_instruction c)
             _ 0 k c Hk).
  - repeat lazymatch goal with
           | |- contains (_ ++ count ++ _) _ => fail
           | _ => apply contains_app_r
           end.
    match goal with
    | |- contains (_ ++ count ++ _ ++ ?rest) _ =>
      exists " = partially met or unclear
- Be concise in detail (max 20 words per check)
- ", ("
- Use the exact " ++ rest)
    end.
    rewrite !append_assoc. reflexivity.
Qed.

(** *** Runs of the retry loop, case by case *)

(** The report the loop keeps: the validator's, with [attempts] and
    [evaluationTimeMs] set by the handler. *)
Definition attemptReport (data : QaReport) (attempt : nat) : QaReport :=
  {| passed := passed data;
     score := score data;
     hardFailCount := hardFailCount data;
     checks := checks data;
     attempts := attempt;
     figureStyle := figureStyle data;
     evaluationTimeMs := elapsedMs attempt |}.

(** The loop variables after [lastGenerationResult = generationResult]. *)
Definition withResult (v : LoopVars) (g : GeneratedImageResult) : LoopVars :=
  {| currentPrompt := currentPrompt v;
     qaReport := qaReport v;
     lastGenerationResult := Some g |}.

(** The argument of [qaValidator.validate] for a generated image. *)
Definition qaParamsOf (params : GenerateImageParams) (g : GeneratedImageResult)
  (style : FigureStyle) : QaValidationParams :=
  {| qv_imageData := imageData g;
     qv_figureStyle := style;
     qv_originalPrompt := p_prompt params |}.

(** The calls of consecutive attempts, from [attempt] on: each attempt is a
    generation call, followed by an evaluation call when it has one. *)
Fixpoint callsOf (attempt : nat)
  (l : list (GeminiApiParams * option QaValidationParams)) : list Event :=
  match l with
  | [] => []
  | (req, Some qp) :: l' =>
    GenerateImageCall attempt req :: QaValidateCall attempt qp :: callsOf (S attempt) l'
  | (req, None) :: l' => GenerateImageCall attempt req :: callsOf (S attempt) l'
  end.

(** The last report the validator returned among the calls of a trace,
    [start] when it returned none. *)
Fixpoint lastReport (t : list Event) (start : option QaReport) : option QaReport :=
  match t with
  | [] => start
  | QaValidateCall k qp :: t' =>
    lastReport t'
      match qaValidate k qp with
      | Returned (Ok data) => Some (attemptReport data k)
      | _ => start
      end
  | _ :: t' => lastReport t' start
  end.

Section LoopRuns.

Variable params : GenerateImageParams.
Variable request : string -> GeminiApiParams.
Variable structuredPrompt : string.
Variable qaOn : bool.
Variable maxAtt : nat.

Let loop := retryLoop params request structuredPrompt qaOn maxAtt.

(** An induction principle for the runs of the loop on a server [s]: a
    property of the calls [t] and of the result [r] holds of every run when
    it holds of each way a turn can end and is kept by a retry. *)
Lemma retryLoop_cases (s : ServerState)
  (P : nat -> nat -> LoopVars -> list Event -> Result LoopVars AppError -> Prop) :
  (forall attempt v, P 0 attempt v [] (Ok v)) ->
  (forall remaining attempt v e,
     generateImage attempt (request (currentPrompt v)) = Err e ->
     P (S remaining) attempt v
       [GenerateImageCall attempt (request (currentPrompt v))] (Err e)) ->
  (forall remaining attempt v g,
     generateImage attempt (request (currentPrompt v)) = Ok g ->
     (if qaOn && qaValidator s then p_figureStyle params else None) = None ->
     P (S remaining) attempt v
       [GenerateImageCall attempt (request (currentPrompt v))]
       (Ok (withResult v g))) ->
  (forall remaining attempt v g style,
     generateImage attempt (request (currentPrompt v)) = Ok g ->
     qaOn = true -> qaValidator s = true -> p_figureStyle params = Some style ->
     (forall data,
        qaValidate attempt (qaParamsOf params g style) <> Returned (Ok data)) ->
     P (S remaining) attempt v
       [GenerateImageCall attempt (request (currentPrompt v));
        QaValidateCall attempt (qaParamsOf params g style)]
       (Ok (withResult v g))) ->
  (forall remaining attempt v g style data,
     generateImage attempt (request (currentPrompt v)) = Ok g ->
     qaOn = true -> qaValidator s = true -> p_figureStyle params = Some style ->
     qaValidate attempt (qaParamsOf params g style) = Returned (Ok data) ->
     passed data = true \/ attempt = maxAtt \/ buildRetryPatch (checks data) = "" ->
     P (S remaining) attempt v
       [GenerateImageCall attempt (request (currentPrompt v));
        QaValidateCall attempt (qaParamsOf params g style)]
       (Ok {| currentPrompt := currentPrompt v;
              qaReport := Some (attemptReport data attempt);
              lastGenerationResult := Some g |})) ->
  (forall remaining attempt v g style data t r,
     generateImage attempt (request (currentPrompt v)) = Ok g ->
     qaOn = true -> qaValidator s = true -> p_figureStyle params = Some style ->
     qaValidate attempt (qaParamsOf params g style) = Returned (Ok data) ->
     passed data = false -> attempt <> maxAtt ->
     buildRetryPatch (checks data) <> "" ->
     P remaining (S attempt)
       {| currentPrompt := structuredPrompt ++ buildRetryPatch (checks data);
          qaReport := Some (attemptReport data attempt);
          lastGenerationResult := Some g |} t r ->
     P (S remaining) attempt v
       (GenerateImageCall attempt (request (currentPrompt v)) ::
        QaValidateCall attempt (qaParamsOf params g style) :: t) r) ->
  forall remaining attempt v t0,
  exists t r,
    loop remaining attempt v {| server := s; trace := t0 |} =
      ({| server := s; trace := t0 ++ t |}, r) /\
    P remaining attempt v t r.
Proof.
  intros H0 Hfail Hnone Herr Hstop Hretry.
  induction remaining as [|remaining IH]; intros attempt v t0.
  - exists [], (Ok v). split; [|apply H0].
    unfold loop. cbn [retryLoop]. unfold ret. rewrite app_nil_r. reflexivity.
  - unfold loop. rewrite retryLoop_step. cbv zeta. cbn [server trace].
    destruct (generateImage attempt (request (currentPrompt v))) as [g|e] eqn:Hgen.
    2: { eexists _, _. split; [reflexivity|]. apply Hfail. exact Hgen. }
    destruct (if qaOn && qaValidator s then p_figureStyle params else None)
      as [style|] eqn:Hq.
    2: { eexists _, _. split; [reflexivity|]. apply Hnone; auto. }
    assert (Hon : qaOn = true /\ qaValidator s = true /\
                  p_figureStyle params = Some style).
    { destruct (qaOn && qaValidator s) eqn:Hand; [|discriminate Hq].
      apply andb_true_iff in Hand. destruct Hand as [H1 H2]. auto. }
    destruct Hon as (Hon & Hval & Hst).
    change {| qv_imageData := imageData g; qv_figureStyle := style;
              qv_originalPrompt := p_prompt params |}
      with (qaParamsOf params g style).
    destruct (qaValidate attempt (qaParamsOf params g style))
      as [[data|e]|e] eqn:Hqa.
    2, 3: (eexists _, _; split; [rewrite <- app_assoc; reflexivity|];
           apply Herr; try assumption; intros data; rewrite Hqa; discriminate).
    destruct (passed data || (attempt =? maxAtt)%nat) eqn:Hlast.
    { eexists _, _. split; [rewrite <- app_assoc; reflexivity|].
      apply orb_true_iff in Hlast. rewrite Nat.eqb_eq in Hlast.
      apply (Hstop remaining attempt v g style data); try assumption.
      destruct Hlast as [H|H]; [left; exact H | right; left; exact H]. }
    apply orb_false_iff in Hlast. destruct Hlast as [Hpass Hlast].
    destruct (buildRetryPatch (checks data) =? "") eqn:Hpatch.
    { eexists _, _. split; [rewrite <- app_assoc; reflexivity|].
      apply String.eqb_eq in Hpatch.
      apply (Hstop remaining attempt v g style data); auto. }
    match goal with
    | |- context [retryLoop _ _ _ _ _ remaining (S attempt) ?v3 ?w2] =>
      destruct (IH (S attempt) v3
                  ((t0 ++ [GenerateImageCall attempt (request (currentPrompt v))]) ++
                   [QaValidateCall attempt (qaParamsOf params g style)])%list)
        as (t & r & Hrun & HP)
    end.
    exists (GenerateImageCall attempt (request (currentPrompt v)) ::
            QaValidateCall attempt (qaParamsOf params g style) :: t), r.
    split.
    + unfold loop in Hrun. rewrite Hrun. rewrite <- !app_assoc. reflexivity.
    + apply Nat.eqb_neq in Hlast. apply String.eqb_neq in Hpatch.
      apply (Hretry remaining attempt v g style data t r); assumption.
Qed.

End LoopRuns.

(** [orchestrate] after its loop: what it does with the loop's result. *)
Lemma orchestrate_of_loop params config img mime sp s t r :
  retryLoop params (generationRequest params img mime) sp
    (qaEnabled params config s) (maxAttempts params config s)
    (maxAttempts params config s) 1
    {| currentPrompt := sp; qaReport := None; lastGenerationResult := None |}
    {| server := s; trace := [] |} = ({| server := s; trace := t |}, r) ->
  orchestrate params config img mime sp (startWorld s) =
  match r with
  | Err e => ({| server := s; trace := t |}, Err e)
  | Ok v =>
    match lastGenerationResult v with
    | None => ({| server := s; trace := t |}, Err (PlainError "Image generation failed"))
    | Some last =>
      match sanitizeFilePath
              (path_join (imageOutputDir config)
                 (outputFileName params (imageData last))) with
      | Err e => ({| server := s; trace := t |}, Err e)
      | Ok path =>
        ({| server := s; trace := t ++ [SaveImageCall (imageData last) path] |},
         match saveImage (imageData last) path with
         | Ok saved => Ok {| resp_generation := last;
                             resp_filePath := saved;
                             resp_qa := qaReport v |}
         | Err e => Err e
         end)
      end
    end
  end.
Proof.
  intros Hrun. change {| server := s; trace := [] |} with (startWorld s) in Hrun.
  unfold orchestrate, bind, getServer. cbn [startWorld server trace].
  rewrite Hrun. destruct r as [v|e]; [|reflexivity].
  destruct (lastGenerationResult v) as [last|]; [|reflexivity].
  unfold orThrow, emit, throw, ret. cbn [server trace].
  destruct (sanitizeFilePath _) as [path|e]; [|reflexivity].
  cbn [server trace].
  destruct (saveImage (imageData last) path); reflexivity.
Qed.

Section CallOrder.

Variable params : GenerateImageParams.
Variable request : string -> GeminiApiParams.
Variable structuredPrompt : string.
Variable qaOn : bool.
Variable maxAtt : nat.

(** Every attempt but the last has its evaluation call. *)
Definition EvaluatedButLast
  (l : list (GeminiApiParams * option QaValidationParams)) : Prop :=
  forall i, S i < List.length l ->
    exists req qp, nth_error l i = Some (req, Some qp).

Lemma retryLoop_call_order (s : ServerState) (remaining attempt : nat)
  (v : LoopVars) (t0 : list Event) :
  exists t r l,
    retryLoop params request structuredPrompt qaOn maxAtt remaining attempt v
      {| server := s; trace := t0 |} = ({| server := s; trace := t0 ++ t |}, r) /\
    t = callsOf attempt l /\ List.length l <= remaining /\
    EvaluatedButLast l /\ (1 <= remaining -> l <> []).
Proof.
  destruct (retryLoop_cases params request structuredPrompt qaOn maxAtt s
              (fun remaining attempt v t r =>
                 exists l, t = callsOf attempt l /\ List.length l <= remaining /\
                           EvaluatedButLast l /\ (1 <= remaining -> l <> [])))
    with (remaining := remaining) (attempt := attempt) (v := v) (t0 := t0)
    as (t & r & Hrun & l & Hl).
  - intros a v0. exists []. repeat split; try (cbn; lia).
    intros i Hi. cbn in Hi. lia.
  - intros rem a v0 e _. exists [(request (currentPrompt v0), None)].
    repeat split; try (cbn; lia); try discriminate.
    intros i Hi. cbn in Hi. lia.
  - intros rem a v0 g _ _. exists [(request (currentPrompt v0), None)].
    repeat split; try (cbn; lia); try discriminate.
    intros i Hi. cbn in Hi. lia.
  - intros rem a v0 g style _ _ _ _ _.
    exists [(request (currentPrompt v0), Some (qaParamsOf params g style))].
    repeat split; try (cbn; lia); try discriminate.
    intros i Hi. cbn in Hi. lia.
  - intros rem a v0 g style data _ _ _ _ _ _.
    exists [(request (currentPrompt v0), Some (qaParamsOf params g style))].
    repeat split; try (cbn; lia); try discriminate.
    intros i Hi. cbn in Hi. lia.
  - intros rem a v0 g style data t r _ _ _ _ _ _ _ _ (l & -> & Hlen & Hev & Hne).
    exists ((request (currentPrompt v0), Some (qaParamsOf params g style)) :: l).
    repeat split; try (cbn; lia); try discriminate.
    intros [|i] Hi; [eexists _, _; reflexivity|].
    cbn in Hi. apply Hev. lia.
  - exists t, r, l. split; [exact Hrun | exact Hl].
Qed.

End CallOrder.

(** X9.  The calls a request makes are in attempt order: generation 1, its
    evaluation, generation 2, its evaluation, and so on, every attempt but
    the last having been evaluated; then at most one save, which is the
    last call.  A request that succeeds made at least one generation call
    and the save. *)
Theorem calls_in_attempt_order params s :
  exists l tail,
    trace (fst (handleGenerateImage params (startWorld s))) =
      (callsOf 1 l ++ tail)%list /\
    EvaluatedButLast l /\
    (tail = [] \/ exists d p, tail = [SaveImageCall d p]) /\
    (forall resp,
       snd (handleGenerateImage params (startWorld s)) = Ok resp ->
       l <> [] /\ tail <> []).
Proof.
  destruct (handleGenerateImage_run params s)
    as [(e & Herr & Htrace)|(config & img & mime & s0 & s1 & Hrun)].
  - exists [], []. rewrite Htrace, Herr. repeat split; try discriminate.
    + intros i Hi. cbn in Hi. lia.
    + left. reflexivity.
  - rewrite Hrun.
    destruct (retryLoop_call_order params (generationRequest params img mime)
                (structuredPromptFor params config img s0)
                (qaEnabled params config s1) (maxAttempts params config s1)
                s1 (maxAttempts params config s1) 1
                {| currentPrompt := structuredPromptFor params config img s0;
                   qaReport := None; lastGenerationResult := None |} [])
      as (t & r & l & Hloop & -> & _ & Hev & Hne).
    cbn [app] in Hloop. rewrite (orchestrate_of_loop _ _ _ _ _ _ _ _ Hloop).
    specialize (Hne (maxAttempts_positive params config s1)).
    exists l.
    destruct r as [v|e];
      [|exists []; rewrite app_nil_r; repeat split; auto; discriminate].
    destruct (lastGenerationResult v) as [last|];
      [|exists []; rewrite app_nil_r; repeat split; auto; discriminate].
    destruct (sanitizeFilePath _) as [path|e];
      [|exists []; rewrite app_nil_r; repeat split; auto; discriminate].
    exists [SaveImageCall (imageData last) path]. cbn [fst snd trace].
    repeat split; auto; try discriminate.
    right. eexists _, _. reflexivity.
Qed.

Section LoopResults.

Variable params : GenerateImageParams.
Variable request : string -> GeminiApiParams.
Variable structuredPrompt : string.
Variable qaOn : bool.
Variable maxAtt : nat.

Ltac in_calls :=
  repeat match goal with
         | H : In _ (_ :: _) |- _ => destruct H as [H|H]
         | H : In _ [] |- _ => destruct H
         | H : GenerateImageCall _ _ = GenerateImageCall _ _ |- _ =>
           injection H as ? ?; subst
         | H : QaValidateCall _ _ = QaValidateCall _ _ |- _ =>
           injection H as ? ?; subst
         | H : GenerateImageCall _ _ = QaValidateCall _ _ |- _ => discriminate H
         | H : QaValidateCall _ _ = GenerateImageCall _ _ |- _ => discriminate H
         end.

(** The image the loop ends with is the one of its last generation call. *)
Definition LastGeneration (attempt : nat) (v : LoopVars) (t : list Event)
  (r : Result LoopVars AppError) : Prop :=
  Forall (fun e => isSaveCall e = false) t /\
  (forall k req, In (GenerateImageCall k req) t -> attempt <= k) /\
  (forall v', r = Ok v' ->
     (t = [] /\ v' = v) \/
     exists n req g,
       In (GenerateImageCall n req) t /\ generateImage n req = Ok g /\
       lastGenerationResult v' = Some g /\
       forall k' req', In (GenerateImageCall k' req') t -> k' <= n).

Lemma retryLoop_last_generation (s : ServerState) (remaining attempt : nat)
  (v : LoopVars) (t0 : list Event) :
  exists t r,
    retryLoop params request structuredPrompt qaOn maxAtt remaining attempt v
      {| server := s; trace := t0 |} = ({| server := s; trace := t0 ++ t |}, r) /\
    LastGeneration attempt v t r.
Proof.
  apply (retryLoop_cases params request structuredPrompt qaOn maxAtt s
           (fun _ attempt v t r => LastGeneration attempt v t r));
    unfold LastGeneration.
  - intros a v0. repeat split; [constructor | intros k req [] |].
    intros v' E. injection E as <-. left. split; reflexivity.
  - intros rem a v0 e _.
    repeat split; [repeat constructor | intros k req Hin; in_calls; lia |].
    intros v' E. discriminate E.
  - intros rem a v0 g Hgen _.
    repeat split; [repeat constructor | intros k req Hin; in_calls; lia |].
    intros v' E. injection E as <-. right.
    exists a, (request (currentPrompt v0)), g.
    repeat split; [left; reflexivity | exact Hgen |].
    intros k' req' Hin. in_calls. lia.
  - intros rem a v0 g style Hgen _ _ _ _.
    repeat split; [repeat constructor | intros k req Hin; in_calls; lia |].
    intros v' E. injection E as <-. right.
    exists a, (request (currentPrompt v0)), g.
    repeat split; [left; reflexivity | exact Hgen |].
    intros k' req' Hin. in_calls. lia.
  - intros rem a v0 g style data Hgen _ _ _ _ _.
    repeat split; [repeat constructor | intros k req Hin; in_calls; lia |].
    intros v' E. injection E as <-. right.
    exists a, (request (currentPrompt v0)), g.
    repeat split; [left; reflexivity | exact Hgen |].
    intros k' req' Hin. in_calls. lia.
  - intros rem a v0 g style data t r Hgen _ _ _ _ _ _ _ (Hsave & Hlow & Hres).
    repeat split.
    + repeat constructor. exact Hsave.
    + intros k req [Hin|[Hin|Hin]]; in_calls; [lia|].
      apply Hlow in Hin. lia.
    + intros v' E. right.
      destruct (Hres v' E) as [[-> ->]|(n & req & g' & Hin & Hg & Hlast & Hmax)].
      * exists a, (request (currentPrompt v0)), g.
        repeat split; [left; reflexivity | exact Hgen |].
        intros k' req' Hin. in_calls. lia.
      * exists n, req, g'.
        repeat split; [right; right; exact Hin | exact Hg | exact Hlast |].
        intros k' req' [Hin'|[Hin'|Hin']]; in_calls.
        -- apply Hlow in Hin. lia.
        -- apply (Hmax k' req' Hin').
Qed.

End LoopResults.

(** X10.  A successful response carries the image of the last generation
    call of the request, and that image is the data of the one save call,
    which is the last call of the request and whose result is the file path
    of the response. *)
Theorem response_is_last_generation params s resp :
  snd (handleGenerateImage params (startWorld s)) = Ok resp ->
  exists t n req path,
    trace (fst (handleGenerateImage params (startWorld s))) =
      (t ++ [SaveImageCall (imageData (resp_generation resp)) path])%list /\
    countIf isSaveCall t = 0 /\
    saveImage (imageData (resp_generation resp)) path = Ok (resp_filePath resp) /\
    In (GenerateImageCall n req) t /\
    generateImage n req = Ok (resp_generation resp) /\
    (forall k' req', In (GenerateImageCall k' req') t -> k' <= n).
Proof.
  destruct (handleGenerateImage_run params s)
    as [(e & Herr & Htrace)|(config & img & mime & s0 & s1 & Hrun)].
  - rewrite Herr. discriminate.
  - rewrite Hrun.
    destruct (retryLoop_last_generation params (generationRequest params img mime)
                (structuredPromptFor params config img s0)
                (qaEnabled params config s1) (maxAttempts params config s1)
                s1 (maxAttempts params config s1) 1
                {| currentPrompt := structuredPromptFor params config img s0;
                   qaReport := None; lastGenerationResult := None |} [])
      as (t & r & Hloop & Hsave & _ & Hres).
    cbn [app] in Hloop. rewrite (orchestrate_of_loop _ _ _ _ _ _ _ _ Hloop).
    destruct r as [v|e]; [|discriminate].
    destruct (lastGenerationResult v) as [last|] eqn:Hlast; [|discriminate].
    destruct (sanitizeFilePath _) as [path|e]; [|discriminate].
    cbn [fst snd trace].
    destruct (saveImage (imageData last) path) as [saved|e] eqn:Hsaved;
      [|discriminate].
    intros E. injection E as <-. cbn [resp_generation resp_filePath].
    destruct (Hres v eq_refl) as [[_ ->]|(n & req & g & Hin & Hg & Hv & Hmax)];
      [discriminate Hlast|].
    rewrite Hlast in Hv. injection Hv as <-.
    exists t, n, req, path. repeat split; auto.
    unfold countIf. rewrite filter_none; [reflexivity | exact Hsave].
Qed.

Section LoopEvaluations.

Variable params : GenerateImageParams.
Variable request : string -> GeminiApiParams.
Variable structuredPrompt : string.
Variable qaOn : bool.
Variable maxAtt : nat.

Ltac in_calls :=
  repeat match goal with
         | H : In _ (_ :: _) |- _ => destruct H as [H|H]
         | H : In _ [] |- _ => destruct H
         | H : GenerateImageCall _ _ = GenerateImageCall _ _ |- _ =>
           injection H as ? ?; subst
         | H : QaValidateCall _ _ = QaValidateCall _ _ |- _ =>
           injection H as ? ?; subst
         | H : GenerateImageCall _ _ = QaValidateCall _ _ |- _ => discriminate H
         | H : QaValidateCall _ _ = GenerateImageCall _ _ |- _ => discriminate H
         end.

(** What the validator is given: the image generated in the same attempt,
    the requested style and the caller's prompt. *)
Definition EvaluatesOwnImage (t : list Event) : Prop :=
  forall k qp,
    In (QaValidateCall k qp) t ->
    exists req g style,
      In (GenerateImageCall k req) t /\ generateImage k req = Ok g /\
      p_figureStyle params = Some style /\ qp = qaParamsOf params g style /\
      qaOn = true.

Lemma retryLoop_evaluates_own_image (s : ServerState) (remaining attempt : nat)
  (v : LoopVars) (t0 : list Event) :
  exists t r,
    retryLoop params request structuredPrompt qaOn maxAtt remaining attempt v
      {| server := s; trace := t0 |} = ({| server := s; trace := t0 ++ t |}, r) /\
    EvaluatesOwnImage t.
Proof.
  apply (retryLoop_cases params request structuredPrompt qaOn maxAtt s
           (fun _ _ _ t _ => EvaluatesOwnImage t));
    unfold EvaluatesOwnImage.
  - intros a v0 k qp [].
  - intros rem a v0 e _ k qp Hin. in_calls.
  - intros rem a v0 g _ _ k qp Hin. in_calls.
  - intros rem a v0 g style Hgen Hon _ Hst _ k qp Hin. in_calls.
    exists (request (currentPrompt v0)), g, style.
    repeat split; auto; left; reflexivity.
  - intros rem a v0 g style data Hgen Hon _ Hst _ _ k qp Hin. in_calls.
    exists (request (currentPrompt v0)), g, style.
    repeat split; auto; left; reflexivity.
  - intros rem a v0 g style data t r Hgen Hon _ Hst _ _ _ _ IH k qp
      [Hin|[Hin|Hin]]; in_calls.
    + exists (request (currentPrompt v0)), g, style.
      repeat split; auto; left; reflexivity.
    + destruct (IH k qp Hin) as (req & g' & style' & Hin' & H').
      exists req, g', style'. split; [right; right; exact Hin' | exact H'].
Qed.

Lemma retryLoop_last_report (s : ServerState) (remaining attempt : nat)
  (v : LoopVars) (t0 : list Event) :
  exists t r,
    retryLoop params request structuredPrompt qaOn maxAtt remaining attempt v
      {| server := s; trace := t0 |} = ({| server := s; trace := t0 ++ t |}, r) /\
    (forall v', r = Ok v' -> qaReport v' = lastReport t (qaReport v)).
Proof.
  apply (retryLoop_cases params request structuredPrompt qaOn maxAtt s
           (fun _ _ v t r =>
              forall v', r = Ok v' -> qaReport v' = lastReport t (qaReport v))).
  - intros a v0 v' E. injection E as <-. reflexivity.
  - intros rem a v0 e _ v' E. discriminate E.
  - intros rem a v0 g _ _ v' E. injection E as <-. reflexivity.
  - intros rem a v0 g style _ _ _ _ Hno v' E. injection E as <-.
    cbn [lastReport withResult qaReport].
    destruct (qaValidate a (qaParamsOf params g style)) as [[data|e]|e] eqn:Hqa;
      [exfalso; exact (Hno data eq_refl) | reflexivity | reflexivity].
  - intros rem a v0 g style data _ _ _ _ Hqa _ v' E. injection E as <-.
    cbn [lastReport qaReport]. rewrite Hqa. reflexivity.
  - intros rem a v0 g style data t r _ _ _ _ Hqa _ _ _ IH v' E.
    cbn [lastReport]. rewrite Hqa. exact (IH v' E).
Qed.

Lemma lastReport_app (t tail : list Event) (start : option QaReport) :
  Forall (fun e => isSaveCall e = true) tail ->
  lastReport (t ++ tail) start = lastReport t start.
Proof.
  intros Htail. revert start. induction t as [|e t IH]; intros start.
  - cbn [app]. induction Htail as [|e tail He _ IH]; [reflexivity|].
    destruct e; try discriminate He. exact IH.
  - destruct e; cbn [app lastReport]; apply IH.
Qed.

(** A report that fails below the attempt budget, with a patch to apply,
    is followed by the next generation call. *)
Definition RetriesAfterFailure (remaining attempt : nat) (v : LoopVars)
  (t : list Event) : Prop :=
  (1 <= remaining -> In (GenerateImageCall attempt (request (currentPrompt v))) t) /\
  (attempt + remaining = maxAtt + 1 ->
   forall k qp data,
     In (QaValidateCall k qp) t -> qaValidate k qp = Returned (Ok data) ->
     passed data = false -> k <> maxAtt -> buildRetryPatch (checks data) <> "" ->
     In (GenerateImageCall (S k)
           (request (structuredPrompt ++ buildRetryPatch (checks data)))) t).

Lemma retryLoop_retries_after_failure (s : ServerState) (remaining attempt : nat)
  (v : LoopVars) (t0 : list Event) :
  exists t r,
    retryLoop params request structuredPrompt qaOn maxAtt remaining attempt v
      {| server := s; trace := t0 |} = ({| server := s; trace := t0 ++ t |}, r) /\
    RetriesAfterFailure remaining attempt v t.
Proof.
  apply (retryLoop_cases params request structuredPrompt qaOn maxAtt s
           (fun remaining attempt v t _ => RetriesAfterFailure remaining attempt v t));
    unfold RetriesAfterFailure.
  - intros a v0. split; [lia | intros _ k qp data []].
  - intros rem a v0 e _. split; [intros _; left; reflexivity|].
    intros _ k qp data Hin. in_calls.
  - intros rem a v0 g _ _. split; [intros _; left; reflexivity|].
    intros _ k qp data Hin. in_calls.
  - intros rem a v0 g style _ _ _ _ Hno. split; [intros _; left; reflexivity|].
    intros _ k qp data Hin Hqa. in_calls. exfalso. exact (Hno data Hqa).
  - intros rem a v0 g style data _ _ _ _ Hqa Hstop.
    split; [intros _; left; reflexivity|].
    intros _ k qp data' Hin Hqa' Hfail Hk Hpatch. in_calls.
    rewrite Hqa in Hqa'. injection Hqa' as <-.
    destruct Hstop as [H|[H|H]]; [congruence | contradiction | contradiction].
  - intros rem a v0 g style data t r _ _ _ _ Hqa _ Hne _ [Hfirst IH].
    split; [intros _; left; reflexivity|].
    intros Hinv k qp data' [Hin|[Hin|Hin]] Hqa' Hfail Hk Hpatch; in_calls.
    + rewrite Hqa in Hqa'. injection Hqa' as <-.
      right. right. apply Hfirst. lia.
    + right. right. apply (IH ltac:(lia) k qp data' Hin Hqa' Hfail Hk Hpatch).
Qed.

End LoopEvaluations.

Lemma orchestrate_trace params config img mime sp s t r :
  retryLoop params (generationRequest params img mime) sp
    (qaEnabled params config s) (maxAttempts params config s)
    (maxAttempts params config s) 1
    {| currentPrompt := sp; qaReport := None; lastGenerationResult := None |}
    {| server := s; trace := [] |} = ({| server := s; trace := t |}, r) ->
  exists tail,
    trace (fst (orchestrate params config img mime sp (startWorld s))) =
      (t ++ tail)%list /\
    Forall (fun e => isSaveCall e = true) tail.
Proof.
  intros Hloop. rewrite (orchestrate_of_loop _ _ _ _ _ _ _ _ Hloop).
  destruct r as [v|e];
    [|exists []; rewrite app_nil_r; split; [reflexivity | constructor]].
  destruct (lastGenerationResult v) as [last|];
    [|exists []; rewrite app_nil_r; split; [reflexivity | constructor]].
  destruct (sanitizeFilePath _) as [path|e];
    [|exists []; rewrite app_nil_r; split; [reflexivity | constructor]].
  eexists. split; [reflexivity | repeat constructor].
Qed.

(** X11.  Every evaluation call is given the image that the generation
    call of the same attempt returned, the requested figure style and the
    caller's own prompt, not the enriched or the patched one. *)
Theorem evaluation_sees_image_of_its_attempt params s k qp :
  In (QaValidateCall k qp)
     (trace (fst (handleGenerateImage params (startWorld s)))) ->
  exists req g style,
    In (GenerateImageCall k req)
       (trace (fst (handleGenerateImage params (startWorld s)))) /\
    generateImage k req = Ok g /\
    p_figureStyle params = Some style /\
    qp = {| qv_imageData := imageData g;
            qv_figureStyle := style;
            qv_originalPrompt := p_prompt params |}.
Proof.
  destruct (handleGenerateImage_run params s)
    as [(e & Herr & Htrace)|(config & img & mime & s0 & s1 & Hrun)].
  - rewrite Htrace. intros [].
  - rewrite Hrun.
    destruct (retryLoop_evaluates_own_image params
                (generationRequest params img mime)
                (structuredPromptFor params config img s0)
                (qaEnabled params config s1) (maxAttempts params config s1)
                s1 (maxAttempts params config s1) 1
                {| currentPrompt := structuredPromptFor params config img s0;
                   qaReport := None; lastGenerationResult := None |} [])
      as (t & r & Hloop & Hown).
    cbn [app] in Hloop.
    destruct (orchestrate_trace _ _ _ _ _ _ _ _ Hloop) as (tail & -> & Htail).
    intros Hin. apply (validate_call_of_loop _ _ _ _ Htail) in Hin.
    destruct (Hown k qp Hin) as (req & g & style & Hin' & Hg & Hst & -> & _).
    exists req, g, style. repeat split; auto.
    apply in_or_app. left. exact Hin'.
Qed.

(** X12.  The QA report of a successful response is the last report the
    validator returned during the request, with the number of its attempt
    and its evaluation time; when the evaluation of a later attempt returns
    no report, the report of the earlier attempt stays, and the response has
    none when no evaluation returned one. *)
Theorem response_report_is_last_returned params s resp :
  snd (handleGenerateImage params (startWorld s)) = Ok resp ->
  resp_qa resp =
    lastReport (trace (fst (handleGenerateImage params (startWorld s)))) None.
Proof.
  destruct (handleGenerateImage_run params s)
    as [(e & Herr & Htrace)|(config & img & mime & s0 & s1 & Hrun)].
  - rewrite Herr. discriminate.
  - rewrite Hrun.
    destruct (retryLoop_last_report params (generationRequest params img mime)
                (structuredPromptFor params config img s0)
                (qaEnabled params config s1) (maxAttempts params config s1)
                s1 (maxAttempts params config s1) 1
                {| currentPrompt := structuredPromptFor params config img s0;
                   qaReport := None; lastGenerationResult := None |} [])
      as (t & r & Hloop & Hrep).
    cbn [app] in Hloop.
    destruct (orchestrate_trace _ _ _ _ _ _ _ _ Hloop) as (tail & -> & Htail).
    rewrite (lastReport_app _ _ _ Htail).
    rewrite (orchestrate_of_loop _ _ _ _ _ _ _ _ Hloop).
    destruct r as [v|e]; [|discriminate].
    destruct (lastGenerationResult v) as [last|]; [|discriminate].
    destruct (sanitizeFilePath _) as [path|e]; [|discriminate].
    cbn [snd]. destruct (saveImage (imageData last) path); [|discriminate].
    intros E. injection E as <-. cbn [resp_qa]. exact (Hrep v eq_refl).
Qed.

Lemma orchestrate_retries_after_failure params config img mime sp s k qp data :
  In (QaValidateCall k qp)
     (trace (fst (orchestrate params config img mime sp (startWorld s)))) ->
  qaValidate k qp = Returned (Ok data) ->
  passed data = false ->
  k <= scientificQaMaxRetries config ->
  buildRetryPatch (checks data) <> "" ->
  In (GenerateImageCall (S k)
        (generationRequest params img mime (sp ++ buildRetryPatch (checks data))))
     (trace (fst (orchestrate params config img mime sp (startWorld s)))).
Proof.
  destruct (retryLoop_retries_after_failure params
              (generationRequest params img mime) sp
              (qaEnabled params config s) (maxAttempts params config s)
              s (maxAttempts params config s) 1
              {| currentPrompt := sp; qaReport := None;
                 lastGenerationResult := None |} [])
    as (t & r & Hloop & _ & Hretry).
  destruct (retryLoop_evaluates_own_image params
              (generationRequest params img mime) sp
              (qaEnabled params config s) (maxAttempts params config s)
              s (maxAttempts params config s) 1
              {| currentPrompt := sp; qaReport := None;
                 lastGenerationResult := None |} [])
    as (t' & r' & Hloop' & Hown).
  rewrite Hloop in Hloop'. injection Hloop' as <- <-.
  cbn [app] in Hloop.
  destruct (orchestrate_trace _ _ _ _ _ _ _ _ Hloop) as (tail & -> & Htail).
  intros Hin Hqa Hfail Hk Hpatch.
  apply (validate_call_of_loop _ _ _ _ Htail) in Hin.
  destruct (Hown k qp Hin) as (_ & _ & _ & _ & _ & _ & _ & Hon).
  apply in_or_app. left.
  apply (Hretry ltac:(lia) k qp data Hin Hqa Hfail); [|exact Hpatch].
  unfold maxAttempts. rewrite Hon. lia.
Qed.

(** X13.  When the validator returns a failed report at an attempt that is
    not the last one allowed, and the report gives a non-empty patch, the
    next generation call is made, with the structured prompt followed by
    that patch. *)
Theorem failed_report_is_retried params config img mime sp s k qp data :
  In (QaValidateCall k qp)
     (trace (fst (orchestrate params config img mime sp (startWorld s)))) ->
  qaValidate k qp = Returned (Ok data) ->
  passed data = false ->
  k <= scientificQaMaxRetries config ->
  buildRetryPatch (checks data) <> "" ->
  In (GenerateImageCall (S k)
        (generationRequest params img mime (sp ++ buildRetryPatch (checks data))))
     (trace (fst (orchestrate params config img mime sp (startWorld s)))).
Proof. apply orchestrate_retries_after_failure. Qed.

(** *** Where the artifact is saved *)

Lemma prefix_iff (p s : string) :
  prefix p s = true <-> exists post, s = p ++ post.
Proof.
  revert s. induction p as [|a p IH]; intros s.
  - rewrite prefix_nil. split; [intros _; exists s; reflexivity | reflexivity].
  - destruct s as [|b s].
    + split; [discriminate | intros (post & H); discriminate H].
    + rewrite prefix_cons. destruct (ascii_dec a b) as [->|Hne].
      * rewrite IH. split; intros (post & H); exists post.
        -- cbn [append]. rewrite H. reflexivity.
        -- cbn [append] in H. injection H as H. exact H.
      * split; [discriminate|]. intros (post & H). cbn [append] in H.
        injection H as H _. congruence.
Qed.

Lemma includes_unfold (s sub : string) :
  includes s sub =
  prefix sub s || match s with
                  | EmptyString => false
                  | String _ r => includes r sub
                  end.
Proof. destruct s; reflexivity. Qed.

Lemma includes_iff (s sub : string) : includes s sub = true <-> contains s sub.
Proof.
  split.
  - induction s as [|c r IH]; rewrite includes_unfold; intros H;
      apply orb_true_iff in H; destruct H as [H|H]; try discriminate H.
    + apply prefix_iff in H. destruct H as (post & H). exists "", post. exact H.
    + apply prefix_iff in H. destruct H as (post & H). exists "", post. exact H.
    + destruct (IH H) as (pre & post & ->). exists (String c pre), post. reflexivity.
  - intros (pre & post & ->). induction pre as [|c pre IH].
    + rewrite includes_unfold. apply orb_true_iff. left.
      apply prefix_iff. exists post. reflexivity.
    + cbn [append]. rewrite includes_unfold. apply orb_true_iff. right. exact IH.
Qed.

Lemma contains_trans (s t x : string) : contains s t -> contains t x -> contains s x.
Proof.
  intros (pre & post & ->) (pre' & post' & ->).
  exists (pre ++ pre'), (post' ++ post). rewrite !append_assoc. reflexivity.
Qed.

Lemma sanitizeFilePath_ok (inputPath resolved : string) :
  sanitizeFilePath inputPath = Ok resolved ->
  resolved = path_resolve inputPath /\
  includes inputPath (String "000"%char "") = false /\
  includes inputPath ".." = false /\
  exists basePath,
    In basePath allowedBasePaths /\
    startsWith resolved (path_resolve basePath) = true.
Proof.
  unfold sanitizeFilePath.
  destruct (includes inputPath (String "000"%char "")); [discriminate|].
  destruct (includes inputPath ".."); [discriminate|].
  destruct (existsb _ allowedBasePaths) eqn:Hbase; [|discriminate].
  intros E. injection E as <-. repeat split.
  apply existsb_exists in Hbase. exact Hbase.
Qed.

(** X14.  Whatever is saved is saved at the resolved path of the output
    directory joined with the output file name; that joined path has no NUL
    character and no two consecutive dots, and the resolved path starts with
    the resolved form of one of the allowed base paths. *)
Theorem save_path_is_checked params config img mime sp s d path :
  In (SaveImageCall d path)
     (trace (fst (orchestrate params config img mime sp (startWorld s)))) ->
  let outputPath := path_join (imageOutputDir config) (outputFileName params d) in
  path = path_resolve outputPath /\
  ~ contains outputPath (String "000"%char "") /\
  ~ contains outputPath ".." /\
  exists basePath,
    In basePath allowedBasePaths /\
    startsWith path (path_resolve basePath) = true.
Proof.
  intros Hin. apply saved_under_output_name in Hin.
  apply sanitizeFilePath_ok in Hin.
  destruct Hin as (Hpath & Hnul & Hdots & Hbase). cbv zeta.
  repeat split; [exact Hpath | | | exact Hbase].
  - intros H. apply includes_iff in H. congruence.
  - intros H. apply includes_iff in H. congruence.
Qed.

Lemma removeExtension_trailing_dot (base : string) :
  removeExtension (base ++ ".") = base ++ ".".
Proof.
  induction base as [|c base IH]; [reflexivity|].
  change (String c base ++ ".") with (String c (base ++ ".")).
  cbn [removeExtension]. rewrite matchesExtension_eq.
  change "." with (String "."%char "") at 2. rewrite allChars_with_dot.
  rewrite andb_false_r, IH. reflexivity.
Qed.

Lemma extension_starts_with_dot (data : list Z) :
  exists rest, getExtensionFromImageData data = "." ++ rest.
Proof.
  unfold getExtensionFromImageData.
  repeat match goal with
         | |- context [if ?c then _ else _] => destruct c
         end; eexists; reflexivity.
Qed.

Lemma extension_is_known (data : list Z) :
  In (getExtensionFromImageData data) [".png"; ".jpg"; ".gif"; ".webp"].
Proof.
  unfold getExtensionFromImageData.
  repeat match goal with
         | |- context [if ?c then _ else _] => destruct c
         end; cbn; auto.
Qed.

(** X15.  A caller's file name that ends in a dot is never saved: the
    extension is appended after that dot, the name then has two consecutive
    dots, and the path check refuses it (as long as joining the output
    directory and the name with one of the four extensions keeps that name
    in the path, as it does for a name without directory parts).  The
    request fails even when the image was generated. *)
Theorem file_name_ending_in_dot_is_refused params config img mime sp s base :
  p_fileName params = Some (base ++ ".") ->
  (forall extension,
     In extension [".png"; ".jpg"; ".gif"; ".webp"] ->
     contains (path_join (imageOutputDir config) (base ++ "." ++ extension))
              (base ++ "." ++ extension)) ->
  (exists e, snd (orchestrate params config img mime sp (startWorld s)) = Err e) /\
  countIf isSaveCall
    (trace (fst (orchestrate params config img mime sp (startWorld s)))) = 0.
Proof.
  intros Hname Hjoin.
  destruct (retryLoop_last_generation params (generationRequest params img mime) sp
              (qaEnabled params config s) (maxAttempts params config s)
              s (maxAttempts params config s) 1
              {| currentPrompt := sp; qaReport := None;
                 lastGenerationResult := None |} [])
    as (t & r & Hloop & Hsave & _).
  cbn [app] in Hloop. rewrite (orchestrate_of_loop _ _ _ _ _ _ _ _ Hloop).
  assert (Hcount : countIf isSaveCall t = 0).
  { unfold countIf. rewrite filter_none; [reflexivity | exact Hsave]. }
  destruct r as [v|e]; [|split; [eexists; reflexivity | exact Hcount]].
  destruct (lastGenerationResult v) as [last|];
    [|split; [eexists; reflexivity | exact Hcount]].
  assert (Hdots : includes (path_join (imageOutputDir config)
                              (outputFileName params (imageData last))) ".." = true).
  { apply includes_iff. unfold outputFileName. rewrite Hname.
    assert (Ht : truthyString (Some (base ++ ".")) = Some (base ++ ".")).
    { unfold truthyString. destruct (base ++ "." =? "") eqn:E; [|reflexivity].
      apply String.eqb_eq in E. destruct base; discriminate E. }
    rewrite Ht, removeExtension_trailing_dot.
    pose proof (extension_is_known (imageData last)) as Hknown.
    destruct (extension_starts_with_dot (imageData last)) as (rest & Hrest).
    rewrite append_assoc.
    eapply contains_trans; [apply Hjoin; exact Hknown|].
    rewrite Hrest. exists base, rest. reflexivity. }
  unfold sanitizeFilePath. rewrite Hdots.
  destruct (includes _ (String "000"%char ""));
    (split; [eexists; reflexivity | exact Hcount]).
Qed.

(** *** Lazy initialisation *)

Lemma initializeClients_facts (w : World) :
  let s := server w in
  let s' := server (fst (initializeClients w)) in
  (structuredPromptGenerator s = true -> structuredPromptGenerator s' = true) /\
  (geminiTextClient s = true -> geminiTextClient s' = true) /\
  (geminiClient s = true -> geminiClient s' = true) /\
  (qaValidator s = true -> qaValidator s' = true) /\
  (snd (initializeClients w) = Ok tt ->
   structuredPromptGenerator s' = true /\ geminiClient s' = true) /\
  (qaValidator s = false -> qaValidator s' = true ->
   exists config, getConfig = Ok config /\ enableScientificQa config = true).
Proof.
  cbv zeta. destruct w as [s t].
  unfold initializeClients, bind, getServer, setServer, orThrow, ret, throw.
  cbn [server trace fst snd].
  destruct s as [gen txt cli qa]. cbn [structuredPromptGenerator geminiTextClient
                                       geminiClient qaValidator].
  destruct (gen && cli) eqn:Hready.
  { apply andb_true_iff in Hready. destruct Hready as [-> ->].
    cbn [fst snd server structuredPromptGenerator geminiTextClient geminiClient
         qaValidator].
    repeat split; auto. intros ->. discriminate. }
  remember getConfig as configResult eqn:Hconfig.
  destruct configResult as [config|e];
    [|cbn [fst snd server structuredPromptGenerator geminiTextClient geminiClient
           qaValidator]; repeat split; auto; try discriminate;
      intros ->; discriminate].
  destruct gen, txt, cli, qa; cbn [negb andb] in *; try discriminate Hready;
    destruct (createGeminiTextClient config None);
    destruct (createGeminiClient config);
    destruct (enableScientificQa config) eqn:Hen;
    destruct (createGeminiTextClient config (Some (scientificQaModel config)));
    cbn; repeat split; auto; try discriminate;
    intros _ _; exists config; auto.
Qed.

(** X16.  [initializeClients] never drops a collaborator that exists, even
    when it fails; when it succeeds the prompt generator and the image
    client exist, whether or not the client of the QA model could be
    created; and it creates the validator only when the configuration
    enables scientific QA. *)
Theorem initializeClients_result (w : World) :
  let s := server w in
  let s' := server (fst (initializeClients w)) in
  (structuredPromptGenerator s = true -> structuredPromptGenerator s' = true) /\
  (geminiTextClient s = true -> geminiTextClient s' = true) /\
  (geminiClient s = true -> geminiClient s' = true) /\
  (qaValidator s = true -> qaValidator s' = true) /\
  (snd (initializeClients w) = Ok tt ->
   structuredPromptGenerator s' = true /\ geminiClient s' = true) /\
  (qaValidator s = false -> qaValidator s' = true ->
   exists config, getConfig = Ok config /\ enableScientificQa config = true).
Proof. exact (initializeClients_facts w). Qed.

(** X17.  Once [initializeClients] has succeeded, calling it again changes
    nothing and cannot fail: it returns before reading the configuration,
    so it never creates the QA validator later on. *)
Theorem initializeClients_idempotent (w : World) :
  snd (initializeClients w) = Ok tt ->
  initializeClients (fst (initializeClients w)) = (fst (initializeClients w), Ok tt).
Proof.
  intros Hok.
  destruct (initializeClients_facts w) as (_ & _ & _ & _ & Hready & _).
  destruct (Hready Hok) as [Hgen Hcli].
  set (w1 := fst (initializeClients w)) in *.
  unfold initializeClients at 1, bind, getServer.
  cbn [server]. rewrite Hgen, Hcli. reflexivity.
Qed.

(** [handleGenerateImage], step by step. *)
Lemma handleGenerateImage_steps params s :
  handleGenerateImage params (startWorld s) =
  match validateGenerateImageParams params with
  | Err e => (startWorld s, Err e)
  | Ok _ =>
    match getConfig with
    | Err e => (startWorld s, Err e)
    | Ok config =>
      match initializeClients (startWorld s) with
      | (w1, Err e) => (w1, Err e)
      | (w1, Ok _) =>
        match readInputImage params with
        | Err e => (w1, Err e)
        | Ok img =>
          if geminiClient (server w1)
          then
            match initializeQaOnDemand params config w1 with
            | (w2, Ok _) =>
              orchestrate params config (fst img) (snd img)
                (structuredPromptFor params config (fst img) (server w1)) w2
            | (w2, Err e) => (w2, Err e)
            end
          else (w1, Err (PlainError "Gemini client not initialized"))
        end
      end
    end
  end.
Proof.
  unfold handleGenerateImage. rewrite wrapWithResultType_run.
  unfold bind, orThrow, ret, throw, getServer.
  destruct (validateGenerateImageParams params); [|reflexivity].
  destruct getConfig; [|reflexivity].
  destruct (initializeClients (startWorld s)) as [w1 [u|e]]; [|reflexivity].
  destruct (readInputImage params); [|reflexivity].
  destruct (geminiClient (server w1)); reflexivity.
Qed.

(** X18.  When the parameters are valid, the configuration is read, the
    clients are initialised and the input image is read, the request always
    reaches the generation loop: the guard on a missing image client never
    fires.  The first generation call carries the enriched prompt when
    enrichment is on and succeeded, and the caller's own prompt when
    enrichment is skipped or failed. *)
Theorem request_reaches_generation params s valid config img :
  validateGenerateImageParams params = Ok valid ->
  getConfig = Ok config ->
  snd (initializeClients (startWorld s)) = Ok tt ->
  readInputImage params = Ok img ->
  let prompt :=
    if skipPromptEnhancement config then p_prompt params
    else match generateStructuredPrompt params (fst img) with
         | Ok structured => structured
         | Err _ => p_prompt params
         end in
  In (GenerateImageCall 1 (generationRequest params (fst img) (snd img) prompt))
     (trace (fst (handleGenerateImage params (startWorld s)))).
Proof.
  intros Hvalid Hconfig Hinit Himg. cbv zeta.
  rewrite handleGenerateImage_steps, Hvalid, Hconfig, Himg.
  pose proof (initializeClients_trace (startWorld s)) as Htrace.
  destruct (initializeClients_facts (startWorld s)) as (_ & _ & _ & _ & Hready & _).
  destruct (Hready Hinit) as [Hgen Hcli].
  destruct (initializeClients (startWorld s)) as [w1 [u|e]];
    cbn [fst snd] in *; [|discriminate Hinit].
  rewrite Hcli.
  destruct (initializeQaOnDemand_run params config w1) as [s1 Hs1].
  rewrite Hs1, Htrace. change (trace (startWorld s)) with (@nil Event).
  set (sp := structuredPromptFor params config (fst img) (server w1)).
  assert (Hsp : sp = if skipPromptEnhancement config then p_prompt params
                     else match generateStructuredPrompt params (fst img) with
                          | Ok structured => structured
                          | Err _ => p_prompt params
                          end).
  { unfold sp, structuredPromptFor. rewrite Hgen.
    destruct (skipPromptEnhancement config); reflexivity. }
  rewrite <- Hsp.
  destruct (retryLoop_retries_after_failure params
              (generationRequest params (fst img) (snd img)) sp
              (qaEnabled params config s1) (maxAttempts params config s1)
              s1 (maxAttempts params config s1) 1
              {| currentPrompt := sp; qaReport := None;
                 lastGenerationResult := None |} [])
    as (t & r & Hloop & Hfirst & _).
  cbn [app] in Hloop.
  destruct (orchestrate_trace _ _ _ _ _ _ _ _ Hloop) as (tail & Ht & _).
  change {| server := s1; trace := [] |} with (startWorld s1).
  rewrite Ht. apply in_or_app. left.
  apply Hfirst. apply maxAttempts_positive.
Qed.

(** *** With a validator that always returns a report *)

Section AlwaysReported.

Variable params : GenerateImageParams.
Variable request : string -> GeminiApiParams.
Variable structuredPrompt : string.
Variable maxAtt : nat.
Variable style : FigureStyle.

Hypothesis validator_returns :
  forall k qp, exists data, qaValidate k qp = Returned (Ok data).
Hypothesis style_given : p_figureStyle params = Some style.

(** The loop ends with the image of its last generation call and the
    report of the evaluation of that image. *)
Definition ReportOfLastImage (attempt : nat) (v : LoopVars) (t : list Event)
  (r : Result LoopVars AppError) : Prop :=
  forall v', r = Ok v' ->
    (t = [] /\ v' = v) \/
    exists n g data,
      attempt + countIf isGenerateCall t = S n /\
      lastGenerationResult v' = Some g /\
      qaValidate n (qaParamsOf params g style) = Returned (Ok data) /\
      qaReport v' = Some (attemptReport data n).

Lemma retryLoop_report_of_last_image (s : ServerState) (remaining attempt : nat)
  (v : LoopVars) (t0 : list Event) :
  qaValidator s = true ->
  exists t r,
    retryLoop params request structuredPrompt true maxAtt remaining attempt v
      {| server := s; trace := t0 |} = ({| server := s; trace := t0 ++ t |}, r) /\
    ReportOfLastImage attempt v t r.
Proof.
  intros Hval.
  apply (retryLoop_cases params request structuredPrompt true maxAtt s
           (fun _ attempt v t r => ReportOfLastImage attempt v t r));
    unfold ReportOfLastImage.
  - intros a v0 v' E. injection E as <-. left. split; reflexivity.
  - intros rem a v0 e _ v' E. discriminate E.
  - intros rem a v0 g _ Hnone. rewrite Hval, style_given in Hnone.
    discriminate Hnone.
  - intros rem a v0 g style0 _ _ _ _ Hno. exfalso.
    destruct (validator_returns a (qaParamsOf params g style0)) as [data Hdata].
    exact (Hno data Hdata).
  - intros rem a v0 g style0 data _ _ _ Hst Hqa _ v' E. injection E as <-.
    rewrite style_given in Hst. injection Hst as <-.
    right. exists a, g, data. repeat split; [|exact Hqa].
    unfold countIf. cbn. lia.
  - intros rem a v0 g style0 data t r _ _ _ Hst Hqa _ _ _ IH v' E.
    rewrite style_given in Hst. injection Hst as <-.
    right. destruct (IH v' E) as [[-> ->]|(n & g' & data' & Hn & H')].
    + exists a, g, data. repeat split; [|exact Hqa].
      unfold countIf. cbn. lia.
    + exists n, g', data'. split; [|exact H'].
      unfold countIf in *. cbn. lia.
Qed.

End AlwaysReported.

Lemma orchestrate_reports_delivered_image params config img mime sp s resp :
  (forall k qp, exists data, qaValidate k qp = Returned (Ok data)) ->
  qaEnabled params config s = true ->
  snd (orchestrate params config img mime sp (startWorld s)) = Ok resp ->
  exists style data n,
    p_figureStyle params = Some style /\
    n = countIf isGenerateCall
          (trace (fst (orchestrate params config img mime sp (startWorld s)))) /\
    qaValidate n (qaParamsOf params (resp_generation resp) style) =
      Returned (Ok data) /\
    resp_qa resp = Some (attemptReport data n).
Proof.
  intros Halways Hon.
  assert (Hq : qaEnabled params config s = true) by exact Hon.
  unfold qaEnabled in Hq. apply andb_true_iff in Hq. destruct Hq as [Hq Hval].
  apply andb_true_iff in Hq. destruct Hq as [Hst _].
  destruct (p_figureStyle params) as [style|] eqn:Hstyle; [|discriminate Hst].
  destruct (retryLoop_report_of_last_image params
              (generationRequest params img mime) sp
              (maxAttempts params config s) style Halways Hstyle
              s (maxAttempts params config s) 1
              {| currentPrompt := sp; qaReport := None;
                 lastGenerationResult := None |} [] Hval)
    as (t & r & Hloop & Hrep).
  rewrite <- Hon in Hloop. cbn [app] in Hloop.
  rewrite (orchestrate_of_loop _ _ _ _ _ _ _ _ Hloop).
  destruct r as [v|e]; [|discriminate].
  destruct (lastGenerationResult v) as [last|] eqn:Hlast; [|discriminate].
  destruct (sanitizeFilePath _) as [path|e]; [|discriminate].
  cbn [fst snd trace].
  destruct (saveImage (imageData last) path) as [saved|e]; [|discriminate].
  intros E. injection E as <-. cbn [resp_generation resp_qa].
  destruct (Hrep v eq_refl) as [[_ ->]|(n & g & data & Hn & Hg & Hqa & Hv)];
    [discriminate Hlast|].
  rewrite Hlast in Hg. injection Hg as <-.
  exists style, data, n. repeat split; auto.
  rewrite count_app. unfold countIf at 2. cbn. lia.
Qed.

(** With QA active and a validator whose report of the first image passes,
    one generation and one evaluation are made. *)
Lemma orchestrate_first_report_passes params config img mime sp s style g data :
  qaEnabled params config s = true ->
  p_figureStyle params = Some style ->
  generateImage 1 (generationRequest params img mime sp) = Ok g ->
  qaValidate 1 (qaParamsOf params g style) = Returned (Ok data) ->
  passed data = true ->
  exists tail,
    trace (fst (orchestrate params config img mime sp (startWorld s))) =
      (GenerateImageCall 1 (generationRequest params img mime sp) ::
       QaValidateCall 1 (qaParamsOf params g style) :: tail) /\
    Forall (fun e => isSaveCall e = true) tail /\
    forall resp,
      snd (orchestrate params config img mime sp (startWorld s)) = Ok resp ->
      resp_generation resp = g /\ resp_qa resp = Some (attemptReport data 1).
Proof.
  intros Hon Hstyle Hgen Hqa Hpass.
  assert (Hq : qaEnabled params config s = true) by exact Hon.
  unfold qaEnabled in Hq. apply andb_true_iff in Hq. destruct Hq as [_ Hval].
  assert (Hloop :
    retryLoop params (generationRequest params img mime) sp
      (qaEnabled params config s) (maxAttempts params config s)
      (maxAttempts params config s) 1
      {| currentPrompt := sp; qaReport := None; lastGenerationResult := None |}
      {| server := s; trace := [] |} =
    ({| server := s;
        trace := [GenerateImageCall 1 (generationRequest params img mime sp);
                  QaValidateCall 1 (qaParamsOf params g style)] |},
     Ok {| currentPrompt := sp;
           qaReport := Some (attemptReport data 1);
           lastGenerationResult := Some g |})).
  { unfold maxAttempts at 2. rewrite Hon.
    replace (scientificQaMaxRetries config + 1) with (S (scientificQaMaxRetries config))
      by lia.
    rewrite retryLoop_step. cbv zeta. cbn [currentPrompt server trace app].
    rewrite Hgen, Hval, Hstyle. cbn [andb].
    change {| qv_imageData := imageData g; qv_figureStyle := style;
              qv_originalPrompt := p_prompt params |}
      with (qaParamsOf params g style).
    rewrite Hqa.
    replace (passed data || (1 =? maxAttempts params config s)%nat) with true
      by (rewrite Hpass; reflexivity).
    reflexivity. }
  rewrite (orchestrate_of_loop _ _ _ _ _ _ _ _ Hloop).
  cbn [lastGenerationResult qaReport].
  destruct (sanitizeFilePath _) as [path|e].
  - eexists. cbn [fst snd trace app]. split; [reflexivity|].
    split; [repeat constructor|].
    destruct (saveImage (imageData g) path) as [saved|e]; [|discriminate].
    intros resp E. injection E as <-. split; reflexivity.
  - exists []. cbn [fst snd trace]. split; [reflexivity|].
    split; [constructor | discriminate].
Qed.
End Server.

(** ** A worked request

    Stand-ins for the runtime and the collaborators, on which the loop can be
    run: a map is asked for, the first image fails two hard checks, the
    second passes. *)

(** The evaluator's first reply: one pass and two hard failures; the six
    other checks of a map are not mentioned. *)
Definition sampleFailingReply : string :=
  "{" ++ dq ++ "checks" ++ dq ++ ":[" ++
  "{" ++ dq ++ "id" ++ dq ++ ":" ++ dq ++ "spelling" ++ dq ++ "," ++
         dq ++ "status" ++ dq ++ ":" ++ dq ++ "pass" ++ dq ++ "}," ++
  "{" ++ dq ++ "id" ++ dq ++ ":" ++ dq ++ "scale_bar" ++ dq ++ "," ++
         dq ++ "status" ++ dq ++ ":" ++ dq ++ "fail" ++ dq ++ "," ++
         dq ++ "detail" ++ dq ++ ":" ++ dq ++ "no scale bar" ++ dq ++ "}," ++
  "{" ++ dq ++ "id" ++ dq ++ ":" ++ dq ++ "north_arrow" ++ dq ++ "," ++
         dq ++ "status" ++ dq ++ ":" ++ dq ++ "fail" ++ dq ++ "}]}".

Definition sampleFailingJson : json :=
  JObject
    [("checks",
      JArray
        [ JObject [("id", JString "spelling"); ("status", JString "pass")];
          JObject [("id", JString "scale_bar"); ("status", JString "fail");
                   ("detail", JString "no scale bar")];
          JObject [("id", JString "north_arrow"); ("status", JString "fail")] ])].

(** The second reply: the one check it mentions passes. *)
Definition samplePassingReply : string :=
  "{" ++ dq ++ "checks" ++ dq ++ ":[" ++
  "{" ++ dq ++ "id" ++ dq ++ ":" ++ dq ++ "spelling" ++ dq ++ "," ++
         dq ++ "status" ++ dq ++ ":" ++ dq ++ "pass" ++ dq ++ "}]}".

Definition samplePassingJson : json :=
  JObject
    [("checks",
      JArray [ JObject [("id", JString "spelling"); ("status", JString "pass")] ])].

(** [JSON.parse] on the texts of this request; any other text is taken as
    not being JSON. *)
Definition sampleParse (text : string) : option json :=
  if text =? sampleFailingReply then Some sampleFailingJson
  else if text =? samplePassingReply then Some samplePassingJson
  else if text =? "null" then Some JNull
  else None.

Definition sampleTrim (text : string) : string := text.
Definition sampleBase64 (data : list Z) : string := "aW1hZ2U=".
Definition sampleInherited (k : string) : option string := None.
Definition samplePathJoin (dir file : string) : string := dir ++ "/" ++ file.
Definition samplePathResolve (path : string) : string := path.

Definition samplePng : list Z :=
  [0x89; 0x50; 0x4e; 0x47; 0x0d; 0x0a; 0x1a; 0x0a; 0; 0; 0; 0x0d]%Z.

Definition sampleConfig : Config :=
  {| geminiApiKey := "0123456789abcdef";
     imageOutputDir := "/tmp/output";
     apiTimeout := 30000%Z;
     skipPromptEnhancement := false;
     enableScientificQa := true;
     scientificQaMaxRetries := 1;
     scientificQaModel := "gemini-3.1-pro-preview" |}.

Definition sampleParams : GenerateImageParams :=
  {| p_prompt := "Map of the glacier";
     p_fileName := Some "glacier.jpg";
     p_inputImagePath := None;
     p_blendImages := None;
     p_maintainCharacterConsistency := None;
     p_useWorldKnowledge := None;
     p_useGoogleSearch := None;
     p_aspectRatio := None;
     p_imageSize := None;
     p_figureStyle := Some scientific_map;
     p_editMode := None;
     p_validateQa := None |}.

Definition sampleStructuredPrompt : string := "A scientific map of the glacier.".

(** The text client of the validator: a failing reply to the first attempt,
    a passing one afterwards. *)
Definition sampleTextClient (attempt : nat) (prompt : string)
  (options : GenerationConfig) : Result string AppError :=
  if (attempt =? 1)%nat then Ok sampleFailingReply else Ok samplePassingReply.

Definition sampleValidator : nat -> QaValidationParams -> QaCall :=
  createScientificQaValidator sampleParse sampleTrim sampleBase64 sampleTextClient.

Definition sampleImage : GeneratedImageResult :=
  {| imageData := samplePng;
     metadata := {| model := "gemini-3.1-flash-image-preview";
                    md_prompt := "";
                    mimeType := "image/png";
                    timestamp := 0;
                    inputImageProvided := false;
                    modelVersion := None;
                    responseId := None |} |}.

(** The image back end: it fails from attempt [failFrom] on. *)
Definition sampleGenerate (failFrom attempt : nat) (request : GeminiApiParams)
  : Result GeneratedImageResult AppError :=
  if (failFrom <=? attempt)%nat
  then Err (NetworkError "Network error during image generation: ECONNRESET")
  else Ok sampleImage.

Definition sampleSave (data : list Z) (path : string) : Result string AppError :=
  Ok path.

Definition sampleServer : ServerState :=
  {| structuredPromptGenerator := false;
     geminiTextClient := false;
     geminiClient := false;
     qaValidator := false |}.

(** The server once its clients and its validator exist. *)
Definition readyServer : ServerState :=
  {| structuredPromptGenerator := true;
     geminiTextClient := true;
     geminiClient := true;
     qaValidator := true |}.

(** The client factory: [qaClientOk] tells whether the client of the QA model
    can be created. *)
Definition sampleTextClientFactory (qaClientOk : bool) (config : Config)
  (modelOverride : option string) : Result unit AppError :=
  match modelOverride with
  | None => Ok tt
  | Some _ =>
    if qaClientOk then Ok tt
    else Err (GeminiAPIError "Failed to initialize Gemini Text client: unknown model")
  end.

(** The whole handler on the stand-ins. *)
Definition sampleHandle (qaClientOk : bool) (failFrom : nat)
  (params : GenerateImageParams) : M SuccessResponse :=
  handleGenerateImage sampleInherited samplePathJoin samplePathResolve 1700000000%N 42
    (fun p => Ok p) (Ok sampleConfig)
    (sampleTextClientFactory qaClientOk) (fun _ => Ok tt)
    (fun _ => Ok (None, None))
    (fun _ _ => Ok sampleStructuredPrompt)
    (sampleGenerate failFrom) sampleValidator (fun _ => 250%Z)
    sampleSave ["/tmp"] params.




(** The loop and the save on the stand-ins. *)
Definition sampleOrchestrate (failFrom : nat) : M SuccessResponse :=
  orchestrate sampleInherited samplePathJoin samplePathResolve 1700000000%N 42
    (sampleGenerate failFrom) sampleValidator (fun _ => 250%Z)
    sampleSave ["/tmp"] sampleParams sampleConfig None None sampleStructuredPrompt.

Definition sampleQaParams : QaValidationParams :=
  {| qv_imageData := samplePng;
     qv_figureStyle := scientific_map;
     qv_originalPrompt := "Map of the glacier" |}.

(** The patch after the first attempt of the worked request. *)
Definition samplePatch : string :=
  buildRetryPatch sampleInherited
    (checks (reportOfParsed sampleFailingJson scientific_map
               (getChecksForStyle scientific_map))).

Definition sampleRetryRequest : GeminiApiParams :=
  generationRequest sampleParams None None (sampleStructuredPrompt ++ samplePatch).

(** *** Small checks of the text functions *)

(** The doubles at work.  With 23 passes among 40 checks the product
    [(23 / 40) * 100] is the double just below 57.5, so [Math.round] gives 57
    where the exact ratio would round to 58; and the double of 13 hundredths
    is not 13/100. *)
Example score_on_doubles :
  roundedRatio 23 40 = hundredths 57 /\
  nearestInteger (inject_Z 23 / inject_Z 40 * 100)%Q = 58%Z /\
  roundedRatio 1 8 = hundredths 13 /\
  (hundredths 13 - (13 # 100) == 1 # 225179981368524800)%Q.
Proof. repeat split; vm_compute; reflexivity. Qed.

Example stripCodeFences_fenced_reply :
  stripCodeFences ("```json" ++ nl ++ "{}" ++ nl ++ "```") = "{}" ++ nl.
Proof. reflexivity. Qed.

Example removeExtension_samples :
  removeExtension "glacier.jpg" = "glacier" /\
  removeExtension "archive.tar.gz" = "archive.tar" /\
  removeExtension "v1.2/figure" = "v1.2/figure" /\
  removeExtension "figure" = "figure".
Proof. repeat split; reflexivity. Qed.

Example first_report_of_worked_request :
  exists report,
    sampleValidator 1 sampleQaParams = Returned (Ok report) /\
    passed report = false /\ hardFailCount report = 2 /\
    countIf (fun c => isSkipped (status c)) (checks report) = 6.
Proof. eexists. split; [vm_compute; reflexivity|]. repeat split. Qed.

(** *** The theorems at work on the worked request *)

(** C2 on a reply in plain prose. *)
Lemma C2_witness :
  exists report,
    validate sampleParse sampleTrim sampleBase64
      (fun _ _ => Ok "The figure looks fine to me.") sampleQaParams = Ok report /\
    Forall2 (fun def c => Materializes def c /\ status c = skipped)
      (getChecksForStyle (qv_figureStyle sampleQaParams)) (checks report) /\
    passed report = true /\
    score report = 0%Q.
Proof.
  apply C2_unusable_reply_gives_skipped_report.
  right. exists "The figure looks fine to me.".
  split; [reflexivity|]. left. reflexivity.
Defined.

(** C4 as the specification words it fails on the first report of the
    worked request: one check of three evaluated ones passes, the ratio is
    1/3 and the score is the double 0.33. *)
Lemma C4_counterexample :
  exists report,
    validate sampleParse sampleTrim sampleBase64 (sampleTextClient 1)
      sampleQaParams = Ok report /\
    (specScore (checks report) == 1 # 3)%Q /\
    score report = hundredths 33 /\
    ~ (score report == specScore (checks report))%Q.
Proof.
  eexists. split; [vm_compute; reflexivity|].
  split; [vm_compute; reflexivity|].
  split; [vm_compute; reflexivity|].
  intros H. vm_compute in H. discriminate H.
Qed.

(** C7 on the second generation call of the worked request. *)
Lemma C7_witness :
  (2 = 1 /\ g_prompt sampleRetryRequest = sampleStructuredPrompt) \/
  (1 < 2 /\
   exists qp report,
     In (QaValidateCall (2 - 1) qp)
        (trace (fst (sampleOrchestrate 5 (startWorld readyServer)))) /\
     sampleValidator (2 - 1) qp = Returned (Ok report) /\
     g_prompt sampleRetryRequest =
       sampleStructuredPrompt ++ buildRetryPatch sampleInherited (checks report)).
Proof.
  apply (C7_retry_prompt_from_original sampleInherited samplePathJoin
           samplePathResolve 1700000000%N 42 (sampleGenerate 5) sampleValidator
           (fun _ => 250%Z) sampleSave ["/tmp"] sampleParams sampleConfig
           None None sampleStructuredPrompt readyServer 2 sampleRetryRequest).
  vm_compute. right. right. left. reflexivity.
Defined.

(** C8 on the worked request when the back end fails at the second
    attempt: the image of the first attempt is not saved. *)
Lemma C8_witness :
  snd (sampleHandle true 2 sampleParams (startWorld sampleServer)) =
    Err (NetworkError "Network error during image generation: ECONNRESET") /\
  (forall qp,
     ~ In (QaValidateCall 2 qp)
          (trace (fst (sampleHandle true 2 sampleParams (startWorld sampleServer))))) /\
  (forall k' req',
     In (GenerateImageCall k' req')
        (trace (fst (sampleHandle true 2 sampleParams (startWorld sampleServer)))) ->
     k' <= 2) /\
  (forall d path,
     ~ In (SaveImageCall d path)
          (trace (fst (sampleHandle true 2 sampleParams (startWorld sampleServer))))).
Proof.
  apply (C8_generation_failure_aborts sampleInherited samplePathJoin
           samplePathResolve 1700000000%N 42 (fun p => Ok p) (Ok sampleConfig)
           (sampleTextClientFactory true) (fun _ => Ok tt)
           (fun _ => Ok (None, None)) (fun _ _ => Ok sampleStructuredPrompt)
           (sampleGenerate 2) sampleValidator (fun _ => 250%Z) sampleSave ["/tmp"]
           sampleParams sampleServer 2 sampleRetryRequest
           (NetworkError "Network error during image generation: ECONNRESET")).
  - vm_compute. right. right. left. reflexivity.
  - reflexivity.
Defined.


(** C10 on the worked request: the caller asks for glacier.jpg, the bytes
    are a PNG. *)
Lemma C10_witness :
  p_fileName sampleParams = Some "glacier.jpg" /\
  "glacier.jpg" <> "" /\
  outputFileName 1700000000%N 42 sampleParams samplePng = "glacier.png".
Proof.
  split; [reflexivity|]. split; [discriminate|].
  destruct (C10_saved_extension_from_magic_bytes sampleInherited samplePathJoin
              samplePathResolve 1700000000%N 42 (sampleGenerate 5) sampleValidator
              (fun _ => 250%Z) sampleSave ["/tmp"] sampleParams "glacier.jpg"
              samplePng eq_refl ltac:(discriminate)) as [Hname _].
  rewrite Hname. reflexivity.
Defined.

(** ** The handler over the validator of [scientificQaValidator.ts]

    [handleGenerateImage] creates its validator with
    [createScientificQaValidator]; the statements below are about
    [orchestrate] run with that validator, over any text client. *)

Section RealValidator.

Variable JSON_parse : string -> option json.
Variable trim : string -> string.
Variable toBase64 : list Z -> string.
Variable inheritedProperty : string -> option string.
Variable path_join : string -> string -> string.
Variable path_resolve : string -> string.
Variable dateNow : N.
Variable randomBelow1000 : nat.
Variable generateImage : nat -> GeminiApiParams -> Result GeneratedImageResult AppError.
Variable textClient : nat -> string -> GenerationConfig -> Result string AppError.
Variable elapsedMs : nat -> Z.
Variable saveImage : list Z -> string -> Result string AppError.
Variable allowedBasePaths : list string.

Local Abbreviation validator :=
  (createScientificQaValidator JSON_parse trim toBase64 textClient).
Local Abbreviation run :=
  (orchestrate inheritedProperty path_join path_resolve dateNow randomBelow1000
     generateImage validator elapsedMs saveImage allowedBasePaths).

Lemma validator_always_returns (k : nat) (qp : QaValidationParams) :
  exists data, validator k qp = Returned (Ok data).
Proof.
  unfold createScientificQaValidator.
  destruct (validate_report_facts JSON_parse trim toBase64 (textClient k) qp)
    as (report & Hrep & _).
  exists report. rewrite Hrep. reflexivity.
Qed.

(** X19.  With QA active, the report of a successful response is the
    validator's report on the very image the response delivers, and its
    [attempts] is the number of generation calls the request made. *)
Theorem report_describes_delivered_image params config img mime sp s resp :
  qaEnabled params config s = true ->
  snd (run params config img mime sp (startWorld s)) = Ok resp ->
  exists style data report,
    p_figureStyle params = Some style /\
    resp_qa resp = Some report /\
    attempts report =
      countIf isGenerateCall (trace (fst (run params config img mime sp (startWorld s)))) /\
    validate JSON_parse trim toBase64 (textClient (attempts report))
      {| qv_imageData := imageData (resp_generation resp);
         qv_figureStyle := style;
         qv_originalPrompt := p_prompt params |} = Ok data /\
    passed report = passed data /\ score report = score data /\
    hardFailCount report = hardFailCount data /\ checks report = checks data.
Proof.
  intros Hon Hok.
  destruct (orchestrate_reports_delivered_image inheritedProperty path_join
              path_resolve dateNow randomBelow1000 generateImage validator
              elapsedMs saveImage allowedBasePaths params config img mime sp s resp
              validator_always_returns Hon Hok)
    as (style & data & n & Hstyle & Hn & Hqa & Hrep).
  exists style, data, (attemptReport elapsedMs data n).
  cbn [attemptReport attempts passed score hardFailCount checks].
  repeat split; auto.
  unfold createScientificQaValidator in Hqa. injection Hqa as Hqa. exact Hqa.
Qed.

(** X20.  When the validator returns a report that does not pass, at an
    attempt within the configured number of retries, the next generation
    call is always made, with the structured prompt followed by the patch of
    that report: a report of the validator that does not pass never gives an
    empty patch. *)
Theorem failed_validation_is_always_retried params config img mime sp s k qp data :
  In (QaValidateCall k qp)
     (trace (fst (run params config img mime sp (startWorld s)))) ->
  validate JSON_parse trim toBase64 (textClient k) qp = Ok data ->
  passed data = false ->
  k <= scientificQaMaxRetries config ->
  In (GenerateImageCall (S k)
        (generationRequest params img mime
           (sp ++ buildRetryPatch inheritedProperty (checks data))))
     (trace (fst (run params config img mime sp (startWorld s)))).
Proof.
  intros Hin Hval Hfail Hk.
  apply (orchestrate_retries_after_failure inheritedProperty path_join
           path_resolve dateNow randomBelow1000 generateImage validator
           elapsedMs saveImage allowedBasePaths params config img mime sp s k qp data
           Hin); auto.
  - unfold createScientificQaValidator. rewrite Hval. reflexivity.
  - destruct (validate_report_facts JSON_parse trim toBase64 (textClient k) qp)
      as (report & Hrep & [Hcount Hpass] & _).
    rewrite Hval in Hrep. injection Hrep as <-.
    rewrite buildRetryPatch_empty_iff, <- Hcount. intros H0.
    rewrite Hpass, H0 in Hfail. discriminate Hfail.
Qed.

(** X21.  An evaluator that cannot be reached at the first attempt does not
    block the request and does not make it retry: one generation call is
    made, and a successful response delivers that first image with a report
    in which every check is skipped, [passed] is true and the score is 0. *)
Theorem evaluator_outage_delivers_first_image params config img mime sp s style g e :
  qaEnabled params config s = true ->
  p_figureStyle params = Some style ->
  generateImage 1 (generationRequest params img mime sp) = Ok g ->
  evaluatorReply toBase64 (textClient 1) (qaParamsOf params g style) = Err e ->
  countIf isGenerateCall
    (trace (fst (run params config img mime sp (startWorld s)))) = 1 /\
  forall resp,
    snd (run params config img mime sp (startWorld s)) = Ok resp ->
    resp_generation resp = g /\
    exists report,
      resp_qa resp = Some report /\
      passed report = true /\ score report = 0%Q /\ attempts report = 1 /\
      Forall (fun c => status c = skipped) (checks report) /\
      List.length (checks report) = List.length (getChecksForStyle style).
Proof.
  intros Hon Hstyle Hgen Hreply.
  set (data := buildSkippedReport style (getChecksForStyle style)).
  assert (Hqa : validator 1 (qaParamsOf params g style) = Returned (Ok data)).
  { unfold createScientificQaValidator. rewrite validate_returns, Hreply.
    reflexivity. }
  destruct (orchestrate_first_report_passes inheritedProperty path_join
              path_resolve dateNow randomBelow1000 generateImage validator
              elapsedMs saveImage allowedBasePaths params config img mime sp s
              style g data Hon Hstyle Hgen Hqa eq_refl)
    as (tail & Htrace & Htail & Hresp).
  split.
  - rewrite Htrace.
    change (?a :: ?b :: tail) with ([a; b] ++ tail)%list.
    rewrite count_app, (count_saves_only isGenerateCall tail save_is_not_generate Htail).
    reflexivity.
  - intros resp Hok. destruct (Hresp resp Hok) as [Hg Hrep].
    split; [exact Hg|]. exists (attemptReport elapsedMs data 1).
    split; [exact Hrep|].
    cbn [attemptReport passed score attempts checks].
    repeat split.
    + apply skipped_checks_status.
    + unfold data. cbn [buildSkippedReport checks]. apply length_map.
Qed.

End RealValidator.

(** ** [server/mcpServer.ts]: [detectMimeTypeFromMagicBytes] *)

(** [None] is [undefined]. *)
Definition detectMimeTypeFromMagicBytes (buffer : list Z) : option string :=
  if (List.length buffer <? 12)%nat then None
  else if byteIs buffer 0 0x89 && byteIs buffer 1 0x50 &&
          byteIs buffer 2 0x4e && byteIs buffer 3 0x47 &&
          byteIs buffer 4 0x0d && byteIs buffer 5 0x0a &&
          byteIs buffer 6 0x1a && byteIs buffer 7 0x0a
  then Some "image/png"
  else if byteIs buffer 0 0xff && byteIs buffer 1 0xd8 && byteIs buffer 2 0xff
  then Some "image/jpeg"
  else if byteIs buffer 0 0x47 && byteIs buffer 1 0x49 &&
          byteIs buffer 2 0x46 && byteIs buffer 3 0x38 &&
          (byteIs buffer 4 0x37 || byteIs buffer 4 0x39) &&
          byteIs buffer 5 0x61
  then Some "image/gif"
  else if byteIs buffer 0 0x42 && byteIs buffer 1 0x4d
  then Some "image/bmp"
  else if byteIs buffer 0 0x52 && byteIs buffer 1 0x49 &&
          byteIs buffer 2 0x46 && byteIs buffer 3 0x46 &&
          byteIs buffer 8 0x57 && byteIs buffer 9 0x45 &&
          byteIs buffer 10 0x42 && byteIs buffer 11 0x50
  then Some "image/webp"
  else None.

Lemma byteIs_other (buffer : list Z) (i : nat) (v v' : Z) :
  byteIs buffer i v = true -> (v =? v')%Z = false -> byteIs buffer i v' = false.
Proof.
  unfold byteIs. destruct (nth_error buffer i) as [b|]; [|discriminate].
  intros Hb Hv. apply Z.eqb_eq in Hb. subst b. exact Hv.
Qed.

(** The first byte, once known, rules the other signatures out. *)
Ltac first_byte H :=
  repeat match goal with
         | |- context [byteIs ?d 0 ?v] =>
           rewrite (byteIs_other d 0 _ v H eq_refl)
         end;
  cbn [andb orb].

(** X24.  The two extension tables differ on BMP only: for a buffer of
    twelve bytes or more that starts with [BM], the name the file manager
    generates ends in [.bmp] while a caller's file name is given [.png]; on
    every other buffer the two functions give the same extension. *)
Theorem extension_tables_differ_on_bmp_only (data : list Z) :
  (negb (List.length data <? 12)%nat && byteIs data 0 0x42 && byteIs data 1 0x4d
   = true ->
   getExtensionFromMagicBytes data = ".bmp" /\
   getExtensionFromImageData data = ".png") /\
  (negb (List.length data <? 12)%nat && byteIs data 0 0x42 && byteIs data 1 0x4d
   = false ->
   getExtensionFromMagicBytes data = getExtensionFromImageData data).
Proof.
  unfold getExtensionFromMagicBytes, getExtensionFromImageData.
  destruct (List.length data <? 12)%nat; cbn [negb andb];
    [split; [discriminate | reflexivity]|].
  destruct (byteIs data 0 0x42) eqn:H0; cbn [andb];
    [|split; [discriminate | reflexivity]].
  destruct (byteIs data 1 0x4d) eqn:H1; [|split; [discriminate | reflexivity]].
  split; [|discriminate]. intros _.
  first_byte H0. split; reflexivity.
Qed.

(** X25.  The MIME type detected from the bytes of a file and the extension
    the file manager derives from the same bytes name the same format. *)
Theorem detected_mime_type_matches_extension (data : list Z) (mimeType : string) :
  detectMimeTypeFromMagicBytes data = Some mimeType ->
  In (mimeType, getExtensionFromMagicBytes data)
     [("image/png", ".png"); ("image/jpeg", ".jpg"); ("image/gif", ".gif");
      ("image/bmp", ".bmp"); ("image/webp", ".webp")].
Proof.
  unfold detectMimeTypeFromMagicBytes, getExtensionFromMagicBytes.
  destruct (List.length data <? 12)%nat; [discriminate|].
  destruct (byteIs data 0 0x89) eqn:Hpng.
  { first_byte Hpng.
    destruct (byteIs data 1 0x50 && byteIs data 2 0x4e && byteIs data 3 0x47);
      cbn [andb]; [|discriminate].
    destruct (_ && _); [|discriminate].
    intros E. injection E as <-. left. reflexivity. }
  cbn [andb].
  destruct (byteIs data 0 0xff) eqn:Hjpeg.
  { first_byte Hjpeg.
    destruct (byteIs data 1 0xd8 && byteIs data 2 0xff); [|discriminate].
    intros E. injection E as <-. right. left. reflexivity. }
  cbn [andb].
  destruct (byteIs data 0 0x47) eqn:Hgif.
  { first_byte Hgif.
    destruct (byteIs data 1 0x49 && byteIs data 2 0x46 && byteIs data 3 0x38);
      cbn [andb]; [|discriminate].
    destruct (_ && _); [|discriminate].
    intros E. injection E as <-. right. right. left. reflexivity. }
  cbn [andb].
  destruct (byteIs data 0 0x42 && byteIs data 1 0x4d).
  { intros E. injection E as <-. right. right. right. left. reflexivity. }
  destruct (_ && _); [|discriminate].
  intros E. injection E as <-. right. right. right. right. left. reflexivity.
Qed.

(** ** [utils/config.ts] *)

Section ConfigTs.

(** [process.env[name]], [None] when the variable is not set;
    [String.prototype.trim]; [s.length], the number of UTF-16 code units;
    [Number.parseInt(s, 10)], [None] where it gives [NaN].  A text of so
    many digits that [parseInt] gives [Infinity] is outside this model. *)
Variable env : string -> option string.
Variable trim : string -> string.
Variable jsLength : string -> nat.
Variable parseInt10 : string -> option Z.

Definition DEFAULT_imageOutputDir : string := "./output".
Definition DEFAULT_apiTimeout : Z := 30000%Z.

Definition validateConfig (config : Config) : Result Config AppError :=
  if (geminiApiKey config =? "") || (jsLength (trim (geminiApiKey config)) =? 0)%nat
  then Err (ConfigError "GEMINI_API_KEY is required but not provided")
  else if (jsLength (geminiApiKey config) <? 10)%nat
  then Err (ConfigError
              "GEMINI_API_KEY appears to be invalid - must be at least 10 characters")
  else if (apiTimeout config <=? 0)%Z
  then Err (ConfigError "API timeout must be a positive number")
  else if (imageOutputDir config =? "") ||
          (jsLength (trim (imageOutputDir config)) =? 0)%nat
  then Err (ConfigError "IMAGE_OUTPUT_DIR cannot be empty")
  else Ok config.

(** [process.env[name] || fallback] *)
Definition envOr (name fallback : string) : string :=
  match truthyString (env name) with
  | Some value => value
  | None => fallback
  end.

(** [process.env[name] === 'true'] *)
Definition envIsTrue (name : string) : bool :=
  match env name with
  | Some value => value =? "true"
  | None => false
  end.

(** [Math.max(0, Number.parseInt(process.env[...] || '1', 10) || 1)] *)
Definition maxRetriesFromEnv : nat :=
  let parsed :=
    match parseInt10 (envOr "SCIENTIFIC_QA_MAX_RETRIES" "1") with
    | Some n => if (n =? 0)%Z then 1%Z else n
    | None => 1%Z
    end in
  Z.to_nat (Z.max 0 parsed).

Definition getConfig : Result Config AppError :=
  validateConfig
    {| geminiApiKey := envOr "GEMINI_API_KEY" "";
       imageOutputDir := envOr "IMAGE_OUTPUT_DIR" DEFAULT_imageOutputDir;
       apiTimeout := DEFAULT_apiTimeout;
       skipPromptEnhancement := envIsTrue "SKIP_PROMPT_ENHANCEMENT";
       enableScientificQa := envIsTrue "SCIENTIFIC_QA_ENABLED";
       scientificQaMaxRetries := maxRetriesFromEnv;
       scientificQaModel := envOr "SCIENTIFIC_QA_MODEL" "gemini-3.1-pro-preview" |}.

Lemma getConfig_fields (config : Config) :
  getConfig = Ok config ->
  config =
    {| geminiApiKey := envOr "GEMINI_API_KEY" "";
       imageOutputDir := envOr "IMAGE_OUTPUT_DIR" DEFAULT_imageOutputDir;
       apiTimeout := DEFAULT_apiTimeout;
       skipPromptEnhancement := envIsTrue "SKIP_PROMPT_ENHANCEMENT";
       enableScientificQa := envIsTrue "SCIENTIFIC_QA_ENABLED";
       scientificQaMaxRetries := maxRetriesFromEnv;
       scientificQaModel := envOr "SCIENTIFIC_QA_MODEL" "gemini-3.1-pro-preview" |}.
Proof.
  unfold getConfig, validateConfig.
  repeat match goal with
         | |- context [if ?c then _ else _] => destruct c
         end; intros E; try discriminate E.
  injection E as <-. reflexivity.
Qed.

Lemma envOr_unset (name fallback : string) :
  env name = None \/ env name = Some "" -> envOr name fallback = fallback.
Proof. unfold envOr. intros [->| ->]; reflexivity. Qed.

Lemma envOr_set (name fallback text : string) :
  env name = Some text -> text <> "" -> envOr name fallback = text.
Proof.
  unfold envOr, truthyString. intros -> Hne.
  apply String.eqb_neq in Hne. rewrite Hne. reflexivity.
Qed.

(** X26.  The number of QA retries of a loaded configuration.  When
    [SCIENTIFIC_QA_MAX_RETRIES] is unset or empty it is 1; when its text is
    not a number, or is 0, it is 1 as well; a positive number gives that
    many retries and a negative number gives 0.  So zero retries cannot be
    asked for with 0, only with a negative value. *)
Theorem max_retries_of_loaded_config (config : Config) :
  getConfig = Ok config ->
  parseInt10 "1" = Some 1%Z ->
  let raw := env "SCIENTIFIC_QA_MAX_RETRIES" in
  (raw = None \/ raw = Some "" -> scientificQaMaxRetries config = 1) /\
  (forall text, raw = Some text -> text <> "" ->
     match parseInt10 text with
     | None => scientificQaMaxRetries config = 1
     | Some n =>
       ((n = 0)%Z -> scientificQaMaxRetries config = 1) /\
       ((0 < n)%Z -> scientificQaMaxRetries config = Z.to_nat n) /\
       ((n < 0)%Z -> scientificQaMaxRetries config = 0)
     end).
Proof.
  intros Hok Hone. apply getConfig_fields in Hok. subst config.
  cbn [scientificQaMaxRetries]. unfold maxRetriesFromEnv. cbv zeta. split.
  - intros Hraw. rewrite (envOr_unset _ _ Hraw), Hone. reflexivity.
  - intros text Hraw Hne. rewrite (envOr_set _ _ _ Hraw Hne).
    destruct (parseInt10 text) as [n|]; [|reflexivity].
    destruct (Z.eqb_spec n 0) as [->|Hn]; repeat split; intros H; try lia.
Qed.

(** X27.  Loading the configuration never fails on the timeout, which is
    always 30000 ms.  A loaded configuration has a key of at least ten
    characters and a non-empty output directory, and scientific QA and the
    skipping of prompt enhancement are on only when their variable is
    exactly [true]. *)
Theorem loaded_config_facts :
  getConfig <> Err (ConfigError "API timeout must be a positive number") /\
  forall config,
    getConfig = Ok config ->
    apiTimeout config = 30000%Z /\
    geminiApiKey config <> "" /\ 10 <= jsLength (geminiApiKey config) /\
    imageOutputDir config <> "" /\
    (enableScientificQa config = true <->
     env "SCIENTIFIC_QA_ENABLED" = Some "true") /\
    (skipPromptEnhancement config = true <->
     env "SKIP_PROMPT_ENHANCEMENT" = Some "true").
Proof.
  assert (Htrue : forall name, envIsTrue name = true <-> env name = Some "true").
  { intros name. unfold envIsTrue. destruct (env name) as [value|].
    - rewrite String.eqb_eq. split; [intros ->; reflexivity | intros E].
      injection E as E. exact E.
    - split; discriminate. }
  split.
  - unfold getConfig, validateConfig. cbn [geminiApiKey imageOutputDir apiTimeout].
    repeat match goal with
           | |- context [if ?c then _ else _] => destruct c eqn:?
           end; try discriminate.
  - intros config Hok. pose proof (getConfig_fields config Hok) as Hfields.
    unfold getConfig, validateConfig in Hok.
    cbn [geminiApiKey imageOutputDir apiTimeout] in Hok.
    destruct (_ || _) eqn:Hkey in Hok; [discriminate Hok|].
    destruct (_ <? 10)%nat eqn:Hlen in Hok; [discriminate Hok|].
    destruct (_ <=? 0)%Z in Hok; [discriminate Hok|].
    destruct (_ || _) eqn:Hdir in Hok; [discriminate Hok|].
    apply orb_false_iff in Hkey, Hdir. destruct Hkey as [Hkey _], Hdir as [Hdir _].
    apply String.eqb_neq in Hkey, Hdir. apply Nat.ltb_ge in Hlen.
    subst config.
    cbn [geminiApiKey imageOutputDir apiTimeout enableScientificQa
         skipPromptEnhancement].
    repeat split; auto; apply Htrue.
Qed.

End ConfigTs.

(** ** The added theorems on the worked request *)

(** The report the validator returns on the first image. *)
Definition sampleFirstReport : QaReport :=
  reportOfParsed sampleFailingJson scientific_map (getChecksForStyle scientific_map).

(** The definition of the scale-bar check of a scientific map. *)
Definition sampleScaleBarDef : QaCheckDefinition :=
  match find (fun d => def_id d =? "scale_bar") (getChecksForStyle scientific_map) with
  | Some d => d
  | None => {| def_id := ""; def_name := ""; def_severity := soft;
               def_instruction := "" |}
  end.

(** A [trim] for line breaks. *)
Fixpoint dropLeadingBreaks (s : string) : string :=
  match s with
  | String c r => if Ascii.eqb c "010"%char then dropLeadingBreaks r else s
  | EmptyString => EmptyString
  end.

Fixpoint dropTrailingBreaks (s : string) : string :=
  match s with
  | EmptyString => EmptyString
  | String c r =>
    match dropTrailingBreaks r with
    | EmptyString => if Ascii.eqb c "010"%char then EmptyString else String c EmptyString
    | r' => String c r'
    end
  end.

Definition sampleLineTrim (s : string) : string :=
  dropTrailingBreaks (dropLeadingBreaks s).

(** A validator that reports on the first image and throws afterwards. *)
Definition sampleFlakyValidator (attempt : nat) (qp : QaValidationParams) : QaCall :=
  if (attempt =? 1)%nat then sampleValidator 1 qp
  else Thrown (NetworkError "Network error during QA evaluation").

Definition sampleFlakyHandle : M SuccessResponse :=
  handleGenerateImage sampleInherited samplePathJoin samplePathResolve 1700000000%N 42
    (fun p => Ok p) (Ok sampleConfig)
    (sampleTextClientFactory true) (fun _ => Ok tt)
    (fun _ => Ok (None, None))
    (fun _ _ => Ok sampleStructuredPrompt)
    (sampleGenerate 5) sampleFlakyValidator (fun _ => 250%Z)
    sampleSave ["/tmp"] sampleParams.

(** The worked request with a file name that ends in a dot. *)
Definition sampleDotParams : GenerateImageParams :=
  {| p_prompt := "Map of the glacier";
     p_fileName := Some "glacier.";
     p_inputImagePath := None;
     p_blendImages := None;
     p_maintainCharacterConsistency := None;
     p_useWorldKnowledge := None;
     p_useGoogleSearch := None;
     p_aspectRatio := None;
     p_imageSize := None;
     p_figureStyle := Some scientific_map;
     p_editMode := None;
     p_validateQa := None |}.

(** A text client that cannot be reached. *)
Definition sampleDeadTextClient (attempt : nat) (prompt : string)
  (options : GenerationConfig) : Result string AppError :=
  Err (NetworkError "Network error during text generation").

(** An environment with a key and zero retries asked for. *)
Definition sampleEnv (name : string) : option string :=
  if name =? "GEMINI_API_KEY" then Some "0123456789abcdef"
  else if name =? "SCIENTIFIC_QA_MAX_RETRIES" then Some "0"
  else None.

Definition sampleParseInt (text : string) : option Z :=
  if text =? "1" then Some 1%Z
  else if text =? "0" then Some 0%Z
  else None.

Definition sampleLoadedConfig : Config :=
  {| geminiApiKey := "0123456789abcdef";
     imageOutputDir := "./output";
     apiTimeout := 30000%Z;
     skipPromptEnhancement := false;
     enableScientificQa := false;
     scientificQaMaxRetries := 1;
     scientificQaModel := "gemini-3.1-pro-preview" |}.

Ltac pick := repeat first [left; reflexivity | right].

(** X4 on the first reply: its scale-bar entry makes the scale-bar check
    fail, with the entry's detail. *)
Lemma first_valid_entry_decides_witness :
  exists report c,
    validate sampleParse sampleTrim sampleBase64 (sampleTextClient 1) sampleQaParams
      = Ok report /\
    In c (checks report) /\
    id c = def_id sampleScaleBarDef /\ name c = def_name sampleScaleBarDef /\
    severity c = def_severity sampleScaleBarDef /\
    status c = fail /\
    detail c = Some "no scale bar".
Proof.
  apply (first_valid_entry_decides sampleParse sampleTrim sampleBase64
           (sampleTextClient 1) sampleQaParams sampleFailingReply sampleFailingJson
           [JObject [("id", JString "spelling"); ("status", JString "pass")]]
           [JObject [("id", JString "north_arrow"); ("status", JString "fail")]]
           (JObject [("id", JString "scale_bar"); ("status", JString "fail");
                     ("detail", JString "no scale bar")])
           sampleScaleBarDef fail).
  - reflexivity.
  - vm_compute. reflexivity.
  - reflexivity.
  - intros b [<-|[]]. vm_compute. discriminate.
  - vm_compute. reflexivity.
  - reflexivity.
  - vm_compute. pick.
Defined.

(** X7 on the second reply, which has no fence. *)
Lemma stripCodeFences_without_fence_witness :
  stripCodeFences samplePassingReply = samplePassingReply.
Proof.
  apply (stripCodeFences_without_fence samplePassingReply).
  vm_compute. reflexivity.
Defined.

(** X8 on the second reply, fenced. *)
Lemma fenced_reply_same_report_witness :
  parseQaResponse sampleParse sampleLineTrim
    ("```json" ++ nl ++ samplePassingReply ++ nl ++ "```")
    scientific_map (getChecksForStyle scientific_map) =
  parseQaResponse sampleParse sampleLineTrim samplePassingReply
    scientific_map (getChecksForStyle scientific_map) /\
  parseQaResponse sampleParse sampleLineTrim
    ("```" ++ nl ++ samplePassingReply ++ nl ++ "```")
    scientific_map (getChecksForStyle scientific_map) =
  parseQaResponse sampleParse sampleLineTrim samplePassingReply
    scientific_map (getChecksForStyle scientific_map).
Proof.
  apply (fenced_reply_same_report sampleParse sampleLineTrim samplePassingReply
           scientific_map (getChecksForStyle scientific_map));
    vm_compute; reflexivity.
Defined.

(** X10 on the worked request: the saved image is the one of the second
    generation. *)
Lemma response_is_last_generation_witness :
  exists resp t n req path,
    snd (sampleHandle true 5 sampleParams (startWorld sampleServer)) = Ok resp /\
    trace (fst (sampleHandle true 5 sampleParams (startWorld sampleServer))) =
      (t ++ [SaveImageCall (imageData (resp_generation resp)) path])%list /\
    countIf isSaveCall t = 0 /\
    sampleSave (imageData (resp_generation resp)) path = Ok (resp_filePath resp) /\
    In (GenerateImageCall n req) t /\
    sampleGenerate 5 n req = Ok (resp_generation resp) /\
    (forall k' req', In (GenerateImageCall k' req') t -> k' <= n).
Proof.
  eexists.
  assert (Hok : snd (sampleHandle true 5 sampleParams (startWorld sampleServer)) =
                Ok ?[resp]) by (vm_compute; reflexivity).
  destruct (response_is_last_generation sampleInherited samplePathJoin
              samplePathResolve 1700000000%N 42 (fun p => Ok p) (Ok sampleConfig)
              (sampleTextClientFactory true) (fun _ => Ok tt)
              (fun _ => Ok (None, None)) (fun _ _ => Ok sampleStructuredPrompt)
              (sampleGenerate 5) sampleValidator (fun _ => 250%Z) sampleSave ["/tmp"]
              sampleParams sampleServer _ Hok)
    as (t & n & req & path & H).
  exists t, n, req, path. split; [exact Hok | exact H].
Defined.

(** X11 on the worked request: the second evaluation is given the second
    image and the caller's prompt. *)
Lemma evaluation_sees_image_of_its_attempt_witness :
  exists req g style,
    In (GenerateImageCall 2 req)
       (trace (fst (sampleHandle true 5 sampleParams (startWorld sampleServer)))) /\
    sampleGenerate 5 2 req = Ok g /\
    p_figureStyle sampleParams = Some style /\
    sampleQaParams = {| qv_imageData := imageData g;
                        qv_figureStyle := style;
                        qv_originalPrompt := p_prompt sampleParams |}.
Proof.
  apply (evaluation_sees_image_of_its_attempt sampleInherited samplePathJoin
           samplePathResolve 1700000000%N 42 (fun p => Ok p) (Ok sampleConfig)
           (sampleTextClientFactory true) (fun _ => Ok tt)
           (fun _ => Ok (None, None)) (fun _ _ => Ok sampleStructuredPrompt)
           (sampleGenerate 5) sampleValidator (fun _ => 250%Z) sampleSave ["/tmp"]
           sampleParams sampleServer 2 sampleQaParams).
  vm_compute. pick.
Defined.

(** X12 when the validator throws at the second attempt: the response
    delivers the second image with the report on the first one. *)
Lemma response_report_is_last_returned_witness :
  exists resp,
    snd (sampleFlakyHandle (startWorld sampleServer)) = Ok resp /\
    resp_qa resp =
      lastReport sampleFlakyValidator (fun _ => 250%Z)
        (trace (fst (sampleFlakyHandle (startWorld sampleServer)))) None /\
    countIf isGenerateCall
      (trace (fst (sampleFlakyHandle (startWorld sampleServer)))) = 2 /\
    option_map attempts (resp_qa resp) = Some 1.
Proof.
  eexists.
  assert (Hok : snd (sampleFlakyHandle (startWorld sampleServer)) = Ok ?[resp])
    by (vm_compute; reflexivity).
  split; [exact Hok|]. split; [|split; reflexivity].
  exact (response_report_is_last_returned sampleInherited samplePathJoin
           samplePathResolve 1700000000%N 42 (fun p => Ok p) (Ok sampleConfig)
           (sampleTextClientFactory true) (fun _ => Ok tt)
           (fun _ => Ok (None, None)) (fun _ _ => Ok sampleStructuredPrompt)
           (sampleGenerate 5) sampleFlakyValidator (fun _ => 250%Z) sampleSave
           ["/tmp"] sampleParams sampleServer _ Hok).
Defined.

(** X13 on the worked request: the failed first report is followed by the
    second generation call. *)
Lemma failed_report_is_retried_witness :
  In (GenerateImageCall 2
        (generationRequest sampleParams None None
           (sampleStructuredPrompt ++
            buildRetryPatch sampleInherited (checks sampleFirstReport))))
     (trace (fst (sampleOrchestrate 5 (startWorld readyServer)))).
Proof.
  apply (failed_report_is_retried sampleInherited samplePathJoin samplePathResolve
           1700000000%N 42 (sampleGenerate 5) sampleValidator (fun _ => 250%Z)
           sampleSave ["/tmp"] sampleParams sampleConfig None None
           sampleStructuredPrompt readyServer 1 sampleQaParams sampleFirstReport).
  - vm_compute. pick.
  - vm_compute. reflexivity.
  - reflexivity.
  - vm_compute. lia.
  - vm_compute. discriminate.
Defined.

(** X14 on the worked request. *)
Lemma save_path_is_checked_witness :
  "/tmp/output/glacier.png" =
    samplePathResolve
      (samplePathJoin (imageOutputDir sampleConfig)
         (outputFileName 1700000000%N 42 sampleParams samplePng)) /\
  ~ contains (samplePathJoin (imageOutputDir sampleConfig)
                (outputFileName 1700000000%N 42 sampleParams samplePng))
             (String "000"%char "") /\
  ~ contains (samplePathJoin (imageOutputDir sampleConfig)
                (outputFileName 1700000000%N 42 sampleParams samplePng)) ".." /\
  exists basePath,
    In basePath ["/tmp"] /\
    startsWith "/tmp/output/glacier.png" (samplePathResolve basePath) = true.
Proof.
  apply (save_path_is_checked sampleInherited samplePathJoin samplePathResolve
           1700000000%N 42 (sampleGenerate 5) sampleValidator (fun _ => 250%Z)
           sampleSave ["/tmp"] sampleParams sampleConfig None None
           sampleStructuredPrompt readyServer samplePng "/tmp/output/glacier.png").
  vm_compute. pick.
Defined.

(** X15 on the worked request with the file name [glacier.]: both images
    are generated and nothing is saved. *)
Lemma file_name_ending_in_dot_is_refused_witness :
  (exists e,
     snd (orchestrate sampleInherited samplePathJoin samplePathResolve
            1700000000%N 42 (sampleGenerate 5) sampleValidator (fun _ => 250%Z)
            sampleSave ["/tmp"] sampleDotParams sampleConfig None None
            sampleStructuredPrompt (startWorld readyServer)) = Err e) /\
  countIf isSaveCall
    (trace (fst (orchestrate sampleInherited samplePathJoin samplePathResolve
                   1700000000%N 42 (sampleGenerate 5) sampleValidator
                   (fun _ => 250%Z) sampleSave ["/tmp"] sampleDotParams
                   sampleConfig None None sampleStructuredPrompt
                   (startWorld readyServer)))) = 0.
Proof.
  apply (file_name_ending_in_dot_is_refused sampleInherited samplePathJoin
           samplePathResolve 1700000000%N 42 (sampleGenerate 5) sampleValidator
           (fun _ => 250%Z) sampleSave ["/tmp"] sampleDotParams sampleConfig
           None None sampleStructuredPrompt readyServer "glacier").
  - reflexivity.
  - intros extension _. exists "/tmp/output/", "". simpl.
    rewrite append_nil_r. reflexivity.
Defined.

(** X17 on the server of the worked request. *)
Lemma initializeClients_idempotent_witness :
  initializeClients (Ok sampleConfig) (sampleTextClientFactory true) (fun _ => Ok tt)
    (fst (initializeClients (Ok sampleConfig) (sampleTextClientFactory true)
            (fun _ => Ok tt) (startWorld sampleServer))) =
  (fst (initializeClients (Ok sampleConfig) (sampleTextClientFactory true)
          (fun _ => Ok tt) (startWorld sampleServer)), Ok tt).
Proof.
  apply (initializeClients_idempotent (Ok sampleConfig)
           (sampleTextClientFactory true) (fun _ => Ok tt) (startWorld sampleServer)).
  vm_compute. reflexivity.
Defined.

(** X18 on the worked request: the first call carries the enriched prompt. *)
Lemma request_reaches_generation_witness :
  In (GenerateImageCall 1
        (generationRequest sampleParams None None sampleStructuredPrompt))
     (trace (fst (sampleHandle true 5 sampleParams (startWorld sampleServer)))).
Proof.
  apply (request_reaches_generation sampleInherited samplePathJoin
           samplePathResolve 1700000000%N 42 (fun p => Ok p) (Ok sampleConfig)
           (sampleTextClientFactory true) (fun _ => Ok tt)
           (fun _ => Ok (None, None)) (fun _ _ => Ok sampleStructuredPrompt)
           (sampleGenerate 5) sampleValidator (fun _ => 250%Z) sampleSave ["/tmp"]
           sampleParams sampleServer sampleParams sampleConfig (None, None));
    reflexivity.
Defined.

(** X19 on the worked request: the report is the one on the second image,
    and its [attempts] is 2. *)
Lemma report_describes_delivered_image_witness :
  exists resp style data report,
    snd (sampleOrchestrate 5 (startWorld readyServer)) = Ok resp /\
    p_figureStyle sampleParams = Some style /\
    resp_qa resp = Some report /\
    attempts report =
      countIf isGenerateCall (trace (fst (sampleOrchestrate 5 (startWorld readyServer)))) /\
    validate sampleParse sampleTrim sampleBase64 (sampleTextClient (attempts report))
      {| qv_imageData := imageData (resp_generation resp);
         qv_figureStyle := style;
         qv_originalPrompt := p_prompt sampleParams |} = Ok data /\
    passed report = passed data /\ score report = score data /\
    hardFailCount report = hardFailCount data /\ checks report = checks data.
Proof.
  eexists.
  assert (Hok : snd (sampleOrchestrate 5 (startWorld readyServer)) = Ok ?[resp])
    by (vm_compute; reflexivity).
  destruct (report_describes_delivered_image sampleParse sampleTrim sampleBase64
              sampleInherited samplePathJoin samplePathResolve 1700000000%N 42
              (sampleGenerate 5) sampleTextClient (fun _ => 250%Z) sampleSave ["/tmp"]
              sampleParams sampleConfig None None sampleStructuredPrompt readyServer
              _ eq_refl Hok)
    as (style & data & report & H).
  exists style, data, report. split; [exact Hok | exact H].
Defined.

(** X20 on the worked request. *)
Lemma failed_validation_is_always_retried_witness :
  In (GenerateImageCall 2
        (generationRequest sampleParams None None
           (sampleStructuredPrompt ++
            buildRetryPatch sampleInherited (checks sampleFirstReport))))
     (trace (fst (sampleOrchestrate 5 (startWorld readyServer)))).
Proof.
  apply (failed_validation_is_always_retried sampleParse sampleTrim sampleBase64
           sampleInherited samplePathJoin samplePathResolve 1700000000%N 42
           (sampleGenerate 5) sampleTextClient (fun _ => 250%Z) sampleSave ["/tmp"]
           sampleParams sampleConfig None None sampleStructuredPrompt readyServer
           1 sampleQaParams sampleFirstReport).
  - vm_compute. pick.
  - vm_compute. reflexivity.
  - reflexivity.
  - vm_compute. lia.
Defined.

(** X21 on the worked request with a text client that cannot be reached. *)
Lemma evaluator_outage_delivers_first_image_witness :
  countIf isGenerateCall
    (trace (fst (orchestrate sampleInherited samplePathJoin samplePathResolve
                   1700000000%N 42 (sampleGenerate 5)
                   (createScientificQaValidator sampleParse sampleTrim sampleBase64
                      sampleDeadTextClient)
                   (fun _ => 250%Z) sampleSave ["/tmp"] sampleParams sampleConfig
                   None None sampleStructuredPrompt (startWorld readyServer)))) = 1 /\
  forall resp,
    snd (orchestrate sampleInherited samplePathJoin samplePathResolve
           1700000000%N 42 (sampleGenerate 5)
           (createScientificQaValidator sampleParse sampleTrim sampleBase64
              sampleDeadTextClient)
           (fun _ => 250%Z) sampleSave ["/tmp"] sampleParams sampleConfig
           None None sampleStructuredPrompt (startWorld readyServer)) = Ok resp ->
    resp_generation resp = sampleImage /\
    exists report,
      resp_qa resp = Some report /\
      passed report = true /\ score report = 0%Q /\ attempts report = 1 /\
      Forall (fun c => status c = skipped) (checks report) /\
      List.length (checks report) = List.length (getChecksForStyle scientific_map).
Proof.
  apply (evaluator_outage_delivers_first_image sampleParse sampleTrim sampleBase64
           sampleInherited samplePathJoin samplePathResolve 1700000000%N 42
           (sampleGenerate 5) sampleDeadTextClient (fun _ => 250%Z) sampleSave
           ["/tmp"] sampleParams sampleConfig None None sampleStructuredPrompt
           readyServer scientific_map sampleImage
           (NetworkError "Network error during text generation"));
    reflexivity.
Defined.

(** X22 on the second reply with an entry for a check that does not exist. *)
Lemma unknown_entry_is_ignored_witness :
  reportOfParsed
    (JObject
       [("checks",
         JArray [ JObject [("id", JString "spelling"); ("status", JString "pass")];
                  JObject [("id", JString "colour_blind_safe");
                           ("status", JString "fail")] ])])
    scientific_map (getChecksForStyle scientific_map) =
  reportOfParsed samplePassingJson scientific_map (getChecksForStyle scientific_map).
Proof.
  apply (unknown_entry_is_ignored _ samplePassingJson
           [JObject [("id", JString "spelling"); ("status", JString "pass")]] []
           (JObject [("id", JString "colour_blind_safe"); ("status", JString "fail")])
           scientific_map (getChecksForStyle scientific_map));
    try reflexivity.
  intros def Hin. vm_compute in Hin.
  repeat (destruct Hin as [<-|Hin]; [vm_compute; discriminate|]).
  destruct Hin.
Defined.

(** X24 on a bitmap header. *)
Definition sampleBmp : list Z :=
  [0x42; 0x4d; 0x46; 0; 0; 0; 0; 0; 0; 0; 0x36; 0]%Z.

Lemma extension_tables_differ_on_bmp_only_witness :
  getExtensionFromMagicBytes sampleBmp = ".bmp" /\
  getExtensionFromImageData sampleBmp = ".png".
Proof.
  apply (proj1 (extension_tables_differ_on_bmp_only sampleBmp)).
  vm_compute. reflexivity.
Defined.

(** X25 on the image of the worked request. *)
Lemma detected_mime_type_matches_extension_witness :
  In ("image/png", getExtensionFromMagicBytes samplePng)
     [("image/png", ".png"); ("image/jpeg", ".jpg"); ("image/gif", ".gif");
      ("image/bmp", ".bmp"); ("image/webp", ".webp")].
Proof.
  apply (detected_mime_type_matches_extension samplePng "image/png").
  vm_compute. reflexivity.
Defined.

(** X26 on an environment that asks for 0 retries: the loaded
    configuration has 1. *)
Lemma max_retries_of_loaded_config_witness :
  getConfig sampleEnv (fun s => s) String.length sampleParseInt =
    Ok sampleLoadedConfig /\
  sampleEnv "SCIENTIFIC_QA_MAX_RETRIES" = Some "0" /\
  scientificQaMaxRetries sampleLoadedConfig = 1.
Proof.
  assert (Hok : getConfig sampleEnv (fun s => s) String.length sampleParseInt =
                Ok sampleLoadedConfig) by (vm_compute; reflexivity).
  split; [exact Hok|]. split; [reflexivity|].
  destruct (max_retries_of_loaded_config sampleEnv (fun s => s) String.length
              sampleParseInt sampleLoadedConfig Hok eq_refl) as [_ Htext].
  specialize (Htext "0" eq_refl ltac:(discriminate)).
  exact (proj1 Htext eq_refl).
Defined.
